(** * PCSResourceManager: cluster resource orchestration

    A shallow embedding of [PCSResourceManager]
    (file-sharing/src/tabs/iSCSI/types/ConfigurationManager.ts) and the
    properties of its cache, classification, group placement, anchor
    discovery and active-node resolution.

    Strings are sequences of code units below 256; the remote command
    transport is a transition function on an abstract world; resource
    objects live in a store so that aliasing between the snapshot cache and
    the caller's references is visible. *)

From Stdlib Require Import ZArith NArith List String Ascii Lia Permutation Sorted.
From stdpp Require Import base option list strings gmap.

Local Open Scope string_scope.
Local Open Scope list_scope.

(** ** String primitives of the host language *)

Module Js.

(** [sub] is a prefix of [s]. *)
Fixpoint startsWith (sub s : string) : bool :=
  match sub, s with
  | EmptyString, _ => true
  | String a sub', String b s' => if Ascii.eqb a b then startsWith sub' s' else false
  | String _ _, EmptyString => false
  end.

(** [String.prototype.includes]. *)
Fixpoint includes (s sub : string) : bool :=
  if startsWith sub s then true
  else match s with
       | EmptyString => false
       | String _ s' => includes s' sub
       end.

Fixpoint dropChars (n : nat) (s : string) : string :=
  match n, s with
  | O, _ => s
  | S n', String _ s' => dropChars n' s'
  | S _, EmptyString => EmptyString
  end.

(** [String.prototype.replace] with a string pattern: only the first
    occurrence is replaced. *)
Fixpoint replace (pat rep s : string) : string :=
  if startsWith pat s then rep +:+ dropChars (String.length pat) s
  else match s with
       | EmptyString => EmptyString
       | String c s' => String c (replace pat rep s')
       end.

(** [Array.prototype.join]. *)
Definition join (sep : string) (parts : list string) : string :=
  String.concat sep parts.

(** Truthiness of a [string | undefined]. *)
Definition truthy (v : option string) : bool :=
  match v with
  | Some s => negb (String.eqb s EmptyString)
  | None => false
  end.

End Js.

(** ** The regular expressions of the manager

    The patterns of the source only use literals, character classes under
    [*], [+] and [*?], [^] in multiline mode, [\b] and one capture group.
    A pattern is a list of items matched by backtracking in priority
    order. *)

Module RegExp.

Definition code (c : ascii) : N := N_of_ascii c.

(** [\s] restricted to code units below 256. *)
Definition isSpace (c : ascii) : bool :=
  let n := code c in
  ((9 <=? n) && (n <=? 13) || (n =? 32) || (n =? 160))%N.

Definition isLineTerminator (c : ascii) : bool :=
  let n := code c in ((n =? 10) || (n =? 13))%N.

(** [\w]. *)
Definition isWordChar (c : ascii) : bool :=
  let n := code c in
  ((48 <=? n) && (n <=? 57) || (65 <=? n) && (n <=? 90)
   || (97 <=? n) && (n <=? 122) || (n =? 95))%N.

Definition notNewline (c : ascii) : bool := negb (code c =? 10)%N.
Definition notSpace (c : ascii) : bool := negb (isSpace c) && notNewline c.

(** Canonicalize of the [i] flag (no [u] flag): the upper-case code unit. *)
Definition canonicalize (c : ascii) : N :=
  let n := code c in
  if ((97 <=? n) && (n <=? 122))%N then (n - 32)%N
  else if ((224 <=? n) && (n <=? 254) && negb (n =? 247))%N then (n - 32)%N
  else if (n =? 255)%N then 376%N
  else if (n =? 181)%N then 924%N
  else n.

Inductive item : Type :=
| Bol                                   (* ^ with the m flag *)
| WordBoundary                          (* \b *)
| Lit (c : ascii) (ignoreCase : bool)   (* one literal character *)
| Class (p : ascii -> bool)             (* one character of a class *)
| Star (greedy : bool) (p : ascii -> bool)
| CaptureOpen
| CaptureClose.

Inductive capture : Type :=
| NoCapture
| Capturing (rev : list ascii)
| Captured (s : string).

Definition push (cap : capture) (c : ascii) : capture :=
  match cap with
  | Capturing rev => Capturing (c :: rev)
  | _ => cap
  end.

Definition close (cap : capture) : capture :=
  match cap with
  | Capturing rev => Captured (string_of_list_ascii (List.rev rev))
  | _ => cap
  end.

Definition charEq (ignoreCase : bool) (a b : ascii) : bool :=
  if ignoreCase then (canonicalize a =? canonicalize b)%N else Ascii.eqb a b.

Definition atBoundary (prev : option ascii) (s : string) : bool :=
  let before := match prev with Some c => isWordChar c | None => false end in
  let after := match s with String c _ => isWordChar c | EmptyString => false end in
  xorb before after.

Definition atLineStart (prev : option ascii) : bool :=
  match prev with
  | None => true
  | Some c => isLineTerminator c
  end.

(** Match [items] at the current position; [prev] is the character before
    it. The result is the capture and the text after the match. *)
Fixpoint matchHere (items : list item) (prev : option ascii) (cap : capture)
    (s : string) {struct items} : option (capture * string) :=
  match items with
  | [] => Some (cap, s)
  | Bol :: k => if atLineStart prev then matchHere k prev cap s else None
  | WordBoundary :: k => if atBoundary prev s then matchHere k prev cap s else None
  | Lit c ic :: k =>
      match s with
      | String d s' => if charEq ic c d then matchHere k (Some d) (push cap d) s' else None
      | EmptyString => None
      end
  | Class p :: k =>
      match s with
      | String d s' => if p d then matchHere k (Some d) (push cap d) s' else None
      | EmptyString => None
      end
  | Star greedy p :: k =>
      (fix star (prev : option ascii) (cap : capture) (s : string) {struct s} :=
         let more :=
           match s with
           | String d s' => if p d then star (Some d) (push cap d) s' else None
           | EmptyString => None
           end in
         if greedy then
           match more with
           | Some r => Some r
           | None => matchHere k prev cap s
           end
         else
           match matchHere k prev cap s with
           | Some r => Some r
           | None => more
           end) prev cap s
  | CaptureOpen :: k => matchHere k prev (Capturing []) s
  | CaptureClose :: k => matchHere k prev (close cap) s
  end.

(** Leftmost match: try every start position in turn. *)
Fixpoint search (items : list item) (prev : option ascii) (s : string)
    : option (capture * string) :=
  match matchHere items prev NoCapture s with
  | Some r => Some r
  | None =>
      match s with
      | String c s' => search items (Some c) s'
      | EmptyString => None
      end
  end.

(** [String.prototype.match] without the g flag: capture group 1 and the
    text that follows the match. *)
Definition exec (items : list item) (s : string) : option (option string * string) :=
  match search items None s with
  | Some (Captured g, rest) => Some (Some g, rest)
  | Some (_, rest) => Some (None, rest)
  | None => None
  end.

Definition literal (ignoreCase : bool) (s : string) : list item :=
  List.map (fun c => Lit c ignoreCase) (list_ascii_of_string s).

Definition plus (p : ascii -> bool) : list item := [Class p; Star true p].

(** [/[\r\n]/] *)
Definition lineBreak : list item := [Class isLineTerminator].

(** [/is running on:\s+([^\s\n]+)/i] *)
Definition runningOn : list item :=
  literal true "is running on:" ++ plus isSpace
  ++ [CaptureOpen] ++ plus notSpace ++ [CaptureClose].

(** [^\s*\*\s*Resource\s+Group:\s*<groupId>\s*:] with flags [mi]; the
    group id is escaped, hence matched literally. *)
Definition groupHeader (groupId : string) : list item :=
  [Bol; Star true isSpace; Lit "*" true; Star true isSpace]
  ++ literal true "Resource" ++ plus isSpace ++ literal true "Group:"
  ++ [Star true isSpace] ++ literal true groupId
  ++ [Star true isSpace; Lit ":" true].

(** [/^\s*\*\s*[^\n]*?\bStarted\s+([^\s\n]+)/mi] *)
Definition startedLine : list item :=
  [Bol; Star true isSpace; Lit "*" true; Star true isSpace;
   Star false notNewline; WordBoundary]
  ++ literal true "Started" ++ plus isSpace
  ++ [CaptureOpen] ++ plus notSpace ++ [CaptureClose].

Definition test (items : list item) (s : string) : bool :=
  match search items None s with Some _ => true | None => false end.

End RegExp.

(** ** Errors, commands and the remote server *)

(** An [Error] object: its name and its message. *)
Record JsError : Type := mkError { errName : string; errMessage : string }.

(** [new ProcessError(message)]. *)
Definition ProcessError (message : string) : JsError := mkError "ProcessError" message.

(** [Error.prototype.toString], used by template literals. *)
Definition errToString (e : JsError) : string :=
  if String.eqb (errName e) EmptyString then errMessage e
  else if String.eqb (errMessage e) EmptyString then errName e
  else errName e +:+ ": " +:+ errMessage e.

(** What escapes the result channel: a [throw] inside a [safeTry] body or
    a [map] callback rejects the promise. *)
Inductive Exception : Type :=
| Raised (e : JsError)
| TypeErrorOnUndefined.

Inductive Result (A E : Type) : Type :=
| ROk (a : A)
| RErr (e : E).
Arguments ROk {A E} a.
Arguments RErr {A E} e.

Record CommandOptions : Type := { superuser : option string }.

Definition defaultOptions : CommandOptions := {| superuser := None |}.

(** [commandOptionsWrite = { superuser: "try" }]. *)
Definition commandOptionsWrite : CommandOptions := {| superuser := Some "try" |}.

Inductive Command : Type :=
| Cmd (argv : list string) (opts : CommandOptions)
| BashCommand (script : string) (args : list string) (opts : CommandOptions).

Record Process : Type := { getStdout : string; exitStatus : Z }.

(** [server.execute(command, failIfNonZero)] on a world of type [W]. *)
Record Server (W : Type) : Type :=
  { run : Command -> bool -> W -> Result Process JsError * W }.
Arguments run {W} _ _ _ _.

(** ** Resource types *)

(** Modelled from the spec: [PCSResourceType] (cluster/PCSResource.ts, not
    among the source files) is the closed enumeration of resource kinds.
    The manager filters [Object.values] of it by [typeof value ===
    'number'], so it is a numeric enum and a member is a number. *)
Definition PCSResourceType : Type := nat.

(** Modelled from the spec: an entry of [PCSResourceTypeInfo] gives the
    agent name the kind maps to and its rank within a group; these are the
    two fields the manager reads. *)
Record TypeInfo : Type := { internalTypeName : string; orderInGroup : Z }.

(** The enumeration and its table, a parameter of the manager. *)
Record Catalog : Type :=
  { (* Object.values(PCSResourceType) restricted to numbers: the members
       in declaration order *)
    enumValues : list PCSResourceType;
    PCSResourceTypeInfo : PCSResourceType -> TypeInfo;
    TARGET : PCSResourceType;
    PORTBLOCK_ON : PCSResourceType;
    PORTBLOCK_OFF : PCSResourceType }.

(** ** Resources, groups and the configuration JSON *)

(** Modelled from the spec: a [PCSResourceGroup]
    (cluster/PCSResourceGroup.ts, not among the source files) is a handle
    holding the name of the group only. *)
Record PCSResourceGroup : Type := { groupName : string }.

(** Modelled from the spec: a [PCSResource] (cluster/PCSResource.ts, not
    among the source files) has a name, a type and an optional group
    reference, the arguments of its constructor. *)
Record PCSResource : Type :=
  { name : string;
    resourceType : PCSResourceType;
    resourceGroup : option PCSResourceGroup }.

(** The JSON of [pcs resource config --output-format json], as typed by
    [PCSResourceConfigJson] and [PCSConfigJson]. *)
Record NvPair : Type := { nvId : string; nvName : string; nvValue : string }.

Record InstanceAttributes : Type := { nvpairs : list NvPair }.

Record PCSResourceConfigJson : Type :=
  { id : string;
    agent_name_type : string;
    instance_attributes : list InstanceAttributes }.

Record GroupJson : Type := { groupId : string; member_ids : list string }.

Record PCSConfigJson : Type :=
  { primitives : option (list PCSResourceConfigJson);
    groups : option (list GroupJson) }.

(** [r.resourceGroup?.name === groupName] *)
Definition inGroup (g : string) (r : PCSResource) : bool :=
  match resourceGroup r with
  | Some rg => String.eqb (groupName rg) g
  | None => false
  end.

(** ** Manager state and its monad *)

Definition loc : Type := nat.

#[export] Instance PCSResource_inhabited : Inhabited PCSResource :=
  populate {| name := EmptyString; resourceType := 0; resourceGroup := None |}.

Record State (W : Type) : Type :=
  { world : W;
    issued : list Command;
    store : list PCSResource;
    currentResources : option (list loc) }.
Arguments world {W} _.
Arguments issued {W} _.
Arguments store {W} _.
Arguments currentResources {W} _.

Inductive Outcome (A : Type) : Type :=
| Ok (a : A)
| Err (e : JsError)
| Threw (x : Exception).
Arguments Ok {A} a.
Arguments Err {A} e.
Arguments Threw {A} x.

Definition M (W A : Type) : Type := State W -> Outcome A * State W.

Definition ret {W A} (a : A) : M W A := fun st => (Ok a, st).

Definition bind {W A B} (m : M W A) (k : A -> M W B) : M W B :=
  fun st =>
    match m st with
    | (Ok a, st') => k a st'
    | (Err e, st') => (Err e, st')
    | (Threw x, st') => (Threw x, st')
    end.

Declare Scope pcs_scope.
Delimit Scope pcs_scope with pcs.
Notation "x <- c1 ;; c2" := (bind c1 (fun x => c2))
  (at level 100, c1 at next level, right associativity) : pcs_scope.
Notation "c1 ;;; c2" := (bind c1 (fun _ => c2))
  (at level 100, right associativity) : pcs_scope.
Local Open Scope pcs_scope.

(** [errAsync(e)] *)
Definition errAsync {W A} (e : JsError) : M W A := fun st => (Err e, st).

(** [throw e] *)
Definition throw {W A} (x : Exception) : M W A := fun st => (Threw x, st).

(** [.mapErr(f)] *)
Definition mapErr {W A} (f : JsError -> JsError) (m : M W A) : M W A :=
  fun st =>
    match m st with
    | (Err e, st') => (Err (f e), st')
    | r => r
    end.

Definition liftResult {W A} (r : Result A JsError) : M W A :=
  match r with
  | ROk a => ret a
  | RErr e => errAsync e
  end.

(** [server.execute(command, failIfNonZero)]: the command is recorded and
    the world advances. *)
Definition execute {W} (server : Server W) (command : Command) (failIfNonZero : bool)
    : M W Process :=
  fun st =>
    let '(r, w) := run server command failIfNonZero (world st) in
    let st' := {| world := w; issued := issued st ++ [command];
                  store := store st; currentResources := currentResources st |} in
    match r with
    | ROk p => (Ok p, st')
    | RErr e => (Err e, st')
    end.

Definition getCache {W} : M W (option (list loc)) :=
  fun st => (Ok (currentResources st), st).

Definition setCache {W} (c : option (list loc)) : M W unit :=
  fun st => (Ok tt, {| world := world st; issued := issued st;
                       store := store st; currentResources := c |}).

(** [new PCSResource(...)] *)
Definition alloc {W} (r : PCSResource) : M W loc :=
  fun st => (Ok (length (store st)),
             {| world := world st; issued := issued st;
                store := store st ++ [r]; currentResources := currentResources st |}).

(** Field reads go through the store. *)
Definition load {W} (l : loc) : M W PCSResource :=
  fun st => (Ok (store st !!! l), st).

Definition loadAll {W} (ls : list loc) : M W (list PCSResource) :=
  fun st => (Ok (List.map (fun l => store st !!! l) ls), st).

(** [resource.resourceGroup = g] *)
Definition setResourceGroup {W} (l : loc) (g : PCSResourceGroup) : M W unit :=
  fun st =>
    let r := store st !!! l in
    (Ok tt, {| world := world st; issued := issued st;
               store := <[l := {| name := name r; resourceType := resourceType r;
                                  resourceGroup := Some g |}]> (store st);
               currentResources := currentResources st |}).

Fixpoint allocAll {W} (rs : list PCSResource) : M W (list loc) :=
  match rs with
  | [] => ret []
  | r :: rest => l <- alloc r ;; ls <- allocAll rest ;; ret (l :: ls)
  end.

(** ** Containers of the active-node resolver *)

(** An entry of [perMember]. *)
Module PerMember.
Record t : Type := { id : string; node : option string }.
End PerMember.

(** [Map<string, number>]: keys in insertion order. *)
Module NodeCounts.

Definition t : Type := list (string * Z).

Fixpoint get (m : t) (k : string) : option Z :=
  match m with
  | [] => None
  | (k', v) :: rest => if String.eqb k' k then Some v else get rest k
  end.

Fixpoint set (m : t) (k : string) (v : Z) : t :=
  match m with
  | [] => [(k, v)]
  | (k', v') :: rest => if String.eqb k' k then (k', v) :: rest else (k', v') :: set rest k v
  end.

End NodeCounts.

(** [Set<string>]: elements in insertion order. *)
Module NodeSet.

Definition has (s : list string) (x : string) : bool := existsb (String.eqb x) s.

Definition add (s : list string) (x : string) : list string :=
  if has s x then s else s ++ [x].

Definition ofList (l : list string) : list string := fold_left add l [].

End NodeSet.

(** The double quote character as a string. *)
Definition dquote : string := String "034"%char EmptyString.

(** ** The manager *)

Section PCSResourceManager.

Context {W : Type}.
Context (catalog : Catalog).
(* safeJsonParse<PCSConfigJson> of the command library *)
Context (safeJsonParse : string -> Result PCSConfigJson JsError).
(* this.server *)
Context (server : Server W).

Definition infoOf (t : PCSResourceType) : TypeInfo := PCSResourceTypeInfo catalog t.

Definition rank (t : PCSResourceType) : Z := orderInGroup (infoOf t).

Definition ensureSingleLine (value label : string) : M W string :=
  if RegExp.test RegExp.lineBreak value
  then errAsync (ProcessError (label +:+ " must be a single line."))
  else ret value.

(** The two nested loops over instance attributes and their pairs: the
    value of the first pair named [action]. *)
Fixpoint firstActionOfPairs (pairs : list NvPair) : option string :=
  match pairs with
  | [] => None
  | nvpair :: rest =>
      if String.eqb (nvName nvpair) "action" then Some (nvValue nvpair)
      else firstActionOfPairs rest
  end.

Fixpoint firstAction (attributes : list InstanceAttributes) : option string :=
  match attributes with
  | [] => None
  | attribute :: rest =>
      match firstActionOfPairs (nvpairs attribute) with
      | Some v => Some v
      | None => firstAction rest
      end
  end.

Fixpoint classifyFrom (types : list PCSResourceType) (resource : PCSResourceConfigJson)
    : option PCSResourceType :=
  match types with
  | [] => None
  | type :: rest =>
      let info := infoOf type in
      if String.eqb (internalTypeName info) (agent_name_type resource) then
        if String.eqb (internalTypeName info) "portblock" then
          match firstAction (instance_attributes resource) with
          | Some value =>
              Some (if String.eqb value "block"
                    then PORTBLOCK_ON catalog else PORTBLOCK_OFF catalog)
          | None => classifyFrom rest resource
          end
        else Some type
      else classifyFrom rest resource
  end.

Definition getResourceTypeOfPCSResource (resource : PCSResourceConfigJson)
    : option PCSResourceType :=
  classifyFrom (enumValues catalog) resource.

(** The [map] callback of [fetchResources] for one primitive. *)
Definition resourceOfPrimitive (groups : list GroupJson) (resource : PCSResourceConfigJson)
    : option PCSResource :=
  match getResourceTypeOfPCSResource resource with
  | None => None
  | Some O => None   (* [!resourceType] also holds for the member 0 *)
  | Some resourceType =>
      let group :=
        List.find (fun g => existsb (String.eqb (id resource)) (member_ids g)) groups in
      let groupObject :=
        match group with
        | Some g => Some {| groupName := groupId g |}
        | None => None
        end in
      if negb (Nat.eqb resourceType (TARGET catalog)) || bool_decide (is_Some groupObject)
      then Some {| name := id resource; resourceType := resourceType;
                   resourceGroup := groupObject |}
      else None
  end.

Definition bulkQuery : Command :=
  Cmd ["pcs"; "resource"; "config"; "--output-format"; "json"] defaultOptions.

Definition fetchResources : M W (list loc) :=
  cached <- getCache ;;
  match cached with
  | Some resources => ret resources
  | None =>
      cfg <- mapErr
               (fun err => ProcessError
                  ("Unable to get current PCS configuration: " +:+ errToString err))
               (proc <- execute server bulkQuery true ;;
                liftResult (safeJsonParse (getStdout proc))) ;;
      let primitives := default [] (primitives cfg) in
      let groups := default [] (groups cfg) in
      resources <- allocAll (omap (resourceOfPrimitive groups) primitives) ;;
      setCache (Some resources) ;;;
      ret resources
  end.

Definition fetchResourceByName (resourceName : string) : M W (option loc) :=
  resources <- fetchResources ;;
  objs <- loadAll resources ;;
  ret (fst <$> List.find (fun x => String.eqb (name (snd x)) resourceName)
                 (combine resources objs)).

(** *** Lifecycle *)

Definition createResource (name0 creationArguments : string) (type : PCSResourceType)
    (server0 : Server W) : M W loc :=
  let resourceName := Js.replace ":" "_" name0 in
  let creationCommand :=
    BashCommand ("pcs resource create '" +:+ resourceName +:+ "' " +:+ creationArguments)
                [] commandOptionsWrite in
  ensureSingleLine creationArguments "PCS creation arguments" ;;;
  execute server0 creationCommand true ;;;
  resource <- alloc {| name := resourceName; resourceType := type; resourceGroup := None |} ;;
  cached <- getCache ;;
  match cached with
  | None => throw TypeErrorOnUndefined
  | Some resources => setCache (Some (resources ++ [resource])) ;;; ret resource
  end.

(** [this.currentResources!.filter(keep)] *)
Definition filterCache (keep : PCSResource -> bool) : M W unit :=
  cached <- getCache ;;
  match cached with
  | None => throw TypeErrorOnUndefined
  | Some resources =>
      objs <- loadAll resources ;;
      setCache (Some (fst <$> List.filter (fun x => keep (snd x)) (combine resources objs)))
  end.

Definition deleteResource (resourceName : string) : M W unit :=
  execute server (Cmd ["pcs"; "resource"; "delete"; resourceName] commandOptionsWrite) true ;;;
  filterCache (fun existingResource => negb (String.eqb (name existingResource) resourceName)).

Definition disableResource (resourceName : string) : M W unit :=
  execute server (Cmd ["pcs"; "resource"; "disable"; resourceName] commandOptionsWrite) true ;;;
  ret tt.

Definition deleteResourceGroup (resourceGroupName : string) : M W unit :=
  execute server (Cmd ["pcs"; "resource"; "delete"; resourceGroupName] commandOptionsWrite) true ;;;
  filterCache (fun existingResource => negb (inGroup resourceGroupName existingResource)).

Definition updateResource (resource : loc) (parameters : string) : M W unit :=
  r <- load resource ;;
  ensureSingleLine parameters "PCS update parameters" ;;;
  execute server
    (BashCommand ("pcs resource update '" +:+ name r +:+ "' " +:+ parameters)
                 [] commandOptionsWrite) true ;;;
  ret tt.

Definition removeResourceFromGroup (resourceGroupName resource : string) : M W unit :=
  execute server
    (Cmd ["pcs"; "resource"; "ungroup"; resourceGroupName; resource] commandOptionsWrite)
    true ;;;
  ret tt.

(** *** Active node of a group *)

Definition locate (rid : string) : M W (option string) :=
  mapErr
    (fun e => ProcessError ("Failed to locate " +:+ rid +:+ ": " +:+ errToString e))
    (p <- execute server (Cmd ["crm_resource"; "--locate"; "--resource"; rid] defaultOptions)
            false ;;
     ret match RegExp.exec RegExp.runningOn (getStdout p) with
         | Some (m1, _) => m1
         | None => None
         end).

Definition parseGroupFromStatusText (text groupId : string) : option string :=
  match RegExp.exec (RegExp.groupHeader groupId) text with
  | None => None
  | Some (_, tail) =>
      match RegExp.exec RegExp.startedLine tail with
      | Some (m2, _) => m2
      | None => None
      end
  end.

(** The per-member loop: one location query per member, in order. *)
Fixpoint locateMembers (members : list PCSResource) (perMember : list PerMember.t)
    (nodeCounts : NodeCounts.t) : M W (list PerMember.t * NodeCounts.t) :=
  match members with
  | [] => ret (perMember, nodeCounts)
  | r :: rest =>
      node <- locate (name r) ;;
      let perMember' := perMember ++ [{| PerMember.id := name r; PerMember.node := node |}] in
      let nodeCounts' :=
        if Js.truthy node
        then NodeCounts.set nodeCounts (default EmptyString node)
               (default 0%Z (NodeCounts.get nodeCounts (default EmptyString node)) + 1)%Z
        else nodeCounts in
      locateMembers rest perMember' nodeCounts'
  end.

(** [if (!chosen) { const v = ...; if (v) chosen = v; }] *)
Definition orElse (chosen candidate : option string) : option string :=
  if Js.truthy chosen then chosen
  else if Js.truthy candidate then candidate else chosen.

Definition distinctNodes (perMember : list PerMember.t) : list string :=
  NodeSet.ofList (omap (fun x => if Js.truthy (PerMember.node x) then PerMember.node x else None)
                       perMember).

Definition unanimous (perMember : list PerMember.t) : option string :=
  let distinct := distinctNodes perMember in
  if Nat.eqb (length distinct) 1 then head distinct else None.

(** [perMember.find(x => x.id.includes(marker) && x.node)?.node] *)
Definition preferred (marker : string) (perMember : list PerMember.t) : option string :=
  match List.find (fun x => Js.includes (PerMember.id x) marker && Js.truthy (PerMember.node x))
                  perMember with
  | Some x => PerMember.node x
  | None => None
  end.

Definition majority (nodeCounts : NodeCounts.t) : string :=
  fst (fold_left
         (fun best nc => if (snd best <? snd nc)%Z then nc else best)
         nodeCounts (EmptyString, (-1)%Z)).

Definition chooseFromMembers (perMember : list PerMember.t) (nodeCounts : NodeCounts.t)
    : option string :=
  let chosen := unanimous perMember in
  let chosen := orElse chosen (preferred "_VIP_" perMember) in
  let chosen := orElse chosen (preferred "_TARGET_" perMember) in
  if negb (Js.truthy chosen) && Nat.ltb 0 (length nodeCounts)
  then Some (majority nodeCounts) else chosen.

Definition inactiveDiagnostic (members : list PCSResource) (perMember : list PerMember.t)
    : string :=
  "members=[" +:+ Js.join ", " (List.map name members) +:+ "];"
  +:+ " perMember=["
  +:+ Js.join ", "
        (List.map (fun x => PerMember.id x +:+ "->"
                            +:+ default "NOT RUNNING" (PerMember.node x)) perMember)
  +:+ "]".

Definition getGroupActiveNode (group : PCSResourceGroup) : M W string :=
  refs <- fetchResources ;;
  resources <- loadAll refs ;;
  let groups :=
    NodeSet.ofList
      (omap (fun r => match resourceGroup r with
                      | Some g => if Js.truthy (Some (groupName g))
                                  then Some (groupName g) else None
                      | None => None
                      end) resources) in
  if negb (NodeSet.has groups (groupName group)) then
    throw (Raised (ProcessError
      ("Group " +:+ dquote +:+ groupName group +:+ dquote +:+ " not found in PCS configuration.")))
  else
  let members := List.filter (inGroup (groupName group)) resources in
  if Nat.eqb (length members) 0 then
    throw (Raised (ProcessError
      ("Group " +:+ dquote +:+ groupName group +:+ dquote +:+ " has no members.")))
  else
  located <- locateMembers members [] [] ;;
  let '(perMember, nodeCounts) := located in
  let chosen := chooseFromMembers perMember nodeCounts in
  chosen <- (if negb (Js.truthy chosen) then
               statusText <- mapErr
                  (fun e => ProcessError ("Failed to query pcs status: " +:+ errToString e))
                  (p <- execute server (Cmd ["pcs"; "status"] defaultOptions) true ;;
                   ret (getStdout p)) ;;
               ret (orElse chosen
                      (parseGroupFromStatusText statusText (groupName group)))
             else ret chosen) ;;
  if negb (Js.truthy chosen) then
    throw (Raised (ProcessError
      ("Group " +:+ dquote +:+ groupName group +:+ dquote
       +:+ " appears inactive (no started members). "
       +:+ inactiveDiagnostic members perMember)))
  else ret (default EmptyString chosen).

(** *** Anchors of a group *)

Record Anchors : Type := { targetPrimitiveId : string; portBlockOffId : string }.

(** [new Map(members.map(r => [r.name, r]))]: a later entry replaces an
    earlier one with the same key. *)
Definition byIdOf (members : list PCSResource) : gmap string PCSResource :=
  fold_left (fun m r => <[name r := r]> m) members ∅.

(** The loop over [grp.member_ids], with its early exit. *)
Fixpoint anchorLoop (byId : gmap string PCSResource) (rids : list string)
    (targetId portBlockOffId : option string) : option string * option string :=
  match rids with
  | [] => (targetId, portBlockOffId)
  | rid :: rest =>
      match byId !! rid with
      | None => anchorLoop byId rest targetId portBlockOffId
      | Some r =>
          let targetId' :=
            if negb (Js.truthy targetId) && Nat.eqb (resourceType r) (TARGET catalog)
            then Some (name r) else targetId in
          let portBlockOffId' :=
            if negb (Js.truthy portBlockOffId)
               && Nat.eqb (resourceType r) (PORTBLOCK_OFF catalog)
            then Some (name r) else portBlockOffId in
          if Js.truthy targetId' && Js.truthy portBlockOffId'
          then (targetId', portBlockOffId')
          else anchorLoop byId rest targetId' portBlockOffId'
      end
  end.

Definition noTargetMessage (g : string) : string :=
  "No TARGET primitive found in group '" +:+ g +:+ "'.".

Definition noPortBlockOffMessage (g : string) : string :=
  "No PORTBLOCK_OFF primitive found in group '" +:+ g +:+ "'.".

Definition getAnchorsForGroup (group : PCSResourceGroup) : M W Anchors :=
  refs <- fetchResources ;;
  resources <- loadAll refs ;;
  let members := List.filter (inGroup (groupName group)) resources in
  if Nat.eqb (length members) 0 then
    throw (Raised (ProcessError
      ("Group '" +:+ groupName group +:+ "' not found or has no members.")))
  else
  cfg <- mapErr
           (fun e => ProcessError ("Unable to get PCS configuration: " +:+ errToString e))
           (p <- execute server bulkQuery true ;;
            liftResult (safeJsonParse (getStdout p))) ;;
  match List.find (fun g => String.eqb (groupId g) (groupName group))
                  (default [] (groups cfg)) with
  | None =>
      throw (Raised (ProcessError
        ("Group '" +:+ groupName group +:+ "' not found in PCS configuration.")))
  | Some grp =>
      let byId := byIdOf members in
      let '(targetId, portBlockOffId) := anchorLoop byId (member_ids grp) None None in
      if negb (Js.truthy targetId) then
        throw (Raised (ProcessError (noTargetMessage (groupName group))))
      else if negb (Js.truthy portBlockOffId) then
        throw (Raised (ProcessError (noPortBlockOffMessage (groupName group))))
      else ret {| targetPrimitiveId := default EmptyString targetId;
                  portBlockOffId := default EmptyString portBlockOffId |}
  end.

(** *** Group composition *)

(** [Array.prototype.sort] with the comparator [key r1 - key r2]: a stable
    sort by [key]. *)
Fixpoint insertBy {A} (key : A -> Z) (x : A) (l : list A) : list A :=
  match l with
  | [] => [x]
  | y :: l' => if (key x <=? key y)%Z then x :: y :: l' else y :: insertBy key x l'
  end.

Definition sortBy {A} (key : A -> Z) (l : list A) : list A :=
  fold_right (insertBy key) [] l.

(** The member the new resource is placed before, if any. *)
Definition nextResourceOf (currentResourceIndex : Z) (g : string)
    (resources : list PCSResource) : option PCSResource :=
  List.find (fun groupResource => (currentResourceIndex <=? rank (resourceType groupResource))%Z)
            (sortBy (fun r => rank (resourceType r))
                    (List.filter (inGroup g) resources)).

Definition addResourceToGroup (resource : loc) (group : PCSResourceGroup) : M W unit :=
  r <- load resource ;;
  let currentResourceIndex := rank (resourceType r) in
  refs <- fetchResources ;;
  resources <- loadAll refs ;;
  let nextResource := nextResourceOf currentResourceIndex (groupName group) resources in
  let positionArgument :=
    match nextResource with
    | Some next => ["--before"; name next]
    | None => []
    end in
  setResourceGroup resource group ;;;
  execute server
    (Cmd (["pcs"; "resource"; "group"; "add"; groupName group]
          ++ positionArgument ++ [name r]) commandOptionsWrite) true ;;;
  ret tt.

End PCSResourceManager.

(** ** Vocabulary of the properties *)

(** The command [createResource] builds. *)
Definition createCommand (resourceName creationArguments : string) : Command :=
  BashCommand ("pcs resource create '" +:+ resourceName +:+ "' " +:+ creationArguments)
              [] commandOptionsWrite.

(** The command of [deleteResource] and [deleteResourceGroup]. *)
Definition deleteCommand (target : string) : Command :=
  Cmd ["pcs"; "resource"; "delete"; target] commandOptionsWrite.

(** The state after [command] was executed and answered with world [w]. *)
Definition afterCommand {W} (st : State W) (command : Command) (w : W) : State W :=
  {| world := w; issued := issued st ++ [command];
     store := store st; currentResources := currentResources st |}.

(** The resources a configuration describes, as [fetchResources] builds
    them. *)
Definition resourcesOfConfig (catalog : Catalog) (cfg : PCSConfigJson) : list PCSResource :=
  omap (resourceOfPrimitive catalog (default [] (groups cfg))) (default [] (primitives cfg)).

(** Ascending order of keys. *)
Definition byKey {A} (key : A -> Z) (a b : A) : Prop := (key a <= key b)%Z.

(** The first member of rank at least [k] after the sort, read off the
    unsorted list: a member of least rank among those of rank at least [k],
    the earliest one of that rank. *)
Fixpoint pick {A} (key : A -> Z) (k : Z) (l : list A) : option A :=
  match l with
  | [] => None
  | x :: l' =>
      if (k <=? key x)%Z then
        match pick key k l' with
        | Some m => if (key x <=? key m)%Z then Some x else Some m
        | None => Some x
        end
      else pick key k l'
  end.

(** The command [addResourceToGroup] builds. *)
Definition groupAddCommand (g : string) (positionArgument : list string)
    (resourceName : string) : Command :=
  Cmd (["pcs"; "resource"; "group"; "add"; g] ++ positionArgument ++ [resourceName])
      commandOptionsWrite.

(** The positional argument that places a resource before [next]. *)
Definition positionOf (next : option PCSResource) : list string :=
  match next with
  | Some m => ["--before"; name m]
  | None => []
  end.

(** The objects the references of a snapshot denote. *)
Definition objectsOf {W} (st : State W) (refs : list loc) : list PCSResource :=
  List.map (fun l => store st !!! l) refs.

(** The state in which the object at [l] refers to group [g]. *)
Definition withGroup {W} (st : State W) (l : loc) (g : PCSResourceGroup) : State W :=
  {| world := world st; issued := issued st;
     store := <[l := {| name := name (store st !!! l);
                        resourceType := resourceType (store st !!! l);
                        resourceGroup := Some g |}]> (store st);
     currentResources := currentResources st |}.

(** The id [rid] resolves, through the map of group members, to a
    resource of type [ty]. *)
Definition resolvesTo (byId : gmap string PCSResource) (ty : PCSResourceType)
    (rid : string) : bool :=
  match byId !! rid with
  | Some r => Nat.eqb (resourceType r) ty
  | None => false
  end.

(** The first id of [rids] that resolves to type [ty]. *)
Definition firstOfType (byId : gmap string PCSResource) (ty : PCSResourceType)
    (rids : list string) : option string :=
  List.find (resolvesTo byId ty) rids.

(** [a], or [b] when [a] is unset. *)
Definition orFirst (a b : option string) : option string :=
  match a with
  | Some _ => a
  | None => b
  end.

(** The command of a location query. *)
Definition locateCommand (rid : string) : Command :=
  Cmd ["crm_resource"; "--locate"; "--resource"; rid] defaultOptions.

(** The tally update of one report, as in the per-member loop. *)
Definition countNode (nodeCounts : NodeCounts.t) (node : option string) : NodeCounts.t :=
  if Js.truthy node
  then NodeCounts.set nodeCounts (default EmptyString node)
         (default 0%Z (NodeCounts.get nodeCounts (default EmptyString node)) + 1)%Z
  else nodeCounts.

Definition tally (perMember : list PerMember.t) (nodeCounts : NodeCounts.t) : NodeCounts.t :=
  fold_left (fun nc x => countNode nc (PerMember.node x)) perMember nodeCounts.

(** How many members reported node [n]. *)
Definition reports (perMember : list PerMember.t) (n : string) : Z :=
  Z.of_nat (length (List.filter (fun x => bool_decide (PerMember.node x = Some n)) perMember)).

(** A report is no node or a non-empty node name. *)
Definition wellFormedReport (x : PerMember.t) : Prop :=
  PerMember.node x = None \/ exists g, PerMember.node x = Some g /\ g <> EmptyString.

(** The member's identifier carries [marker] and the member reported. *)
Definition reporterWith (marker : string) (x : PerMember.t) : bool :=
  Js.includes (PerMember.id x) marker && Js.truthy (PerMember.node x).

(** The command of the status query. *)
Definition statusCommand : Command := Cmd ["pcs"; "status"] defaultOptions.

(** The message of the failure raised when no strategy found a node. *)
Definition inactiveMessage (g : string) (memberNames perMemberItems : list string) : string :=
  "Group " +:+ dquote +:+ g +:+ dquote +:+ " appears inactive (no started members). "
  +:+ "members=[" +:+ Js.join ", " memberNames +:+ "];"
  +:+ " perMember=[" +:+ Js.join ", " perMemberItems +:+ "]".

(** The rank of a resource: the [orderInGroup] of its type. *)
Definition memberRank (catalog : Catalog) (r : PCSResource) : Z :=
  rank catalog (resourceType r).

(** ** Sample data

    A catalog, servers and snapshots on which the manager is evaluated. *)

Module Sample.

(** Modelled from the spec: the enumeration has TARGET, PORTBLOCK_ON,
    PORTBLOCK_OFF and VIP among its members, the two port-block kinds share
    the agent [portblock], and every member has a rank. Its declaration is
    not among the source files: the other members, the agent names and the
    ranks below are sample values. *)
Definition catalog : Catalog :=
  {| enumValues := [0; 1; 2; 3; 4; 5];
     PCSResourceTypeInfo := fun t =>
       match t with
       | 0 => {| internalTypeName := "portblock"; orderInGroup := 0 |}
       | 1 => {| internalTypeName := "IPaddr2"; orderInGroup := 1 |}
       | 2 => {| internalTypeName := "LVM-activate"; orderInGroup := 2 |}
       | 3 => {| internalTypeName := "iSCSITarget"; orderInGroup := 3 |}
       | 4 => {| internalTypeName := "iSCSILogicalUnit"; orderInGroup := 4 |}
       | _ => {| internalTypeName := "portblock"; orderInGroup := 5 |}
       end;
     TARGET := 3;
     PORTBLOCK_ON := 0;
     PORTBLOCK_OFF := 5 |}.

(** A server that answers every command by a function of the command and
    never changes. *)
Definition scripted (answer : Command -> Result Process JsError) : Server unit :=
  {| run := fun command _ w => (answer command, w) |}.

Definition stdout (text : string) : Result Process JsError :=
  ROk {| getStdout := text; exitStatus := 0 |}.

Definition failure : Result Process JsError :=
  RErr (ProcessError "pcs: command failed").

Definition succeeding : Server unit := scripted (fun _ => stdout EmptyString).

Definition failing : Server unit := scripted (fun _ => failure).

(** A manager state over the unit world. *)
Definition state (objects : list PCSResource) (cache : option (list loc)) : State unit :=
  {| world := tt; issued := []; store := objects; currentResources := cache |}.

Definition fresh : State unit := state [] None.

Definition g1 : PCSResourceGroup := {| groupName := "g1" |}.

Definition member (n : string) (t : PCSResourceType) : PCSResource :=
  {| name := n; resourceType := t; resourceGroup := Some g1 |}.

(** A JSON rendering of a configuration and the parser that reads these
    renderings back. *)
Definition quoted (s : string) : string := dquote +:+ s +:+ dquote.

Definition array (items : list string) : string := "[" +:+ Js.join "," items +:+ "]".

Definition renderPair (p : NvPair) : string :=
  "{" +:+ quoted "id" +:+ ":" +:+ quoted (nvId p) +:+ ","
  +:+ quoted "name" +:+ ":" +:+ quoted (nvName p) +:+ ","
  +:+ quoted "value" +:+ ":" +:+ quoted (nvValue p) +:+ "}".

Definition renderPrimitive (r : PCSResourceConfigJson) : string :=
  "{" +:+ quoted "id" +:+ ":" +:+ quoted (id r) +:+ ","
  +:+ quoted "agent_name" +:+ ":{" +:+ quoted "type" +:+ ":"
  +:+ quoted (agent_name_type r) +:+ "},"
  +:+ quoted "instance_attributes" +:+ ":"
  +:+ array (List.map (fun a => "{" +:+ quoted "nvpairs" +:+ ":"
                                 +:+ array (List.map renderPair (nvpairs a)) +:+ "}")
                      (instance_attributes r))
  +:+ "}".

Definition renderGroup (g : GroupJson) : string :=
  "{" +:+ quoted "id" +:+ ":" +:+ quoted (groupId g) +:+ ","
  +:+ quoted "member_ids" +:+ ":" +:+ array (List.map quoted (member_ids g)) +:+ "}".

Definition render (cfg : PCSConfigJson) : string :=
  "{" +:+ quoted "primitives" +:+ ":"
  +:+ array (List.map renderPrimitive (default [] (primitives cfg))) +:+ ","
  +:+ quoted "groups" +:+ ":"
  +:+ array (List.map renderGroup (default [] (groups cfg))) +:+ "}".

Definition parseAmong (documents : list PCSConfigJson) (text : string)
    : Result PCSConfigJson JsError :=
  match List.find (fun cfg => String.eqb (render cfg) text) documents with
  | Some cfg => ROk cfg
  | None => RErr (mkError "SyntaxError" "Unexpected token in JSON")
  end.

Definition primitive (n agent : string) (pairs : list (string * string))
    : PCSResourceConfigJson :=
  {| id := n; agent_name_type := agent;
     instance_attributes :=
       [{| nvpairs := List.map (fun kv => {| nvId := n +:+ "-" +:+ fst kv;
                                              nvName := fst kv; nvValue := snd kv |})
                               pairs |}] |}.

(** One group [g1] holding a virtual IP, a target, a logical unit and the
    unblocking port block. *)
Definition config : PCSConfigJson :=
  {| primitives := Some
       [primitive "iscsi_VIP_g1" "IPaddr2" [("ip", "10.0.0.9")];
        primitive "iscsi_TARGET_g1" "iSCSITarget" [("iqn", "iqn.2024-01.com.example:g1")];
        primitive "iscsi_LUN_g1" "iSCSILogicalUnit" [("lun", "0")];
        primitive "iscsi_PBOFF_g1" "portblock" [("ip", "10.0.0.9"); ("action", "unblock")]];
     groups := Some
       [{| groupId := "g1";
           member_ids := ["iscsi_VIP_g1"; "iscsi_TARGET_g1"; "iscsi_LUN_g1";
                          "iscsi_PBOFF_g1"] |}] |}.

Definition parse : string -> Result PCSConfigJson JsError := parseAmong [config].

Definition newline : string := String "010"%char EmptyString.

(** A cluster: the bulk query answers with [cfg], a location query with
    the node [where_] gives, the status query with [status]. *)
Definition cluster (cfg : PCSConfigJson) (where_ : string -> option string)
    (status : string) : Server unit :=
  scripted (fun command =>
    match command with
    | Cmd ["pcs"; "resource"; "config"; "--output-format"; "json"] _ =>
        stdout (render cfg)
    | Cmd ["crm_resource"; "--locate"; "--resource"; rid] _ =>
        match where_ rid with
        | Some node_ => stdout ("resource " +:+ rid +:+ " is running on: " +:+ node_
                                +:+ newline)
        | None => stdout ("resource " +:+ rid +:+ " is NOT running" +:+ newline)
        end
    | Cmd ["pcs"; "status"] _ => stdout status
    | _ => stdout EmptyString
    end).

(** A snapshot with members of ranks 1, 2 and 4 in [g1] and a target that
    is not grouped yet. *)
Definition ranked : State unit :=
  state [member "iscsi_VIP_g1" 1; member "iscsi_LVM_g1" 2; member "iscsi_LUN_g1" 4;
         {| name := "iscsi_TARGET_g1"; resourceType := 3; resourceGroup := None |}]
        (Some [0; 1; 2; 3]).

(** A status text that shows another group only. *)
Definition otherStatus : string :=
  "Full List of Resources:
  * Resource Group: g2:
    * iscsi_VIP_g2 (ocf:heartbeat:IPaddr2): Started node9
".

(** The sample cluster with nothing of [g1] running. *)
Definition idle : Server unit := cluster config (fun _ => None) otherStatus.

(** The sample cluster with the virtual IP on [nodeB] and every other
    member on [nodeA]. *)
Definition split : Server unit :=
  cluster config
    (fun rid => if Js.includes rid "_VIP_" then Some "nodeB" else Some "nodeA")
    otherStatus.

(** The answer of the sample cluster to the bulk query. *)
Definition configProcess : Process := {| getStdout := render config; exitStatus := 0 |}.

(** The reports of the members on the [split] cluster. *)
Definition splitReports : list PerMember.t :=
  [{| PerMember.id := "iscsi_VIP_g1"; PerMember.node := Some "nodeB" |};
   {| PerMember.id := "iscsi_TARGET_g1"; PerMember.node := Some "nodeA" |};
   {| PerMember.id := "iscsi_LUN_g1"; PerMember.node := Some "nodeA" |};
   {| PerMember.id := "iscsi_PBOFF_g1"; PerMember.node := Some "nodeA" |}].

(** The status text of the specification's example. *)
Definition statusOfG1 : string :=
  "  * Resource Group: g1:
    * rbd_g1 (ocf:ceph:rbd): Started node3
".

(** Members without a role marker in their names. *)
Definition report (n : string) (where_ : option string) : PerMember.t :=
  {| PerMember.id := n; PerMember.node := where_ |}.

End Sample.

(** * The rest of the manager *)

(** [Map<string, string | undefined>]: keys in insertion order. *)
Module ValueMap.

Definition t : Type := list (string * option string).

Fixpoint get (m : t) (k : string) : option (option string) :=
  match m with
  | [] => None
  | (k', v) :: rest => if String.eqb k' k then Some v else get rest k
  end.

Fixpoint set (m : t) (k : string) (v : option string) : t :=
  match m with
  | [] => [(k, v)]
  | (k', v') :: rest => if String.eqb k' k then (k', v) :: rest else (k', v') :: set rest k v
  end.

End ValueMap.

Section PCSResourceManagerQueries.

Context {W : Type}.
Context (safeJsonParse : string -> Result PCSConfigJson JsError).
Context (server : Server W).

Definition constrainResourceToGroup (resource : loc) (group : PCSResourceGroup)
    (server0 : Server W) : M W unit :=
  r <- load resource ;;
  execute server0
    (Cmd ["pcs"; "constraint"; "colocation"; "add"; name r; "with"; groupName group]
         commandOptionsWrite) true ;;;
  ret tt.

Definition unconstainResourceFromGroup (resourceName resourceGroupName : string) : M W unit :=
  execute server
    (Cmd ["pcs"; "constraint"; "remove";
          "colocation-RBD_" +:+ resourceName +:+ "-" +:+ resourceGroupName +:+ "-INFINITY"]
         commandOptionsWrite) true ;;;
  ret tt.

Definition enableResources (resourceName : string) : M W unit :=
  execute server (Cmd ["pcs"; "resource"; "enable"; resourceName] commandOptionsWrite) true ;;;
  ret tt.

Definition orderResourceBeforeGroup (resource : loc) (group : PCSResourceGroup) : M W unit :=
  r <- load resource ;;
  execute server
    (Cmd ["pcs"; "constraint"; "order"; "start"; name r; "then"; groupName group]
         commandOptionsWrite) true ;;;
  ret tt.

Definition removeResourcefromOrderGroup (resourceName resourceGroupName : string)
    : M W unit :=
  execute server
    (Cmd ["pcs"; "constraint"; "remove";
          "order-RBD_" +:+ resourceName +:+ "-" +:+ resourceGroupName +:+ "-mandatory"]
         commandOptionsWrite) true ;;;
  ret tt.

Definition fetchResourceConfig (resourceName : string) : M W PCSConfigJson :=
  process <- execute server
    (Cmd ["pcs"; "resource"; "config"; "--output-format"; "json"; resourceName]
         defaultOptions) true ;;
  liftResult (safeJsonParse (getStdout process)).

(** [cfg.primitives![0]!.instance_attributes![0]!.nvpairs]: the
    assertions check nothing, a missing level is a type error. *)
Definition firstPairs (cfg : PCSConfigJson) : option (list NvPair) :=
  match primitives cfg with
  | Some (primitive :: _) =>
      match instance_attributes primitive with
      | attribute :: _ => Some (nvpairs attribute)
      | [] => None
      end
  | _ => None
  end.

(** [nvpairs.find(pair => pair.name === pairName)?.value] *)
Definition valueOfPair (pairs : list NvPair) (pairName : string) : option string :=
  nvValue <$> List.find (fun pair => String.eqb (nvName pair) pairName) pairs.

Definition fetchResourceInstanceAttributeValue (resourceName nvPairName : string)
    : M W (option string) :=
  cfg <- fetchResourceConfig resourceName ;;
  match firstPairs cfg with
  | Some pairs => ret (valueOfPair pairs nvPairName)
  | None => throw TypeErrorOnUndefined
  end.

(** The loop over the requested names. *)
Fixpoint collectValues (cfg : PCSConfigJson) (nvPairName : list string)
    (pairResults : ValueMap.t) : M W ValueMap.t :=
  match nvPairName with
  | [] => ret pairResults
  | pairName :: rest =>
      match firstPairs cfg with
      | Some pairs =>
          collectValues cfg rest (ValueMap.set pairResults pairName (valueOfPair pairs pairName))
      | None => throw TypeErrorOnUndefined
      end
  end.

Definition fetchResourceInstanceAttributeValues (resourceName : string)
    (nvPairName : list string) : M W ValueMap.t :=
  cfg <- fetchResourceConfig resourceName ;;
  collectValues cfg nvPairName [].

End PCSResourceManagerQueries.

(** ** Vocabulary of the further properties *)

(** The failure [fetchResources] reports for the cause [e]. *)
Definition fetchFailure (e : JsError) : JsError :=
  ProcessError ("Unable to get current PCS configuration: " +:+ errToString e).

(** What the snapshot guarantees of a resource built from configuration
    [cfg]. *)
Definition snapshotEntry (catalog : Catalog) (cfg : PCSConfigJson) (r : PCSResource) : Prop :=
  resourceType r <> 0
  /\ (exists primitive,
        In primitive (default [] (primitives cfg))
        /\ id primitive = name r
        /\ getResourceTypeOfPCSResource catalog primitive = Some (resourceType r))
  /\ (resourceType r = TARGET catalog -> exists g, resourceGroup r = Some g)
  /\ (forall g, resourceGroup r = Some g ->
        exists grp, In grp (default [] (groups cfg))
                    /\ groupId grp = groupName g /\ In (name r) (member_ids grp)).

(** A token: not empty and free of whitespace. *)
Definition isToken (s : string) : Prop :=
  s <> EmptyString
  /\ Forall (fun c => RegExp.notSpace c = true) (list_ascii_of_string s).

(** The failure [locate] reports for the cause [e]. *)
Definition locateFailure (rid : string) (e : JsError) : JsError :=
  ProcessError ("Failed to locate " +:+ rid +:+ ": " +:+ errToString e).

(** The failure raised for a group the snapshot does not know. *)
Definition groupNotFound (g : string) : Exception :=
  Raised (ProcessError ("Group " +:+ dquote +:+ g +:+ dquote
                        +:+ " not found in PCS configuration.")).

(** An operation that never changes the store or the cache. *)
Definition keepsCache {W A} (m : M W A) : Prop :=
  forall st, store (snd (m st)) = store st
             /\ currentResources (snd (m st)) = currentResources st.

(** The failure [getAnchorsForGroup] reports for the cause [e]. *)
Definition anchorsFailure (e : JsError) : JsError :=
  ProcessError ("Unable to get PCS configuration: " +:+ errToString e).

(** The command of [fetchResourceConfig]. *)
Definition resourceConfigCommand (resourceName : string) : Command :=
  Cmd ["pcs"; "resource"; "config"; "--output-format"; "json"; resourceName] defaultOptions.

(** ** More sample data *)

Module Sample2.

(** The snapshot of the sample configuration, as read by [fetchResources]. *)
Definition populated : State unit :=
  snd (fetchResources Sample.catalog Sample.parse Sample.idle Sample.fresh).

(** The members of [g1] in that snapshot. *)
Definition members : list PCSResource :=
  List.filter (inGroup "g1") (objectsOf populated [0; 1; 2; 3]).

(** A cluster in which a location query may fail ([where_] gives no
    answer) and the status query may fail ([status] is absent). *)
Definition faulty (where_ : string -> option (option string)) (status : option string)
    : Server unit :=
  Sample.scripted (fun command =>
    match command with
    | Cmd ["crm_resource"; "--locate"; "--resource"; rid] _ =>
        match where_ rid with
        | Some (Some node_) =>
            Sample.stdout ("resource " +:+ rid +:+ " is running on: " +:+ node_
                           +:+ Sample.newline)
        | Some None => Sample.stdout ("resource " +:+ rid +:+ " is NOT running"
                                      +:+ Sample.newline)
        | None => Sample.failure
        end
    | Cmd ["pcs"; "status"] _ =>
        match status with
        | Some text => Sample.stdout text
        | None => Sample.failure
        end
    | _ => Sample.stdout EmptyString
    end).

(** Nothing runs; the status text shows [g1] on [node3]. *)
Definition stopped : Server unit := faulty (fun _ => Some None) (Some Sample.statusOfG1).

(** Nothing runs and the status query fails. *)
Definition statusDown : Server unit := faulty (fun _ => Some None) None.

(** The location query of the target fails. *)
Definition targetDown : Server unit :=
  faulty (fun rid => if Js.includes rid "_TARGET_" then None else Some (Some "nodeA"))
         (Some Sample.statusOfG1).

Definition silentReports : list PerMember.t :=
  [Sample.report "iscsi_VIP_g1" None; Sample.report "iscsi_TARGET_g1" None;
   Sample.report "iscsi_LUN_g1" None; Sample.report "iscsi_PBOFF_g1" None].

(** A configuration that lists another group only. *)
Definition otherConfig : PCSConfigJson :=
  {| primitives := Some [];
     groups := Some [{| groupId := "g2"; member_ids := ["iscsi_VIP_g2"] |}] |}.

(** The configuration of the virtual IP alone. *)
Definition vipConfig : PCSConfigJson :=
  {| primitives := Some
       [Sample.primitive "iscsi_VIP_g1" "IPaddr2"
          [("ip", "10.0.0.9"); ("cidr_netmask", "24")]];
     groups := Some [] |}.

Definition parse : string -> Result PCSConfigJson JsError :=
  Sample.parseAmong [Sample.config; otherConfig; vipConfig].

(** A server that answers every configuration query with [cfg]. *)
Definition describing (cfg : PCSConfigJson) : Server unit :=
  Sample.scripted (fun command =>
    match command with
    | Cmd ("pcs" :: "resource" :: "config" :: _) _ => Sample.stdout (Sample.render cfg)
    | _ => Sample.stdout EmptyString
    end).

(** The cluster after [g1] was removed behind the manager's back. *)
Definition regrouped : Server unit :=
  Sample.cluster otherConfig (fun _ => None) Sample.otherStatus.

(** A group with two virtual IPs and a logical unit; the second virtual
    IP runs on [nodeB], the other members on [nodeA]. *)
Definition twinConfig : PCSConfigJson :=
  {| primitives := Some
       [Sample.primitive "iscsi_VIP_1" "IPaddr2" [("ip", "10.0.0.9")];
        Sample.primitive "iscsi_VIP_2" "IPaddr2" [("ip", "10.0.0.10")];
        Sample.primitive "iscsi_LUN_1" "iSCSILogicalUnit" [("lun", "0")]];
     groups := Some
       [{| groupId := "g1";
           member_ids := ["iscsi_VIP_1"; "iscsi_VIP_2"; "iscsi_LUN_1"] |}] |}.

Definition parseTwins : string -> Result PCSConfigJson JsError :=
  Sample.parseAmong [twinConfig].

Definition twins : Server unit :=
  Sample.cluster twinConfig
    (fun rid => if String.eqb rid "iscsi_VIP_2" then Some "nodeB" else Some "nodeA")
    Sample.otherStatus.

Definition twinSnapshot : State unit :=
  snd (fetchResources Sample.catalog parseTwins twins Sample.fresh).

Definition twinMembers : list PCSResource :=
  List.filter (inGroup "g1") (objectsOf twinSnapshot [0; 1; 2]).

Definition twinReports : list PerMember.t :=
  [Sample.report "iscsi_VIP_1" (Some "nodeA"); Sample.report "iscsi_VIP_2" (Some "nodeB");
   Sample.report "iscsi_LUN_1" (Some "nodeA")].

(** A status text in which [g1] is stopped and the group listed after it
    runs on [node9]. *)
Definition mixedStatus : string :=
  "Full List of Resources:
  * Resource Group: g1:
    * iscsi_VIP_g1 (ocf:heartbeat:IPaddr2): Stopped
  * Resource Group: g2:
    * iscsi_VIP_g2 (ocf:heartbeat:IPaddr2): Started node9
".

(** Nothing of [g1] runs; the status text is [mixedStatus]. *)
Definition crossed : Server unit := faulty (fun _ => Some None) (Some mixedStatus).

End Sample2.

(** * Saving and loading the SCST configuration

    [ConfigurationManager], the first class of the source file, its
    path-validating revision, and the operations of the single-server
    driver that end by saving the configuration. Files are handled by the
    [File] class of the host library: an operation on a file is a
    transition of the server's world that settles with the file or with an
    error. *)

Module File.

(** [new File(server, path)] *)
Record t : Type := { path : string }.

(** [file.create(parents, options)] and [file.write(content, options)]. *)
Record Ops (W : Type) : Type :=
  { create : t -> bool -> CommandOptions -> W -> Result t JsError * W;
    write : t -> string -> CommandOptions -> W -> Result t JsError * W }.
Arguments create {W} _ _ _ _ _.
Arguments write {W} _ _ _ _ _.

End File.

(** A file operation as a step of the monad: the world advances, and the
    commands passed to [server.execute] are the ones issued before. *)
Definition fileOp {W A} (op : W -> Result A JsError * W) : M W A :=
  fun st =>
    let '(r, w) := op (world st) in
    let st' := {| world := w; issued := issued st;
                  store := store st; currentResources := currentResources st |} in
    match r with
    | ROk a => (Ok a, st')
    | RErr e => (Err e, st')
    end.

(** [r.map(f)] with a callback that returns a [ResultAsync]: the library
    awaits what the callback returns and wraps it in [Ok]; awaiting a
    [ResultAsync] yields its [Result], so a failure of the callback is the
    value of a success. *)
Definition mapAsync {W A B} (m : M W A) (f : A -> M W B) : M W (Result B JsError) :=
  fun st =>
    match m st with
    | (Ok a, st1) =>
        match f a st1 with
        | (Ok b, st2) => (Ok (ROk b), st2)
        | (Err e, st2) => (Ok (RErr e), st2)
        | (Threw x, st2) => (Threw x, st2)
        end
    | (Err e, st1) => (Err e, st1)
    | (Threw x, st1) => (Threw x, st1)
    end.

Module ResultAsync.

(** [ResultAsync.combine(list)] of settled results: the values in order,
    or the first error in list order. *)
Fixpoint combine {A} (results : list (Result A JsError)) : Result (list A) JsError :=
  match results with
  | [] => ROk []
  | RErr e :: _ => RErr e
  | ROk a :: rest =>
      match combine rest with
      | ROk values => ROk (a :: values)
      | RErr e => RErr e
      end
  end.

End ResultAsync.

Module JsString.

(** The pieces of [s] between occurrences of the code unit [sep], as
    [String.prototype.split] with a one-character separator returns them;
    [current] holds, reversed, the piece being read. *)
Fixpoint splitFrom (sep : ascii) (current : list ascii) (s : string) : list string :=
  match s with
  | EmptyString => [string_of_list_ascii (List.rev current)]
  | String c rest =>
      if Ascii.eqb c sep
      then string_of_list_ascii (List.rev current) :: splitFrom sep [] rest
      else splitFrom sep (c :: current) rest
  end.

Definition split (sep : ascii) (s : string) : list string := splitFrom sep [] s.

(** [array.slice(0, -1)] *)
Definition dropLast {A} (items : list A) : list A := List.removelast items.

End JsString.

(** The line feed and the NUL code unit. *)
Definition LF : string := String "010" EmptyString.
Definition NUL : ascii := "000"%char.

Module ConfigurationManager.

Section ConfigurationManager.

Context {W : Type}.

(** [userSettings.value.iscsi.confPath]: the settings promise always
    resolves, and the operations read the path from it. *)
Variable confPath : string.
Variable files : File.Ops W.
Variable server : Server W.

Definition exportConfiguration : M W string :=
  execute server
    (BashCommand ("scstadmin -write_config " +:+ confPath) [] commandOptionsWrite) true ;;;
  proc <- execute server (BashCommand ("cat " +:+ confPath) [] commandOptionsWrite) true ;;
  ret (getStdout proc).

Definition importConfiguration (newConfig : string) : M W (Result Process JsError) :=
  mapErr (fun _ => ProcessError "Config file syntax validation failed.")
    (mapAsync
       (file <- fileOp (File.create files {| File.path := confPath |} true
                          commandOptionsWrite) ;;
        fileOp (File.write files file newConfig commandOptionsWrite) ;;;
        execute server
          (BashCommand ("scstadmin -check_config " +:+ confPath) [] commandOptionsWrite)
          true)
       (fun _ =>
          execute server
            (BashCommand ("scstadmin -config " +:+ confPath +:+ " -force -noprompt") []
                         commandOptionsWrite) true)).

Definition saveCurrentConfiguration : M W File.t :=
  file <- fileOp (File.create files {| File.path := confPath |} true commandOptionsWrite) ;;
  mapAsync exportConfiguration
    (fun config => fileOp (File.write files file config commandOptionsWrite)) ;;;
  execute server (BashCommand "systemctl enable scst" [] commandOptionsWrite) true ;;;
  execute server (BashCommand ("scstadmin -config " +:+ confPath) [] commandOptionsWrite)
    true ;;;
  ret file.

End ConfigurationManager.

End ConfigurationManager.

(** The revision of [ConfigurationManager] that validates the configured
    path and passes it as one argument of the command. *)
Module ValidatedConfigurationManager.

Section ConfigurationManager.

Context {W : Type}.

Variable confPath : string.
(** [new Path(path).isAbsolute()] of the host library. *)
Variable isAbsolute : string -> bool.
Variable files : File.Ops W.
Variable server : Server W.

Definition ensureAbsolutePath (path label : string) : M W string :=
  if negb (isAbsolute path)
  then errAsync (ProcessError (label +:+ " must be an absolute path."))
  else if RegExp.test RegExp.lineBreak path
  then errAsync (ProcessError (label +:+ " must be a single line."))
  else ret path.

Definition exportConfiguration : M W string :=
  confPath <- ensureAbsolutePath confPath "iSCSI config path" ;;
  execute server (Cmd ["scstadmin"; "-write_config"; confPath] commandOptionsWrite) true ;;;
  proc <- execute server (Cmd ["cat"; confPath] commandOptionsWrite) true ;;
  ret (getStdout proc).

Definition importConfiguration (newConfig : string) : M W (Result Process JsError) :=
  confPath <- ensureAbsolutePath confPath "iSCSI config path" ;;
  mapErr (fun _ => ProcessError "Config file syntax validation failed.")
    (mapAsync
       (file <- fileOp (File.create files {| File.path := confPath |} true
                          commandOptionsWrite) ;;
        fileOp (File.write files file newConfig commandOptionsWrite) ;;;
        execute server (Cmd ["scstadmin"; "-check_config"; confPath] commandOptionsWrite)
          true)
       (fun _ =>
          execute server
            (Cmd ["scstadmin"; "-config"; confPath; "-force"; "-noprompt"]
                 commandOptionsWrite) true)).

Definition saveCurrentConfiguration : M W File.t :=
  confPath <- ensureAbsolutePath confPath "iSCSI config path" ;;
  file <- fileOp (File.create files {| File.path := confPath |} true commandOptionsWrite) ;;
  mapAsync exportConfiguration
    (fun config => fileOp (File.write files file config commandOptionsWrite)) ;;;
  execute server (Cmd ["systemctl"; "enable"; "scst"] commandOptionsWrite) true ;;;
  execute server (Cmd ["scstadmin"; "-config"; confPath] commandOptionsWrite) true ;;;
  ret file.

End ConfigurationManager.

End ValidatedConfigurationManager.

(** ** The single-server driver *)

Module ISCSIDriverSingleServer.

(** The objects the operations receive, with the fields they read. *)
Module Target.
Record t : Type := { name : string }.
End Target.

Module Portal.
Record t : Type := { address : string }.
End Portal.

Module InitiatorGroup.
Record t : Type := { name : string; devicePath : string }.
End InitiatorGroup.

Module Initiator.
Record t : Type := { name : string }.
End Initiator.

Section ISCSIDriverSingleServer.

Context {W : Type}.

Variable confPath : string.
Variable files : File.Ops W.
Variable server : Server W.

Definition targetManagementDirectory : string := "/sys/kernel/scst_tgt/targets/iscsi".

(** [/\s/] *)
Definition whitespace : list RegExp.item := [RegExp.Class RegExp.isSpace].

(** The validators return [errAsync] or [okAsync] of a value: results that
    are settled when they are created. *)
Definition ensureNoWhitespace (value label : string) : Result string JsError :=
  if RegExp.test whitespace value
  then RErr (ProcessError (label +:+ " must not contain whitespace."))
  else ROk value.

Definition writeScstMgmt (path content : string) : M W unit :=
  fileOp (File.write files {| File.path := path |} (content +:+ LF) commandOptionsWrite) ;;;
  ret tt.

Definition getTargetPath (target : Target.t) : string :=
  targetManagementDirectory +:+ "/" +:+ Target.name target.

(** [this.configurationManager.saveCurrentConfiguration()] *)
Definition saveCurrentConfiguration : M W File.t :=
  ConfigurationManager.saveCurrentConfiguration confPath files server.

Definition createTarget (target : Target.t) : M W unit :=
  liftResult (ensureNoWhitespace (Target.name target) "Target name") ;;;
  writeScstMgmt (targetManagementDirectory +:+ "/mgmt")
                ("add_target " +:+ Target.name target) ;;;
  writeScstMgmt (targetManagementDirectory +:+ "/enabled") "1" ;;;
  writeScstMgmt (targetManagementDirectory +:+ "/" +:+ Target.name target +:+ "/enabled")
                "1" ;;;
  saveCurrentConfiguration ;;;
  ret tt.

Definition removeTarget (target : Target.t) : M W unit :=
  liftResult (ensureNoWhitespace (Target.name target) "Target name") ;;;
  writeScstMgmt (targetManagementDirectory +:+ "/mgmt")
                ("del_target " +:+ Target.name target) ;;;
  saveCurrentConfiguration ;;;
  ret tt.

Definition addPortalToTarget (target : Target.t) (portal : Portal.t) : M W unit :=
  liftResult (ResultAsync.combine
                [ensureNoWhitespace (Target.name target) "Target name";
                 ensureNoWhitespace (Portal.address portal) "Portal address"]) ;;;
  writeScstMgmt (getTargetPath target +:+ "/../mgmt")
                ("add_target_attribute " +:+ Target.name target +:+ " allowed_portal="
                 +:+ Portal.address portal) ;;;
  saveCurrentConfiguration ;;;
  ret tt.

Definition deletePortalFromTarget (target : Target.t) (portal : Portal.t) : M W unit :=
  liftResult (ResultAsync.combine
                [ensureNoWhitespace (Target.name target) "Target name";
                 ensureNoWhitespace (Portal.address portal) "Portal address"]) ;;;
  writeScstMgmt (getTargetPath target +:+ "/../mgmt")
                ("del_target_attribute " +:+ Target.name target +:+ " allowed_portal="
                 +:+ Portal.address portal) ;;;
  saveCurrentConfiguration ;;;
  ret tt.

Definition addInitiatorGroupToTarget (target : Target.t) (initiatorGroup : InitiatorGroup.t)
    : M W unit :=
  liftResult (ResultAsync.combine
                [ensureNoWhitespace (Target.name target) "Target name";
                 ensureNoWhitespace (InitiatorGroup.name initiatorGroup)
                                    "Initiator group name"]) ;;;
  writeScstMgmt (getTargetPath target +:+ "/ini_groups/mgmt")
                ("create " +:+ InitiatorGroup.name initiatorGroup) ;;;
  saveCurrentConfiguration ;;;
  ret tt.

Definition deleteInitiatorGroupFromTarget (target : Target.t)
    (initiatorGroup : InitiatorGroup.t) : M W unit :=
  liftResult (ResultAsync.combine
                [ensureNoWhitespace (Target.name target) "Target name";
                 ensureNoWhitespace (InitiatorGroup.name initiatorGroup)
                                    "Initiator group name"]) ;;;
  writeScstMgmt (getTargetPath target +:+ "/ini_groups/mgmt")
                ("del " +:+ InitiatorGroup.name initiatorGroup) ;;;
  saveCurrentConfiguration ;;;
  ret tt.

Definition addInitiatorToGroup (initiatorGroup : InitiatorGroup.t) (initiator : Initiator.t)
    : M W unit :=
  liftResult (ResultAsync.combine
                [ensureNoWhitespace (InitiatorGroup.name initiatorGroup)
                                    "Initiator group name";
                 ensureNoWhitespace (Initiator.name initiator) "Initiator name"]) ;;;
  writeScstMgmt (InitiatorGroup.devicePath initiatorGroup +:+ "/initiators/mgmt")
                ("add " +:+ Initiator.name initiator) ;;;
  saveCurrentConfiguration ;;;
  ret tt.

Definition removeInitiatorFromGroup (initiatorGroup : InitiatorGroup.t)
    (initiator : Initiator.t) : M W unit :=
  liftResult (ResultAsync.combine
                [ensureNoWhitespace (InitiatorGroup.name initiatorGroup)
                                    "Initiator group name";
                 ensureNoWhitespace (Initiator.name initiator) "Initiator name"]) ;;;
  writeScstMgmt (InitiatorGroup.devicePath initiatorGroup +:+ "/initiators/mgmt")
                ("del " +:+ Initiator.name initiator) ;;;
  saveCurrentConfiguration ;;;
  ret tt.

(** [ignoredNames.includes(name)] *)
Definition includes (names : list string) (n : string) : bool :=
  existsb (String.eqb n) names.

(** Every listed name yields a settled [ok] of an initiator, so the
    combination is the list of them. *)
Definition getInitiatorsOfInitiatorGroup (initiatorGroup : InitiatorGroup.t)
    : M W (list Initiator.t) :=
  let ignoredNames := ["mgmt"] in
  let initiatorDirectory := InitiatorGroup.devicePath initiatorGroup +:+ "/initiators" in
  proc <- execute server
            (Cmd (["find"; initiatorDirectory]
                  ++ JsString.split " " "-mindepth 1 -maxdepth 1 -printf %f\0")
                 defaultOptions) true ;;
  let initiatorNames :=
    List.filter (fun n => negb (includes ignoredNames n))
                (JsString.dropLast (JsString.split NUL (getStdout proc))) in
  liftResult (ResultAsync.combine
                (List.map (fun initiatorName => ROk {| Initiator.name := initiatorName |})
                          initiatorNames)).

End ISCSIDriverSingleServer.

End ISCSIDriverSingleServer.

(** ** Vocabulary of the statements about files *)

(** The state after a file operation that left the world [w]. *)
Definition afterFile {W} (st : State W) (w : W) : State W :=
  {| world := w; issued := issued st;
     store := store st; currentResources := currentResources st |}.

(** The state after the commands [commands] were issued and left the world [w]. *)
Definition afterCommands {W} (st : State W) (commands : list Command) (w : W) : State W :=
  {| world := w; issued := issued st ++ commands;
     store := store st; currentResources := currentResources st |}.

Definition hasWhitespace (s : string) : bool :=
  existsb RegExp.isSpace (list_ascii_of_string s).

Definition hasLineBreak (s : string) : bool :=
  existsb RegExp.isLineTerminator (list_ascii_of_string s).

(** The operation is refused for whitespace in the field [label] and
    nothing has happened. *)
Definition refused {W A} (m : M W A) (label : string) (st : State W) : Prop :=
  m st = (Err (ProcessError (label +:+ " must not contain whitespace.")), st).

(** What [find ... -printf %f\0] prints for the entries [names]. *)
Fixpoint printed (names : list string) : string :=
  match names with
  | [] => EmptyString
  | n :: rest => n +:+ String NUL (printed rest)
  end.

(** The listing command of a directory. *)
Definition listCommand (directory : string) : Command :=
  Cmd ["find"; directory; "-mindepth"; "1"; "-maxdepth"; "1"; "-printf"; "%f\0"]
      defaultOptions.

Definition free (c : ascii) (s : string) : Prop := ~ In c (list_ascii_of_string s).

(** ** Sample files and servers *)

Module Sample3.

Definition confPath : string := "/etc/scst.conf".

(** Files that can always be created, and written when [writable]. *)
Definition files (writable : bool) : File.Ops unit :=
  {| File.create := fun file _ _ w => (ROk file, w);
     File.write := fun file _ _ w =>
       (if writable then ROk file else RErr (ProcessError "write failed"), w) |}.

(** Files that cannot be created. *)
Definition missing : File.Ops unit :=
  {| File.create := fun _ _ _ w => (RErr (ProcessError "cannot create"), w);
     File.write := fun file _ _ w => (ROk file, w) |}.

(** A server on which applying a configuration fails and every other
    command succeeds. *)
Definition rejecting : Server unit :=
  Sample.scripted (fun command =>
    match command with
    | BashCommand script _ _ =>
        if Js.startsWith "scstadmin -config" script then Sample.failure
        else Sample.stdout EmptyString
    | Cmd _ _ => Sample.stdout EmptyString
    end).

(** A server that answers every command with the same output. *)
Definition printing (text : string) : Server unit :=
  Sample.scripted (fun _ => Sample.stdout text).

Definition target : ISCSIDriverSingleServer.Target.t :=
  {| ISCSIDriverSingleServer.Target.name := "iqn.2024-01.com.example:disk 1" |}.

Definition group : ISCSIDriverSingleServer.InitiatorGroup.t :=
  {| ISCSIDriverSingleServer.InitiatorGroup.name := "hosts";
     ISCSIDriverSingleServer.InitiatorGroup.devicePath :=
       "/sys/kernel/scst_tgt/targets/iscsi/t1/ini_groups/hosts" |}.

End Sample3.

(** * Properties *)

Local Open Scope pcs_scope.

(** ** The string and pattern primitives on examples *)

Example includes_vip : Js.includes "iscsi_VIP_10" "_VIP_" = true.
Proof. reflexivity. Qed.

Example replace_first_only : Js.replace ":" "_" "a:b:c" = "a_b:c".
Proof. reflexivity. Qed.

Example runningOn_match :
  RegExp.exec RegExp.runningOn "resource x IS running on: node1
" = Some (Some "node1", "
").
Proof. vm_compute. reflexivity. Qed.

Example groupHeader_then_started :
  match RegExp.exec (RegExp.groupHeader "g1") "  * Resource Group: g1:
    * rbd_g1 (ocf:x): Started node3
" with
  | Some (_, tail) => RegExp.exec RegExp.startedLine tail
  | None => None
  end = Some (Some "node3", "
").
Proof. vm_compute. reflexivity. Qed.

(** ** Single-line validation *)

Lemma search_lineBreak_found (s : string) (prev : option ascii) (c : ascii) :
  In c (list_ascii_of_string s) ->
  RegExp.isLineTerminator c = true ->
  exists r, RegExp.search RegExp.lineBreak prev s = Some r.
Proof.
  revert prev. induction s as [|d s IH]; intros prev Hin Hc.
  - destruct Hin.
  - simpl in Hin. cbn [RegExp.search RegExp.lineBreak RegExp.matchHere].
    destruct (RegExp.isLineTerminator d) eqn:Hd.
    + eexists. reflexivity.
    + destruct Hin as [-> | Hin]; [congruence |].
      apply (IH (Some d) Hin Hc).
Qed.

Lemma search_lineBreak_none (s : string) (prev : option ascii) :
  Forall (fun c => RegExp.isLineTerminator c = false) (list_ascii_of_string s) ->
  RegExp.search RegExp.lineBreak prev s = None.
Proof.
  revert prev. induction s as [|d s IH]; intros prev Hall.
  - reflexivity.
  - simpl in Hall. inversion Hall as [|? ? Hd Hrest]; subst.
    cbn [RegExp.search RegExp.lineBreak RegExp.matchHere].
    rewrite Hd. apply IH, Hrest.
Qed.

Lemma ensureSingleLine_rejects {W} (value label : string) (c : ascii) (st : State W) :
  In c (list_ascii_of_string value) ->
  RegExp.isLineTerminator c = true ->
  ensureSingleLine value label st
  = (Err (ProcessError (label +:+ " must be a single line.")), st).
Proof.
  intros Hin Hc. unfold ensureSingleLine, RegExp.test.
  destruct (search_lineBreak_found value None c Hin Hc) as [r ->].
  reflexivity.
Qed.

Lemma ensureSingleLine_accepts {W} (value label : string) (st : State W) :
  Forall (fun c => RegExp.isLineTerminator c = false) (list_ascii_of_string value) ->
  ensureSingleLine value label st = (Ok value, st).
Proof.
  intros Hall. unfold ensureSingleLine, RegExp.test.
  rewrite (search_lineBreak_none value None Hall). reflexivity.
Qed.

(** C9: [createResource] with creation arguments containing a newline
    fails with the validation error "PCS creation arguments must be a
    single line." and leaves the whole state as it was: no command is
    issued to any server, and the cache and the store are untouched. *)
Theorem createResource_newline_rejected {W} (name0 creationArguments : string)
    (type : PCSResourceType) (server0 : Server W) (st : State W) :
  In "010"%char (list_ascii_of_string creationArguments) ->
  createResource name0 creationArguments type server0 st
  = (Err (ProcessError "PCS creation arguments must be a single line."), st).
Proof.
  intros Hin. unfold createResource, bind.
  rewrite (ensureSingleLine_rejects _ _ "010"%char st Hin eq_refl).
  reflexivity.
Qed.

Lemma createResource_newline_rejected_witness :
  In "010"%char (list_ascii_of_string "ip=10.0.0.1
op monitor")
  /\ createResource "iscsi_vip" "ip=10.0.0.1
op monitor" 1 Sample.succeeding Sample.fresh
     = (Err (ProcessError "PCS creation arguments must be a single line."), Sample.fresh).
Proof.
  assert (H : In "010"%char (list_ascii_of_string "ip=10.0.0.1
op monitor")) by (vm_compute; tauto).
  split; [exact H |].
  exact (createResource_newline_rejected "iscsi_vip" _ 1 Sample.succeeding Sample.fresh H).
Defined.

(** ** Mutations on a cache that was never populated *)




Lemma execute_ok {W} (server : Server W) command flag (st : State W) p w :
  run server command flag (world st) = (ROk p, w) ->
  execute server command flag st = (Ok p, afterCommand st command w).
Proof. intros H. unfold execute. rewrite H. reflexivity. Qed.

Lemma execute_err {W} (server : Server W) command flag (st : State W) e w :
  run server command flag (world st) = (RErr e, w) ->
  execute server command flag st = (Err e, afterCommand st command w).
Proof. intros H. unfold execute. rewrite H. reflexivity. Qed.

(** C10: with a cache that was never populated, [createResource],
    [deleteResource] and [deleteResourceGroup] do not end in a failure
    result once their remote command has succeeded: the cache update
    dereferences the absent cache and the call ends in a thrown type error,
    outside the result channel; the command has been issued and the cache
    is still absent. *)
Theorem mutation_on_absent_cache_throws {W} (server : Server W) (st : State W) :
  currentResources st = None ->
  (forall name0 creationArguments type (server0 : Server W) p w,
      Forall (fun c => RegExp.isLineTerminator c = false)
             (list_ascii_of_string creationArguments) ->
      run server0 (createCommand (Js.replace ":" "_" name0) creationArguments) true (world st)
      = (ROk p, w) ->
      exists st',
        createResource name0 creationArguments type server0 st
        = (Threw TypeErrorOnUndefined, st')
        /\ currentResources st' = None
        /\ issued st'
           = issued st ++ [createCommand (Js.replace ":" "_" name0) creationArguments])
  /\ (forall resourceName p w,
      run server (deleteCommand resourceName) true (world st) = (ROk p, w) ->
      deleteResource server resourceName st
      = (Threw TypeErrorOnUndefined, afterCommand st (deleteCommand resourceName) w))
  /\ (forall resourceGroupName p w,
      run server (deleteCommand resourceGroupName) true (world st) = (ROk p, w) ->
      deleteResourceGroup server resourceGroupName st
      = (Threw TypeErrorOnUndefined, afterCommand st (deleteCommand resourceGroupName) w)).
Proof.
  intros Hnone. repeat split.
  - intros name0 args type server0 p w Hline Hrun.
    unfold createResource, bind.
    rewrite (ensureSingleLine_accepts _ _ st Hline).
    fold (createCommand (Js.replace ":" "_" name0) args).
    rewrite (execute_ok _ _ _ _ _ _ Hrun).
    unfold alloc, getCache, throw. cbn. rewrite Hnone.
    eexists. split; [reflexivity |]. cbn. split; reflexivity.
  - intros resourceName p w Hrun.
    unfold deleteResource, bind. fold (deleteCommand resourceName).
    rewrite (execute_ok _ _ _ _ _ _ Hrun).
    unfold filterCache, bind, getCache, throw. cbn. rewrite Hnone. reflexivity.
  - intros resourceGroupName p w Hrun.
    unfold deleteResourceGroup, bind. fold (deleteCommand resourceGroupName).
    rewrite (execute_ok _ _ _ _ _ _ Hrun).
    unfold filterCache, bind, getCache, throw. cbn. rewrite Hnone. reflexivity.
Qed.

Lemma mutation_on_absent_cache_throws_witness :
  currentResources Sample.fresh = None
  /\ (exists st',
        createResource "iscsi_target_a" "iqn=iqn.2024-01.com.example:a" 3
          Sample.succeeding Sample.fresh
        = (Threw TypeErrorOnUndefined, st')
        /\ currentResources st' = None
        /\ issued st' = [createCommand "iscsi_target_a" "iqn=iqn.2024-01.com.example:a"])
  /\ deleteResource Sample.succeeding "iscsi_target_a" Sample.fresh
     = (Threw TypeErrorOnUndefined,
        afterCommand Sample.fresh (deleteCommand "iscsi_target_a") tt)
  /\ deleteResourceGroup Sample.succeeding "g1" Sample.fresh
     = (Threw TypeErrorOnUndefined, afterCommand Sample.fresh (deleteCommand "g1") tt).
Proof.
  destruct (mutation_on_absent_cache_throws Sample.succeeding Sample.fresh eq_refl)
    as (Hcreate & Hdelete & Hgroup).
  split; [reflexivity |]. split; [| split].
  - apply (Hcreate "iscsi_target_a" "iqn=iqn.2024-01.com.example:a" 3 Sample.succeeding
             {| getStdout := EmptyString; exitStatus := 0 |} tt).
    + vm_compute. repeat constructor.
    + reflexivity.
  - apply (Hdelete "iscsi_target_a" {| getStdout := EmptyString; exitStatus := 0 |} tt).
    reflexivity.
  - apply (Hgroup "g1" {| getStdout := EmptyString; exitStatus := 0 |} tt).
    reflexivity.
Defined.

(** ** Name normalisation in [createResource] *)

Lemma replace_colon_free (s : string) :
  Js.includes s ":" = false -> Js.replace ":" "_" s = s.
Proof.
  induction s as [|c s IH]; intros H; [reflexivity |].
  cbn [Js.replace Js.includes Js.startsWith] in *.
  destruct (Ascii.eqb ":" c); [discriminate |].
  f_equal. apply IH, H.
Qed.

(** Only the text up to the first colon is normalised. *)
Lemma replace_first_colon (a b : string) :
  Js.includes a ":" = false ->
  Js.replace ":" "_" (a +:+ String ":" b) = a +:+ String "_" b.
Proof.
  induction a as [|c a IH]; intros H.
  - reflexivity.
  - cbn [Js.includes Js.startsWith] in H.
    change (String c a +:+ String ":" b) with (String c (a +:+ String ":" b)).
    change (String c a +:+ String "_" b) with (String c (a +:+ String "_" b)).
    cbn [Js.replace Js.startsWith].
    destruct (Ascii.eqb ":" c); [discriminate |].
    f_equal. apply IH, H.
Qed.

(** What [createResource] does once the remote command succeeded on a
    populated cache: the resource carries the name after [replace]. *)
Lemma createResource_ok {W} (name0 creationArguments : string) (type : PCSResourceType)
    (server0 : Server W) (st : State W) (resources : list loc) p w :
  Forall (fun c => RegExp.isLineTerminator c = false)
         (list_ascii_of_string creationArguments) ->
  currentResources st = Some resources ->
  run server0 (createCommand (Js.replace ":" "_" name0) creationArguments) true (world st)
  = (ROk p, w) ->
  createResource name0 creationArguments type server0 st
  = (Ok (length (store st)),
     {| world := w;
        issued := issued st ++ [createCommand (Js.replace ":" "_" name0) creationArguments];
        store := store st ++ [{| name := Js.replace ":" "_" name0; resourceType := type;
                                 resourceGroup := None |}];
        currentResources := Some (resources ++ [length (store st)]) |}).
Proof.
  intros Hline Hcache Hrun. unfold createResource, bind.
  rewrite (ensureSingleLine_accepts _ _ st Hline).
  fold (createCommand (Js.replace ":" "_" name0) creationArguments).
  rewrite (execute_ok _ _ _ _ _ _ Hrun).
  unfold alloc, getCache, setCache, ret. cbn. rewrite Hcache. reflexivity.
Qed.

(** C6: on the name [rbd:pool:image] the create command is issued for, and
    the cached resource bears, the name [rbd_pool:image]: the second colon
    is still there. *)
Theorem createResource_second_colon_kept :
  createResource "rbd:pool:image" "pool=rbd" 4 Sample.succeeding (Sample.state [] (Some []))
  = (Ok 0,
     {| world := tt;
        issued := [createCommand "rbd_pool:image" "pool=rbd"];
        store := [{| name := "rbd_pool:image"; resourceType := 4; resourceGroup := None |}];
        currentResources := Some [0] |})
  /\ Js.includes "rbd_pool:image" ":" = true.
Proof. split; vm_compute; reflexivity. Qed.

(** ** The snapshot cache *)

Lemma allocAll_spec {W} (rs : list PCSResource) (st : State W) :
  allocAll rs st
  = (Ok (seq (length (store st)) (length rs)),
     {| world := world st; issued := issued st;
        store := store st ++ rs; currentResources := currentResources st |}).
Proof.
  revert st. induction rs as [|r rs IH]; intros st.
  - cbn. unfold ret. rewrite app_nil_r. destruct st; reflexivity.
  - cbn [allocAll]. unfold bind at 1. unfold alloc at 1.
    unfold bind at 1. rewrite IH. cbn.
    rewrite length_app, Nat.add_1_r, <- app_assoc. reflexivity.
Qed.


(** A served call: the cache is returned and nothing else happens. *)
Lemma fetchResources_cached {W} catalog parse (server : Server W) (st : State W) resources :
  currentResources st = Some resources ->
  fetchResources catalog parse server st = (Ok resources, st).
Proof.
  intros H. unfold fetchResources, bind, getCache. rewrite H. reflexivity.
Qed.

(** A first call that succeeds: one bulk query, then the cache is set. *)
Lemma fetchResources_first {W} catalog parse (server : Server W) (st st1 : State W) resources :
  currentResources st = None ->
  fetchResources catalog parse server st = (Ok resources, st1) ->
  exists p w cfg,
    run server bulkQuery true (world st) = (ROk p, w)
    /\ parse (getStdout p) = ROk cfg
    /\ resources = seq (length (store st)) (length (resourcesOfConfig catalog cfg))
    /\ st1 = {| world := w; issued := issued st ++ [bulkQuery];
                store := store st ++ resourcesOfConfig catalog cfg;
                currentResources := Some resources |}.
Proof.
  intros Hnone. unfold fetchResources, bind, getCache, mapErr, execute. cbn beta.
  rewrite Hnone.
  destruct (run server bulkQuery true (world st)) as [[p | e] w] eqn:Hrun;
    [| intros H; discriminate H].
  unfold liftResult. destruct (parse (getStdout p)) as [cfg | e] eqn:Hparse;
    [| intros H; discriminate H].
  unfold ret at 1. rewrite allocAll_spec.
  unfold setCache, ret. cbn. intros H. inversion H; subst.
  exists p, w, cfg. repeat split; assumption || reflexivity.
Qed.

(** C8: starting from an absent cache, if a first [fetchResources]
    returns a sequence then it has issued exactly one command, the bulk
    query, and a second call right after it returns the same sequence
    while leaving the state, hence the list of issued commands, as it is. *)
Theorem fetchResources_twice_one_query {W} catalog parse (server : Server W)
    (st st1 : State W) (resources : list loc) :
  currentResources st = None ->
  fetchResources catalog parse server st = (Ok resources, st1) ->
  issued st1 = issued st ++ [bulkQuery]
  /\ fetchResources catalog parse server st1 = (Ok resources, st1).
Proof.
  intros Hnone Hfetch.
  destruct (fetchResources_first _ _ _ _ _ _ Hnone Hfetch)
    as (p & w & cfg & _ & _ & _ & ->).
  split; [reflexivity |].
  apply fetchResources_cached. reflexivity.
Qed.

Lemma fetchResources_twice_one_query_witness :
  currentResources Sample.fresh = None
  /\ fetchResources Sample.catalog Sample.parse Sample.idle Sample.fresh
     = (Ok [0; 1; 2; 3],
        snd (fetchResources Sample.catalog Sample.parse Sample.idle Sample.fresh))
  /\ issued (snd (fetchResources Sample.catalog Sample.parse Sample.idle Sample.fresh))
     = issued Sample.fresh ++ [bulkQuery]
  /\ fetchResources Sample.catalog Sample.parse Sample.idle
       (snd (fetchResources Sample.catalog Sample.parse Sample.idle Sample.fresh))
     = (Ok [0; 1; 2; 3],
        snd (fetchResources Sample.catalog Sample.parse Sample.idle Sample.fresh)).
Proof.
  assert (Hfetch : fetchResources Sample.catalog Sample.parse Sample.idle Sample.fresh
                   = (Ok [0; 1; 2; 3],
                      snd (fetchResources Sample.catalog Sample.parse Sample.idle
                             Sample.fresh)))
    by (vm_compute; reflexivity).
  split; [reflexivity |]. split; [exact Hfetch |].
  exact (fetchResources_twice_one_query Sample.catalog Sample.parse Sample.idle
           Sample.fresh _ [0; 1; 2; 3] eq_refl Hfetch).
Defined.

(** ** Classification of primitives *)

Section Classification.

Context (catalog : Catalog).

Lemma classifyFrom_plain (types : list PCSResourceType) (resource : PCSResourceConfigJson)
    (t : PCSResourceType) :
  In t types ->
  internalTypeName (infoOf catalog t) = agent_name_type resource ->
  agent_name_type resource <> "portblock" ->
  (forall t', In t' types ->
              internalTypeName (infoOf catalog t') = agent_name_type resource -> t' = t) ->
  classifyFrom catalog types resource = Some t.
Proof.
  intros Hin Hname Hplain Huniq.
  induction types as [|t0 types IH]; [destruct Hin |].
  cbn [classifyFrom].
  destruct (String.eqb_spec (internalTypeName (infoOf catalog t0)) (agent_name_type resource))
    as [Hmatch | Hdiff].
  - destruct (String.eqb_spec (internalTypeName (infoOf catalog t0)) "portblock")
      as [Hpb | _]; [congruence |].
    f_equal. apply Huniq; [left; reflexivity | exact Hmatch].
  - destruct Hin as [-> | Hin]; [congruence |].
    apply IH; [exact Hin |].
    intros t' Ht'. apply Huniq. right. exact Ht'.
Qed.

Lemma classifyFrom_portblock_action (types : list PCSResourceType)
    (resource : PCSResourceConfigJson) (t : PCSResourceType) (value : string) :
  In t types ->
  internalTypeName (infoOf catalog t) = "portblock" ->
  agent_name_type resource = "portblock" ->
  firstAction (instance_attributes resource) = Some value ->
  classifyFrom catalog types resource
  = Some (if String.eqb value "block" then PORTBLOCK_ON catalog else PORTBLOCK_OFF catalog).
Proof.
  intros Hin Hname Hagent Haction.
  induction types as [|t0 types IH]; [destruct Hin |].
  cbn [classifyFrom]. rewrite Hagent.
  destruct (String.eqb_spec (internalTypeName (infoOf catalog t0)) "portblock")
    as [Hpb | Hdiff].
  - rewrite Haction. reflexivity.
  - destruct Hin as [-> | Hin]; [congruence |]. apply IH, Hin.
Qed.

Lemma classifyFrom_portblock_no_action (types : list PCSResourceType)
    (resource : PCSResourceConfigJson) :
  agent_name_type resource = "portblock" ->
  firstAction (instance_attributes resource) = None ->
  classifyFrom catalog types resource = None.
Proof.
  intros Hagent Haction.
  induction types as [|t0 types IH]; [reflexivity |].
  cbn [classifyFrom]. rewrite Hagent.
  destruct (String.eqb_spec (internalTypeName (infoOf catalog t0)) "portblock")
    as [Hpb | Hdiff]; [rewrite Haction |]; exact IH.
Qed.

End Classification.

(** C7, as the code has it: a primitive whose agent is not the shared
    port-block agent and names exactly one member [t] of the enumeration
    classifies as [t]; a port-block primitive (the agent being in the
    catalog) classifies by the value of its first [action] attribute, as
    [PORTBLOCK_ON] when it is [block] and as [PORTBLOCK_OFF] for any other
    value; a port-block primitive with no [action] attribute gets no type
    at all. *)
Theorem classification_by_agent_and_action (catalog : Catalog)
    (resource : PCSResourceConfigJson) :
  (forall t,
      In t (enumValues catalog) ->
      internalTypeName (infoOf catalog t) = agent_name_type resource ->
      agent_name_type resource <> "portblock" ->
      (forall t', In t' (enumValues catalog) ->
                  internalTypeName (infoOf catalog t') = agent_name_type resource ->
                  t' = t) ->
      getResourceTypeOfPCSResource catalog resource = Some t)
  /\ (forall t value,
      In t (enumValues catalog) ->
      internalTypeName (infoOf catalog t) = "portblock" ->
      agent_name_type resource = "portblock" ->
      firstAction (instance_attributes resource) = Some value ->
      (value = "block" ->
       getResourceTypeOfPCSResource catalog resource = Some (PORTBLOCK_ON catalog))
      /\ (value <> "block" ->
          getResourceTypeOfPCSResource catalog resource = Some (PORTBLOCK_OFF catalog)))
  /\ (agent_name_type resource = "portblock" ->
      firstAction (instance_attributes resource) = None ->
      getResourceTypeOfPCSResource catalog resource = None).
Proof.
  unfold getResourceTypeOfPCSResource. split; [| split].
  - intros t. apply classifyFrom_plain.
  - intros t value Hin Hname Hagent Haction.
    rewrite (classifyFrom_portblock_action catalog _ _ t value Hin Hname Hagent Haction).
    split; intros Hv.
    + subst value. reflexivity.
    + destruct (String.eqb_spec value "block"); [contradiction | reflexivity].
  - apply classifyFrom_portblock_no_action.
Qed.

Lemma classification_by_agent_and_action_witness :
  getResourceTypeOfPCSResource Sample.catalog
    (Sample.primitive "iscsi_TARGET_g1" "iSCSITarget" []) = Some 3
  /\ getResourceTypeOfPCSResource Sample.catalog
       (Sample.primitive "pb_on" "portblock" [("action", "block")]) = Some 0
  /\ getResourceTypeOfPCSResource Sample.catalog
       (Sample.primitive "pb_off" "portblock" [("action", "unblock")]) = Some 5
  /\ getResourceTypeOfPCSResource Sample.catalog
       (Sample.primitive "pb" "portblock" [("ip", "10.0.0.9")]) = None.
Proof.
  split; [| split; [| split]].
  - apply (proj1 (classification_by_agent_and_action Sample.catalog
                    (Sample.primitive "iscsi_TARGET_g1" "iSCSITarget" [])) 3).
    + cbn. tauto.
    + reflexivity.
    + discriminate.
    + cbn. intros t' [<- | [<- | [<- | [<- | [<- | [<- | []]]]]]]; cbn;
        intros H; (reflexivity || discriminate H).
  - apply (proj1 (proj2 (classification_by_agent_and_action Sample.catalog
                    (Sample.primitive "pb_on" "portblock" [("action", "block")])))
             0 "block"); [cbn; tauto | reflexivity .. ].
  - apply (proj1 (proj2 (classification_by_agent_and_action Sample.catalog
                    (Sample.primitive "pb_off" "portblock" [("action", "unblock")])))
             0 "unblock"); [cbn; tauto | reflexivity | reflexivity | reflexivity | discriminate].
  - apply (proj2 (proj2 (classification_by_agent_and_action Sample.catalog
                    (Sample.primitive "pb" "portblock" [("ip", "10.0.0.9")])))); reflexivity.
Defined.

(** C7 as stated fails on a port-block primitive that has no [action]
    attribute: it is not classified as [PORTBLOCK_OFF]. *)
Lemma portblock_without_action_not_off :
  agent_name_type (Sample.primitive "pb" "portblock" [("ip", "10.0.0.9")]) = "portblock"
  /\ firstAction (instance_attributes (Sample.primitive "pb" "portblock" [("ip", "10.0.0.9")]))
     = None
  /\ getResourceTypeOfPCSResource Sample.catalog
       (Sample.primitive "pb" "portblock" [("ip", "10.0.0.9")])
     <> Some (PORTBLOCK_OFF Sample.catalog).
Proof. split; [reflexivity | split; [reflexivity | vm_compute; discriminate]]. Qed.

(** ** Placement in a group: the sort and the search *)

Section Placement.

Context {A : Type} (key : A -> Z).


Lemma insertBy_perm (x : A) (l : list A) : Permutation (insertBy key x l) (x :: l).
Proof.
  induction l as [|y l IH]; cbn [insertBy]; [reflexivity |].
  destruct (key x <=? key y)%Z; [reflexivity |].
  rewrite IH. apply perm_swap.
Qed.

Lemma sortBy_perm (l : list A) : Permutation (sortBy key l) l.
Proof.
  induction l as [|x l IH]; cbn [sortBy fold_right]; [reflexivity |].
  fold (sortBy key l). rewrite insertBy_perm. constructor. exact IH.
Qed.

Lemma insertBy_hd (x y : A) (l : list A) :
  byKey key y x -> HdRel (byKey key) y l -> HdRel (byKey key) y (insertBy key x l).
Proof.
  intros Hyx Hhd. destruct l as [|z l]; cbn [insertBy]; [constructor; exact Hyx |].
  destruct (key x <=? key z)%Z; constructor; [exact Hyx |].
  inversion Hhd; assumption.
Qed.

Lemma insertBy_sorted (x : A) (l : list A) :
  Sorted (byKey key) l -> Sorted (byKey key) (insertBy key x l).
Proof.
  induction 1 as [|y l Hsorted IH Hhd]; cbn [insertBy].
  - repeat constructor.
  - destruct (Z.leb_spec (key x) (key y)) as [Hle | Hgt].
    + constructor; [constructor; assumption | constructor; exact Hle].
    + constructor; [exact IH |]. apply insertBy_hd; [unfold byKey; lia | exact Hhd].
Qed.

Lemma sortBy_sorted (l : list A) : Sorted (byKey key) (sortBy key l).
Proof.
  induction l as [|x l IH]; cbn [sortBy fold_right]; [constructor |].
  apply insertBy_sorted, IH.
Qed.

(** Stability: members of equal key keep their order. *)
Lemma insertBy_filter (c : Z) (x : A) (l : list A) :
  List.filter (fun y => (key y =? c)%Z) (insertBy key x l)
  = List.filter (fun y => (key y =? c)%Z) (x :: l).
Proof.
  induction l as [|y l IH]; cbn [insertBy]; [reflexivity |].
  destruct (Z.leb_spec (key x) (key y)) as [Hle | Hgt]; [reflexivity |].
  cbn [List.filter] in *. rewrite IH.
  destruct (Z.eqb_spec (key x) c), (Z.eqb_spec (key y) c); try reflexivity. lia.
Qed.

Lemma sortBy_stable (c : Z) (l : list A) :
  List.filter (fun y => (key y =? c)%Z) (sortBy key l)
  = List.filter (fun y => (key y =? c)%Z) l.
Proof.
  induction l as [|x l IH]; cbn [sortBy fold_right]; [reflexivity |].
  fold (sortBy key l). rewrite insertBy_filter. cbn [List.filter]. rewrite IH. reflexivity.
Qed.


Lemma find_insertBy (k : Z) (x : A) (l : list A) :
  List.find (fun y => (k <=? key y)%Z) (insertBy key x l)
  = if (k <=? key x)%Z then
      match List.find (fun y => (k <=? key y)%Z) l with
      | Some m => if (key x <=? key m)%Z then Some x else Some m
      | None => Some x
      end
    else List.find (fun y => (k <=? key y)%Z) l.
Proof.
  induction l as [|y l IH]; cbn [insertBy List.find].
  - destruct (k <=? key x)%Z; reflexivity.
  - destruct (Z.leb_spec (key x) (key y)) as [Hxy | Hxy]; cbn [List.find].
    + destruct (Z.leb_spec k (key x)) as [Hkx | Hkx]; [| reflexivity].
      destruct (Z.leb_spec k (key y)) as [Hky | Hky]; [| lia].
      destruct (Z.leb_spec (key x) (key y)); [reflexivity | lia].
    + rewrite IH.
      destruct (Z.leb_spec k (key y)) as [Hky | Hky].
      * destruct (Z.leb_spec k (key x)) as [Hkx | Hkx]; [| lia].
        destruct (Z.leb_spec (key x) (key y)); [lia | reflexivity].
      * reflexivity.
Qed.

Lemma find_sortBy (k : Z) (l : list A) :
  List.find (fun y => (k <=? key y)%Z) (sortBy key l) = pick key k l.
Proof.
  induction l as [|x l IH]; cbn [sortBy fold_right pick]; [reflexivity |].
  fold (sortBy key l). rewrite find_insertBy, IH. reflexivity.
Qed.

Lemma pick_none (k : Z) (l : list A) :
  pick key k l = None -> forall x, In x l -> (key x < k)%Z.
Proof.
  induction l as [|y l IH]; cbn [pick]; intros Hpick x Hin; [destruct Hin |].
  destruct (Z.leb_spec k (key y)) as [Hky | Hky].
  - destruct (pick key k l) as [m|]; [destruct (key y <=? key m)%Z |]; discriminate.
  - destruct Hin as [<- | Hin]; [exact Hky | exact (IH Hpick x Hin)].
Qed.

Lemma pick_some (k : Z) (l : list A) (m : A) :
  pick key k l = Some m ->
  (k <= key m)%Z
  /\ (forall x, In x l -> (k <= key x)%Z -> (key m <= key x)%Z)
  /\ exists before after,
       l = before ++ m :: after /\ forall x, In x before -> key x <> key m.
Proof.
  revert m. induction l as [|y l IH]; cbn [pick]; intros m Hpick; [discriminate |].
  destruct (Z.leb_spec k (key y)) as [Hky | Hky].
  - destruct (pick key k l) as [m'|] eqn:Hrest.
    + destruct (IH m' eq_refl) as (Hkm & Hmin & before & after & -> & Hbefore).
      destruct (Z.leb_spec (key y) (key m')) as [Hym | Hym];
        inversion Hpick; subst m.
      * split; [exact Hky |]. split.
        -- intros x [<- | Hin] Hkx; [lia |]. specialize (Hmin x Hin Hkx). lia.
        -- exists [], (before ++ m' :: after). split; [reflexivity |].
           intros x [].
      * split; [exact Hkm |]. split.
        -- intros x [<- | Hin] Hkx; [lia | exact (Hmin x Hin Hkx)].
        -- exists (y :: before), after. split; [reflexivity |].
           intros x [<- | Hin]; [lia | exact (Hbefore x Hin)].
    + inversion Hpick; subst m. split; [exact Hky |]. split.
      * intros x [<- | Hin] Hkx; [lia |].
        pose proof (pick_none k l Hrest x Hin). lia.
      * exists [], l. split; [reflexivity |]. intros x [].
  - destruct (IH m Hpick) as (Hkm & Hmin & before & after & -> & Hbefore).
    split; [exact Hkm |]. split.
    + intros x [<- | Hin] Hkx; [lia | exact (Hmin x Hin Hkx)].
    + exists (y :: before), after. split; [reflexivity |].
      intros x [<- | Hin]; [lia | exact (Hbefore x Hin)].
Qed.

End Placement.

(** ** [addResourceToGroup] *)

Section GroupAdd.

Context {W : Type} (catalog : Catalog).
Context (parse : string -> Result PCSConfigJson JsError) (server : Server W).

Local Abbreviation rankOf := (memberRank catalog).

(** One run of [addResourceToGroup] after a successful snapshot read. *)
Lemma addResourceToGroup_run (resource : loc) (group : PCSResourceGroup)
    (st st1 : State W) (refs : list loc) :
  fetchResources catalog parse server st = (Ok refs, st1) ->
  let r := store st !!! resource in
  let members := List.filter (inGroup (groupName group)) (objectsOf st1 refs) in
  let command :=
    groupAddCommand (groupName group)
      (positionOf (List.find (fun m => (rankOf r <=? rankOf m)%Z) (sortBy rankOf members)))
      (name r) in
  addResourceToGroup catalog parse server resource group st
  = match run server command true (world st1) with
    | (ROk _, w) => (Ok tt, afterCommand (withGroup st1 resource group) command w)
    | (RErr e, w) => (Err e, afterCommand (withGroup st1 resource group) command w)
    end.
Proof.
  intros Hfetch r members command.
  unfold addResourceToGroup, bind, load. cbn beta iota. rewrite Hfetch.
  subst command members r.
  unfold loadAll, setResourceGroup, execute, nextResourceOf, rankOf, objectsOf,
    positionOf, groupAddCommand, afterCommand, withGroup.
  cbn [world issued store currentResources].
  match goal with
  | |- context [run server ?c true ?w] => destruct (run server c true w) as [[p | e] w']
  end; reflexivity.
Qed.

(** C3: [addResourceToGroup] issues the add-to-group command for the
    members of the group sorted by rank (a stable sort: a sorted
    permutation that keeps the order of members of equal rank), with
    [--before m] for the first sorted member [m] whose rank is at least the
    rank of the resource, and with no positional argument when there is no
    such member. That [m] has the least rank among the members of rank at
    least the resource's, and is the earliest member of its rank. With
    member ranks 1, 2 and 4: a rank-3 resource goes before the rank-4
    member, a rank-5 resource is appended, a rank-2 resource goes before the
    rank-2 member. *)
Theorem addResourceToGroup_insertion_point (resource : loc) (group : PCSResourceGroup)
    (st st1 : State W) (refs : list loc) :
  fetchResources catalog parse server st = (Ok refs, st1) ->
  let r := store st !!! resource in
  let members := List.filter (inGroup (groupName group)) (objectsOf st1 refs) in
  let sorted := sortBy rankOf members in
  let next := List.find (fun m => (rankOf r <=? rankOf m)%Z) sorted in
  (Permutation sorted members
   /\ Sorted (byKey rankOf) sorted
   /\ forall c, List.filter (fun m => (rankOf m =? c)%Z) sorted
                = List.filter (fun m => (rankOf m =? c)%Z) members)
  /\ issued (snd (addResourceToGroup catalog parse server resource group st))
     = issued st1 ++ [groupAddCommand (groupName group) (positionOf next) (name r)]
  /\ (forall m, next = Some m ->
        In m members
        /\ (rankOf r <= rankOf m)%Z
        /\ (forall x, In x members -> (rankOf r <= rankOf x)%Z -> (rankOf m <= rankOf x)%Z)
        /\ exists before after,
             members = before ++ m :: after
             /\ forall x, In x before -> rankOf x <> rankOf m)
  /\ (next = None -> forall x, In x members -> (rankOf x < rankOf r)%Z)
  /\ (forall m1 m2 m4,
        Permutation members [m1; m2; m4] ->
        rankOf m1 = 1%Z -> rankOf m2 = 2%Z -> rankOf m4 = 4%Z ->
        (rankOf r = 3%Z -> positionOf next = ["--before"; name m4])
        /\ (rankOf r = 5%Z -> positionOf next = [])
        /\ (rankOf r = 2%Z -> positionOf next = ["--before"; name m2])).
Proof.
  intros Hfetch r members sorted next.
  assert (Hnext : next = pick rankOf (rankOf r) members) by apply find_sortBy.
  assert (Hsome : forall m, next = Some m ->
            In m members
            /\ (rankOf r <= rankOf m)%Z
            /\ (forall x, In x members -> (rankOf r <= rankOf x)%Z
                          -> (rankOf m <= rankOf x)%Z)
            /\ exists before after,
                 members = before ++ m :: after
                 /\ forall x, In x before -> rankOf x <> rankOf m).
  { intros m Hm. rewrite Hnext in Hm.
    destruct (pick_some rankOf _ _ _ Hm) as (Hle & Hmin & before & after & Heq & Hbefore).
    split; [| split; [exact Hle | split; [exact Hmin |]]].
    - rewrite Heq. apply in_or_app. right. left. reflexivity.
    - exists before, after. split; assumption. }
  assert (Hnone : next = None -> forall x, In x members -> (rankOf x < rankOf r)%Z).
  { intros Hn. rewrite Hnext in Hn. apply (pick_none rankOf _ _ Hn). }
  split; [| split; [| split; [exact Hsome | split; [exact Hnone |]]]].
  - split; [apply sortBy_perm | split; [apply sortBy_sorted | intros c; apply sortBy_stable]].
  - rewrite (addResourceToGroup_run resource group st st1 refs Hfetch).
    fold r members sorted next.
    destruct (run server _ true (world st1)) as [[p | e] w]; reflexivity.
  - intros m1 m2 m4 Hperm H1 H2 H4.
    assert (Hmem : forall x, In x members <-> x = m1 \/ x = m2 \/ x = m4).
    { intros x. split; intros Hx.
      - apply (Permutation_in _ Hperm) in Hx. cbn in Hx. intuition auto.
      - apply (Permutation_in _ (Permutation_sym Hperm)). cbn. intuition auto. }
    repeat split; intros Hr; destruct next as [m|] eqn:Hn.
    + destruct (Hsome m eq_refl) as (Hin & Hle & _).
      apply Hmem in Hin. destruct Hin as [-> | [-> | ->]]; [lia | lia | reflexivity].
    + specialize (Hnone eq_refl m4 (proj2 (Hmem m4) (or_intror (or_intror eq_refl)))). lia.
    + destruct (Hsome m eq_refl) as (Hin & Hle & _).
      apply Hmem in Hin. destruct Hin as [-> | [-> | ->]]; lia.
    + reflexivity.
    + destruct (Hsome m eq_refl) as (Hin & Hle & Hmin & _).
      specialize (Hmin m2 (proj2 (Hmem m2) (or_intror (or_introl eq_refl)))).
      apply Hmem in Hin. destruct Hin as [-> | [-> | ->]]; [lia | reflexivity | lia].
    + specialize (Hnone eq_refl m2 (proj2 (Hmem m2) (or_intror (or_introl eq_refl)))). lia.
Qed.

End GroupAdd.

Lemma addResourceToGroup_insertion_point_witness :
  fetchResources Sample.catalog Sample.parse Sample.succeeding Sample.ranked
  = (Ok [0; 1; 2; 3], Sample.ranked)
  /\ issued (snd (addResourceToGroup Sample.catalog Sample.parse Sample.succeeding
                    3 Sample.g1 Sample.ranked))
     = [groupAddCommand "g1" ["--before"; "iscsi_LUN_g1"] "iscsi_TARGET_g1"].
Proof.
  assert (Hfetch : fetchResources Sample.catalog Sample.parse Sample.succeeding Sample.ranked
                   = (Ok [0; 1; 2; 3], Sample.ranked)) by reflexivity.
  split; [exact Hfetch |].
  pose proof (addResourceToGroup_insertion_point Sample.catalog Sample.parse
                Sample.succeeding 3 Sample.g1 Sample.ranked Sample.ranked [0; 1; 2; 3]
                Hfetch) as H.
  cbv zeta in H. destruct H as (_ & Hcommand & _ & _ & Hranks).
  rewrite Hcommand.
  destruct (Hranks (Sample.member "iscsi_VIP_g1" 1) (Sample.member "iscsi_LVM_g1" 2)
              (Sample.member "iscsi_LUN_g1" 4) (Permutation_refl _) eq_refl eq_refl eq_refl)
    as (Hthree & _ & _).
  rewrite (Hthree eq_refl). reflexivity.
Defined.

(** ** Failed mutations and the cache *)

Lemma createResource_failure_keeps_cache {W} (name0 creationArguments : string)
    (type : PCSResourceType) (server0 : Server W) (st : State W) e w :
  Forall (fun c => RegExp.isLineTerminator c = false)
         (list_ascii_of_string creationArguments) ->
  run server0 (createCommand (Js.replace ":" "_" name0) creationArguments) true (world st)
  = (RErr e, w) ->
  createResource name0 creationArguments type server0 st
  = (Err e, afterCommand st (createCommand (Js.replace ":" "_" name0) creationArguments) w).
Proof.
  intros Hline Hrun. unfold createResource, bind.
  rewrite (ensureSingleLine_accepts _ _ st Hline).
  fold (createCommand (Js.replace ":" "_" name0) creationArguments).
  rewrite (execute_err _ _ _ _ _ _ Hrun). reflexivity.
Qed.

Lemma deleteResource_failure_keeps_cache {W} (server : Server W) (resourceName : string)
    (st : State W) e w :
  run server (deleteCommand resourceName) true (world st) = (RErr e, w) ->
  deleteResource server resourceName st
  = (Err e, afterCommand st (deleteCommand resourceName) w).
Proof.
  intros Hrun. unfold deleteResource, bind. fold (deleteCommand resourceName).
  rewrite (execute_err _ _ _ _ _ _ Hrun). reflexivity.
Qed.

Lemma deleteResourceGroup_failure_keeps_cache {W} (server : Server W)
    (resourceGroupName : string) (st : State W) e w :
  run server (deleteCommand resourceGroupName) true (world st) = (RErr e, w) ->
  deleteResourceGroup server resourceGroupName st
  = (Err e, afterCommand st (deleteCommand resourceGroupName) w).
Proof.
  intros Hrun. unfold deleteResourceGroup, bind. fold (deleteCommand resourceGroupName).
  rewrite (execute_err _ _ _ _ _ _ Hrun). reflexivity.
Qed.

(** [addResourceToGroup] writes the group reference before the command is
    issued: when the command fails the object already refers to the
    group. *)
Lemma addResourceToGroup_failure_keeps_reference {W} catalog parse (server : Server W)
    (resource : loc) (group : PCSResourceGroup) (st st1 : State W) (refs : list loc) e :
  fetchResources catalog parse server st = (Ok refs, st1) ->
  fst (addResourceToGroup catalog parse server resource group st) = Err e ->
  resource < length (store st1) ->
  resourceGroup (store (snd (addResourceToGroup catalog parse server resource group st))
                 !!! resource) = Some group.
Proof.
  intros Hfetch Herr Hlt.
  rewrite (addResourceToGroup_run catalog parse server resource group st st1 refs Hfetch)
    in *.
  destruct (run server _ true (world st1)) as [[p | e'] w]; [discriminate Herr |].
  cbn [snd afterCommand withGroup store].
  rewrite list_lookup_total_insert_eq by exact Hlt. reflexivity.
Qed.

(** C5 at a failing command: the target of the snapshot [Sample.ranked] is
    cached without a group; [addResourceToGroup] on a server whose command
    fails returns the failure, and the cached target now refers to [g1]. *)
Theorem addResourceToGroup_failure_mutates_cache :
  fst (addResourceToGroup Sample.catalog Sample.parse Sample.failing 3 Sample.g1 Sample.ranked)
  = Err (ProcessError "pcs: command failed")
  /\ currentResources Sample.ranked = Some [0; 1; 2; 3]
  /\ resourceGroup (store Sample.ranked !!! 3) = None
  /\ currentResources
       (snd (addResourceToGroup Sample.catalog Sample.parse Sample.failing 3 Sample.g1
               Sample.ranked)) = Some [0; 1; 2; 3]
  /\ resourceGroup
       (store (snd (addResourceToGroup Sample.catalog Sample.parse Sample.failing 3
                      Sample.g1 Sample.ranked)) !!! 3) = Some Sample.g1.
Proof. repeat split; vm_compute; reflexivity. Qed.

(** ** Anchors of a group *)

Lemma byIdOf_fold (members : list PCSResource) (m0 : gmap string PCSResource)
    (rid : string) (r : PCSResource) :
  fold_left (fun m x => <[name x := x]> m) members m0 !! rid = Some r ->
  (In r members /\ name r = rid) \/ m0 !! rid = Some r.
Proof.
  revert m0. induction members as [|x members IH]; intros m0 H; cbn in H.
  - right. exact H.
  - destruct (IH _ H) as [[Hin Hname] | Hlookup].
    + left. split; [right; exact Hin | exact Hname].
    + destruct (decide (name x = rid)) as [Heq | Hne].
      * subst rid. rewrite lookup_insert_eq in Hlookup. inversion Hlookup; subst.
        left. split; [left |]; reflexivity.
      * rewrite lookup_insert_ne in Hlookup by exact Hne. right. exact Hlookup.
Qed.

Lemma byIdOf_lookup (members : list PCSResource) (rid : string) (r : PCSResource) :
  byIdOf members !! rid = Some r -> In r members /\ name r = rid.
Proof.
  intros H. destruct (byIdOf_fold members ∅ rid r H) as [Hin | Hempty]; [exact Hin |].
  rewrite lookup_empty in Hempty. discriminate.
Qed.

Lemma truthy_nonempty (s : string) : s <> EmptyString -> Js.truthy (Some s) = true.
Proof.
  intros H. unfold Js.truthy. destruct (String.eqb_spec s EmptyString); [contradiction |].
  reflexivity.
Qed.

Section AnchorLoop.

Context (catalog : Catalog) (byId : gmap string PCSResource).
Context (keys : forall rid r, byId !! rid = Some r -> name r = rid /\ rid <> EmptyString).

Lemma anchorLoop_spec (rids : list string) (targetId portBlockOffId : option string) :
  (targetId = None \/ Js.truthy targetId = true) ->
  (portBlockOffId = None \/ Js.truthy portBlockOffId = true) ->
  anchorLoop catalog byId rids targetId portBlockOffId
  = (orFirst targetId (firstOfType byId (TARGET catalog) rids),
     orFirst portBlockOffId (firstOfType byId (PORTBLOCK_OFF catalog) rids)).
Proof.
  revert targetId portBlockOffId.
  induction rids as [|rid rids IH]; intros t o Ht Ho.
  - cbn. destruct t, o; reflexivity.
  - cbn [anchorLoop firstOfType List.find]. unfold resolvesTo at 1 3.
    destruct (byId !! rid) as [r|] eqn:Hr.
    + destruct (keys rid r Hr) as [Hname Hne]. rewrite Hname.
      pose proof (truthy_nonempty rid Hne) as Hrid.
      assert (Hnone : Js.truthy None = false) by reflexivity.
      destruct Ht as [-> | Ht], Ho as [-> | Ho];
        rewrite ?Hnone, ?Ht, ?Ho;
        destruct (Nat.eqb (resourceType r) (TARGET catalog)),
                 (Nat.eqb (resourceType r) (PORTBLOCK_OFF catalog));
        cbn [negb andb];
        rewrite ?Hnone, ?Ht, ?Ho, ?Hrid; cbn [negb andb];
        try (rewrite IH by (first [left; reflexivity | right; assumption]));
        repeat match goal with
               | H : Js.truthy ?t = true |- _ => is_var t; destruct t; [| discriminate H]
               end;
        reflexivity.
    + apply IH; assumption.
Qed.

End AnchorLoop.

Lemma anchor_messages_differ (g : string) :
  "No TARGET primitive found in group '" +:+ g +:+ "'."
  <> "No PORTBLOCK_OFF primitive found in group '" +:+ g +:+ "'.".
Proof. cbn. intros H. discriminate H. Qed.

(** C4: when the snapshot has members of the group (all with a non-empty
    name) and the configuration query lists the group, [getAnchorsForGroup]
    returns the first id of the group's [member_ids] that resolves to a
    TARGET together with the first that resolves to a PORTBLOCK_OFF; with
    no TARGET among them it throws "No TARGET primitive found in group
    '<name>'.", with a TARGET but no PORTBLOCK_OFF it throws "No
    PORTBLOCK_OFF primitive found in group '<name>'.", and the two messages
    differ. *)
Theorem getAnchorsForGroup_first_of_type {W} (catalog : Catalog)
    (parse : string -> Result PCSConfigJson JsError) (server : Server W)
    (group : PCSResourceGroup) (st st1 : State W) (refs : list loc)
    (p : Process) (w : W) (cfg : PCSConfigJson) (grp : GroupJson) :
  fetchResources catalog parse server st = (Ok refs, st1) ->
  let members := List.filter (inGroup (groupName group)) (objectsOf st1 refs) in
  members <> [] ->
  (forall r, In r members -> name r <> EmptyString) ->
  run server bulkQuery true (world st1) = (ROk p, w) ->
  parse (getStdout p) = ROk cfg ->
  List.find (fun g => String.eqb (groupId g) (groupName group)) (default [] (groups cfg))
  = Some grp ->
  let target := firstOfType (byIdOf members) (TARGET catalog) (member_ids grp) in
  let portBlockOff := firstOfType (byIdOf members) (PORTBLOCK_OFF catalog) (member_ids grp) in
  fst (getAnchorsForGroup catalog parse server group st)
  = match target, portBlockOff with
    | Some t, Some o => Ok {| targetPrimitiveId := t; portBlockOffId := o |}
    | None, _ =>
        Threw (Raised (ProcessError
          ("No TARGET primitive found in group '" +:+ groupName group +:+ "'.")))
    | Some _, None =>
        Threw (Raised (ProcessError
          ("No PORTBLOCK_OFF primitive found in group '" +:+ groupName group +:+ "'.")))
    end
  /\ "No TARGET primitive found in group '" +:+ groupName group +:+ "'."
     <> "No PORTBLOCK_OFF primitive found in group '" +:+ groupName group +:+ "'.".
Proof.
  intros Hfetch members.
  assert (Hdef : List.filter (inGroup (groupName group)) (objectsOf st1 refs) = members)
    by reflexivity.
  clearbody members.
  intros Hmembers Hnames Hrun Hparse Hgrp target portBlockOff.
  split; [| apply anchor_messages_differ].
  unfold getAnchorsForGroup, bind at 1. rewrite Hfetch.
  unfold bind at 1, loadAll. fold (objectsOf st1 refs). rewrite Hdef.
  assert (Hlen : Nat.eqb (length members) 0 = false)
    by (destruct members; [contradiction | reflexivity]).
  rewrite Hlen.
  unfold bind at 1, mapErr, bind at 1. rewrite (execute_ok _ _ _ _ _ _ Hrun).
  rewrite Hparse. cbn [liftResult]. unfold ret at 1. rewrite Hgrp.
  rewrite (anchorLoop_spec catalog (byIdOf members)); [| | left; reflexivity ..].
  - cbn [orFirst]. fold target portBlockOff. unfold noTargetMessage, noPortBlockOffMessage.
    assert (Hfound : forall ty rid,
              firstOfType (byIdOf members) ty (member_ids grp) = Some rid ->
              Js.truthy (Some rid) = true).
    { intros ty rid Hfind. apply find_some in Hfind. destruct Hfind as [_ Hres].
      unfold resolvesTo in Hres. destruct (byIdOf members !! rid) as [r|] eqn:Hr;
        [| discriminate].
      destruct (byIdOf_lookup _ _ _ Hr) as [Hin <-].
      apply truthy_nonempty, Hnames, Hin. }
    destruct target as [t|] eqn:Ht; [| reflexivity].
    rewrite (Hfound _ _ Ht).
    destruct portBlockOff as [o|] eqn:Ho; [| reflexivity].
    rewrite (Hfound _ _ Ho). reflexivity.
  - intros rid r Hr. destruct (byIdOf_lookup _ _ _ Hr) as [Hin Hname].
    split; [exact Hname |]. rewrite <- Hname. apply Hnames, Hin.
Qed.

Lemma getAnchorsForGroup_first_of_type_witness :
  fetchResources Sample.catalog Sample.parse Sample.idle Sample.fresh
  = (Ok [0; 1; 2; 3],
     snd (fetchResources Sample.catalog Sample.parse Sample.idle Sample.fresh))
  /\ fst (getAnchorsForGroup Sample.catalog Sample.parse Sample.idle Sample.g1 Sample.fresh)
     = Ok {| targetPrimitiveId := "iscsi_TARGET_g1"; portBlockOffId := "iscsi_PBOFF_g1" |}.
Proof.
  assert (Hfetch : fetchResources Sample.catalog Sample.parse Sample.idle Sample.fresh
                   = (Ok [0; 1; 2; 3],
                      snd (fetchResources Sample.catalog Sample.parse Sample.idle
                             Sample.fresh)))
    by (vm_compute; reflexivity).
  split; [exact Hfetch |].
  pose proof (getAnchorsForGroup_first_of_type Sample.catalog Sample.parse Sample.idle
                Sample.g1 Sample.fresh _ [0; 1; 2; 3] Sample.configProcess tt Sample.config
                {| groupId := "g1";
                   member_ids := ["iscsi_VIP_g1"; "iscsi_TARGET_g1"; "iscsi_LUN_g1";
                                  "iscsi_PBOFF_g1"] |}
                Hfetch) as H.
  cbv zeta in H.
  destruct H as [H _].
  - vm_compute. discriminate.
  - intros r Hin. vm_compute in Hin.
    destruct Hin as [<- | [<- | [<- | [<- | []]]]]; discriminate.
  - vm_compute. reflexivity.
  - vm_compute. reflexivity.
  - vm_compute. reflexivity.
  - rewrite H. vm_compute. reflexivity.
Defined.

(** ** The capture of a location answer *)

Lemma matchHere_suffix (pre suf : list RegExp.item) prev cap s r :
  RegExp.matchHere (pre ++ suf) prev cap s = Some r ->
  exists prev' cap' s', RegExp.matchHere suf prev' cap' s' = Some r.
Proof.
  revert prev cap s. induction pre as [|it pre IH]; intros prev cap s H.
  - exists prev, cap, s. exact H.
  - destruct it as [| | c ic | p | greedy p | |]; cbn [app RegExp.matchHere] in H.
    + destruct (RegExp.atLineStart prev); [eapply IH; exact H | discriminate].
    + destruct (RegExp.atBoundary prev s); [eapply IH; exact H | discriminate].
    + destruct s as [|d s]; [discriminate |].
      destruct (RegExp.charEq ic c d); [eapply IH; exact H | discriminate].
    + destruct s as [|d s]; [discriminate |].
      destruct (p d); [eapply IH; exact H | discriminate].
    + revert prev cap H. induction s as [|d s IHs]; intros prev cap H.
      * destruct greedy; cbn in H.
        -- eapply IH; exact H.
        -- destruct (RegExp.matchHere (pre ++ suf) prev cap EmptyString) eqn:Hk;
             [| discriminate].
           eapply IH; rewrite Hk; exact H.
      * destruct greedy.
        -- destruct (p d) eqn:Hp.
           ++ match type of H with
              | match ?more with _ => _ end = _ => destruct more as [r'|] eqn:Hmore
              end.
              ** inversion H; subst r'. eapply IHs; exact Hmore.
              ** eapply IH; exact H.
           ++ eapply IH; exact H.
        -- destruct (RegExp.matchHere (pre ++ suf) prev cap (String d s)) eqn:Hk.
           ++ eapply IH; rewrite Hk; exact H.
           ++ destruct (p d) eqn:Hp; [| discriminate]. eapply IHs; exact H.
    + eapply IH; exact H.
    + eapply IH; exact H.
Qed.

Lemma search_matchHere (items : list RegExp.item) prev s r :
  RegExp.search items prev s = Some r ->
  exists prev' s', RegExp.matchHere items prev' RegExp.NoCapture s' = Some r.
Proof.
  revert prev. induction s as [|c s IH]; intros prev H; cbn [RegExp.search] in H.
  - destruct (RegExp.matchHere items prev RegExp.NoCapture EmptyString) eqn:Hm;
      [| discriminate].
    exists prev, EmptyString. rewrite Hm. exact H.
  - destruct (RegExp.matchHere items prev RegExp.NoCapture (String c s)) eqn:Hm.
    + exists prev, (String c s). rewrite Hm. exact H.
    + eapply IH; exact H.
Qed.

Lemma string_of_rev_nonempty (rv : list ascii) :
  rv <> [] -> string_of_list_ascii (List.rev rv) <> EmptyString.
Proof.
  intros Hne Heq. apply Hne.
  apply (f_equal list_ascii_of_string) in Heq.
  rewrite list_ascii_of_string_of_list_ascii in Heq. cbn in Heq.
  apply (f_equal (@List.rev ascii)) in Heq. rewrite rev_involutive in Heq. exact Heq.
Qed.

(** A one-or-more capture at the end of a pattern is never empty. *)
Lemma capture_plus_nonempty (p : ascii -> bool) prev cap s c rest :
  RegExp.matchHere
    [RegExp.CaptureOpen; RegExp.Class p; RegExp.Star true p; RegExp.CaptureClose]
    prev cap s = Some (c, rest) ->
  exists g, c = RegExp.Captured g /\ g <> EmptyString.
Proof.
  cbn [RegExp.matchHere]. destruct s as [|d s]; [discriminate |].
  destruct (p d); [| discriminate]. cbn [RegExp.push].
  assert (Hne : [d] <> []) by discriminate. revert Hne.
  generalize (Some d) as prev'. generalize [d] as rv.
  intros rv prev' Hne. revert rv Hne prev'.
  induction s as [|e s IH]; intros rv Hne prev' H.
  - cbn in H. inversion H; subst. eexists. split; [reflexivity |].
    apply string_of_rev_nonempty, Hne.
  - destruct (p e) eqn:Hp.
    + match type of H with
      | match ?more with _ => _ end = _ => destruct more as [r'|] eqn:Hmore
      end.
      * inversion H; subst r'. eapply (IH (e :: rv)); [discriminate | exact Hmore].
      * cbn in H. inversion H; subst. eexists. split; [reflexivity |].
        apply string_of_rev_nonempty, Hne.
    + cbn in H. inversion H; subst. eexists. split; [reflexivity |].
      apply string_of_rev_nonempty, Hne.
Qed.

Lemma runningOn_capture (text : string) m1 rest :
  RegExp.exec RegExp.runningOn text = Some (m1, rest) ->
  exists g, m1 = Some g /\ g <> EmptyString.
Proof.
  unfold RegExp.exec. intros H.
  destruct (RegExp.search RegExp.runningOn None text) as [[c rest']|] eqn:Hs;
    [| discriminate].
  destruct (search_matchHere _ _ _ _ Hs) as (prev' & s' & Hm).
  change RegExp.runningOn
    with ((RegExp.literal true "is running on:" ++ RegExp.plus RegExp.isSpace)
          ++ [RegExp.CaptureOpen; RegExp.Class RegExp.notSpace;
              RegExp.Star true RegExp.notSpace; RegExp.CaptureClose]) in Hm.
  destruct (matchHere_suffix _ _ _ _ _ _ Hm) as (prev2 & cap2 & s2 & Hsuf).
  destruct (capture_plus_nonempty _ _ _ _ _ _ Hsuf) as (g & -> & Hg).
  inversion H; subst. exists g. split; [reflexivity | exact Hg].
Qed.

(** ** The per-member location loop *)

Section Locate.

Context {W : Type} (server : Server W).

Lemma locate_ok (rid : string) (st st' : State W) (o : option string) :
  locate server rid st = (Ok o, st') ->
  (o = None \/ exists g, o = Some g /\ g <> EmptyString)
  /\ store st' = store st /\ currentResources st' = currentResources st.
Proof.
  unfold locate, mapErr, bind, execute, ret.
  destruct (run server _ false (world st)) as [[p | e] w]; [| discriminate].
  intros H. inversion H; subst. split; [| split; reflexivity].
  destruct (RegExp.exec RegExp.runningOn (getStdout p)) as [[m1 rest]|] eqn:Hexec.
  - right. eapply runningOn_capture. exact Hexec.
  - left. reflexivity.
Qed.

Lemma locateMembers_spec (members : list PCSResource) (pm0 : list PerMember.t)
    (nc0 : NodeCounts.t) (st st' : State W) pm nc :
  locateMembers server members pm0 nc0 st = (Ok (pm, nc), st') ->
  exists entries,
    pm = pm0 ++ entries
    /\ List.map PerMember.id entries = List.map name members
    /\ nc = tally entries nc0
    /\ Forall wellFormedReport entries
    /\ store st' = store st /\ currentResources st' = currentResources st.
Proof.
  revert pm0 nc0 st. induction members as [|r members IH]; intros pm0 nc0 st H.
  - cbn in H. inversion H; subst. exists []. rewrite app_nil_r.
    repeat split; constructor.
  - cbn [locateMembers] in H. unfold bind at 1 in H.
    destruct (locate server (name r) st) as [[node | e | x] st1] eqn:Hloc;
      [| discriminate | discriminate].
    destruct (locate_ok _ _ _ _ Hloc) as (Hnode & Hstore & Hcache).
    destruct (IH _ _ _ H) as (entries & -> & Hids & -> & Hwf & Hstore' & Hcache').
    exists ({| PerMember.id := name r; PerMember.node := node |} :: entries).
    rewrite <- app_assoc. cbn [app List.map tally fold_left PerMember.id PerMember.node].
    rewrite Hids. unfold countNode.
    repeat split; try reflexivity; try congruence.
    constructor; [exact Hnode | exact Hwf].
Qed.

End Locate.

(** ** The tally and the majority vote *)

Lemma NodeCounts_get_set (m : NodeCounts.t) (k k' : string) (v : Z) :
  NodeCounts.get (NodeCounts.set m k v) k'
  = if String.eqb k k' then Some v else NodeCounts.get m k'.
Proof.
  induction m as [|[k0 v0] m IH]; cbn [NodeCounts.set NodeCounts.get].
  - destruct (String.eqb_spec k k'); reflexivity.
  - destruct (String.eqb_spec k0 k) as [-> | Hne]; cbn [NodeCounts.get].
    + destruct (String.eqb_spec k k'); reflexivity.
    + rewrite IH. destruct (String.eqb_spec k0 k') as [-> | Hne'].
      * destruct (String.eqb_spec k k'); [congruence | reflexivity].
      * reflexivity.
Qed.

Lemma NodeCounts_keys_set (m : NodeCounts.t) (k : string) (v : Z) :
  List.map fst (NodeCounts.set m k v)
  = if existsb (String.eqb k) (List.map fst m) then List.map fst m
    else List.map fst m ++ [k].
Proof.
  induction m as [|[k0 v0] m IH]; cbn [NodeCounts.set List.map fst existsb app].
  - reflexivity.
  - rewrite (String.eqb_sym k k0).
    destruct (String.eqb_spec k0 k) as [-> | Hne]; cbn [List.map fst orb].
    + reflexivity.
    + rewrite IH. destruct (existsb (String.eqb k) (List.map fst m)); reflexivity.
Qed.

Lemma NodeCounts_set_NoDup (m : NodeCounts.t) (k : string) (v : Z) :
  NoDup (List.map fst m) -> NoDup (List.map fst (NodeCounts.set m k v)).
Proof.
  intros Hnd. rewrite NodeCounts_keys_set.
  destruct (existsb (String.eqb k) (List.map fst m)) eqn:Hex; [exact Hnd |].
  apply NoDup_app. split; [exact Hnd | split].
  - intros x Hx Hin. apply list_elem_of_In in Hx, Hin. destruct Hin as [<- | []].
    assert (existsb (String.eqb k) (List.map fst m) = true); [| congruence].
    apply existsb_exists. exists k. split; [exact Hx | apply String.eqb_refl].
  - apply NoDup_singleton.
Qed.

Lemma NodeCounts_get_In (m : NodeCounts.t) (k : string) (c : Z) :
  NodeCounts.get m k = Some c -> In (k, c) m.
Proof.
  induction m as [|[k0 v0] m IH]; cbn [NodeCounts.get]; [discriminate |].
  destruct (String.eqb_spec k0 k) as [-> | Hne]; intros H.
  - inversion H; subst. left. reflexivity.
  - right. apply IH, H.
Qed.

Lemma NodeCounts_In_get (m : NodeCounts.t) (k : string) (c : Z) :
  NoDup (List.map fst m) -> In (k, c) m -> NodeCounts.get m k = Some c.
Proof.
  induction m as [|[k0 v0] m IH]; intros Hnd Hin; [destruct Hin |].
  cbn [List.map fst] in Hnd. apply NoDup_cons in Hnd. destruct Hnd as [Hfresh Hnd].
  cbn [NodeCounts.get]. destruct (String.eqb_spec k0 k) as [-> | Hne].
  - destruct Hin as [Heq | Hin]; [inversion Heq; reflexivity |].
    exfalso. apply Hfresh. apply list_elem_of_In.
    apply (in_map fst) in Hin. exact Hin.
  - destruct Hin as [Heq | Hin]; [inversion Heq; congruence |].
    apply IH; assumption.
Qed.

Lemma reports_snoc (pm : list PerMember.t) (x : PerMember.t) (n : string) :
  reports (pm ++ [x]) n
  = (reports pm n + if bool_decide (PerMember.node x = Some n) then 1 else 0)%Z.
Proof.
  unfold reports. rewrite List.filter_app, length_app. cbn [List.filter].
  destruct (bool_decide (PerMember.node x = Some n)); cbn [length]; lia.
Qed.

Lemma reports_nonneg (pm : list PerMember.t) (n : string) : (0 <= reports pm n)%Z.
Proof. unfold reports. lia. Qed.

Lemma tally_snoc (pm : list PerMember.t) (x : PerMember.t) (nc0 : NodeCounts.t) :
  tally (pm ++ [x]) nc0 = countNode (tally pm nc0) (PerMember.node x).
Proof. unfold tally. rewrite fold_left_app. reflexivity. Qed.

(** The table built by the loop holds, for every node, the number of
    members that reported it, and holds no node twice. *)
Lemma tally_counts (pm : list PerMember.t) :
  Forall wellFormedReport pm ->
  NoDup (List.map fst (tally pm []))
  /\ forall n, NodeCounts.get (tally pm []) n
               = if (reports pm n =? 0)%Z then None else Some (reports pm n).
Proof.
  induction pm as [|x pm IH] using rev_ind; intros Hwf.
  - split; [constructor | reflexivity].
  - apply Forall_app in Hwf. destruct Hwf as [Hwf Hx].
    inversion Hx as [|? ? Hxwf _]; subst.
    destruct (IH Hwf) as [Hnd Hget]. clear IH.
    rewrite tally_snoc. unfold countNode.
    destruct Hxwf as [Hnone | (g & Hsome & Hg)].
    + rewrite Hnone. cbn [Js.truthy]. split; [exact Hnd |].
      intros n. rewrite reports_snoc, Hnone, Hget.
      rewrite bool_decide_eq_false_2 by discriminate. rewrite Z.add_0_r. reflexivity.
    + rewrite Hsome, (truthy_nonempty g Hg).
      change (default EmptyString (Some g)) with g.
      split; [apply NodeCounts_set_NoDup, Hnd |].
      intros n. rewrite NodeCounts_get_set, reports_snoc, Hsome, !Hget.
      pose proof (reports_nonneg pm n). pose proof (reports_nonneg pm g).
      destruct (String.eqb_spec g n) as [-> | Hne].
      * rewrite bool_decide_eq_true_2 by reflexivity.
        destruct (Z.eqb_spec (reports pm n) 0) as [Hz | Hnz];
          destruct (Z.eqb_spec (reports pm n + 1) 0);
          unfold default; cbn [from_option id]; first [lia | f_equal; lia].
      * rewrite bool_decide_eq_false_2 by congruence. rewrite Z.add_0_r. reflexivity.
Qed.

Lemma best_of_fold (nc : NodeCounts.t) (b : string * Z) :
  let r := fold_left (fun best x => if (snd best <? snd x)%Z then x else best) nc b in
  (r = b \/ In r nc) /\ (snd b <= snd r)%Z /\ forall x, In x nc -> (snd x <= snd r)%Z.
Proof.
  revert b. induction nc as [|y nc IH]; intros b; cbn [fold_left].
  - split; [left; reflexivity | split; [lia | intros x []]].
  - specialize (IH (if (snd b <? snd y)%Z then y else b)). cbv zeta in IH.
    destruct IH as (Hr & Hle & Hall).
    destruct (Z.ltb_spec (snd b) (snd y)) as [Hlt | Hge].
    + split; [right; destruct Hr as [-> | Hr]; [left; reflexivity | right; exact Hr] |].
      split; [lia |]. intros x [<- | Hx]; [exact Hle | exact (Hall x Hx)].
    + split; [destruct Hr as [-> | Hr]; [left; reflexivity | right; right; exact Hr] |].
      split; [exact Hle |]. intros x [<- | Hx]; [lia | exact (Hall x Hx)].
Qed.

(** The majority vote returns a node with the highest number of reports. *)
Lemma majority_highest (pm : list PerMember.t) :
  Forall wellFormedReport pm ->
  tally pm [] <> [] ->
  (1 <= reports pm (majority (tally pm [])))%Z
  /\ forall n, (reports pm n <= reports pm (majority (tally pm [])))%Z.
Proof.
  intros Hwf Hne. destruct (tally_counts pm Hwf) as [Hnd Hget].
  assert (Hentry : forall k c, In (k, c) (tally pm []) -> c = reports pm k /\ (1 <= c)%Z).
  { intros k c Hin. pose proof (NodeCounts_In_get _ _ _ Hnd Hin) as Hk.
    rewrite Hget in Hk. pose proof (reports_nonneg pm k).
    destruct (Z.eqb_spec (reports pm k) 0); [discriminate |].
    inversion Hk; subst. split; [reflexivity | lia]. }
  unfold majority.
  pose proof (best_of_fold (tally pm []) (EmptyString, (-1)%Z)) as Hbest.
  cbv zeta in Hbest. destruct Hbest as (Hr & _ & Hall).
  set (r := fold_left _ (tally pm []) (EmptyString, (-1)%Z)) in *.
  destruct (tally pm []) as [|[k0 c0] rest] eqn:Htally; [contradiction |].
  destruct (Hentry k0 c0 (or_introl eq_refl)) as [_ Hc0].
  pose proof (Hall (k0, c0) (or_introl eq_refl)) as Hk0. cbn [snd] in Hk0.
  destruct Hr as [Hr | Hr]; [rewrite Hr in Hk0; cbn [snd] in Hk0; lia |].
  destruct r as [m c]. cbn [fst]. destruct (Hentry m c Hr) as [-> Hc].
  split; [exact Hc |]. intros n.
  pose proof (reports_nonneg pm n).
  destruct (Z.eqb_spec (reports pm n) 0) as [Hz | Hnz]; [lia |].
  specialize (Hget n). destruct (Z.eqb_spec (reports pm n) 0); [contradiction |].
  apply NodeCounts_get_In in Hget. apply (Hall _ Hget).
Qed.

(** ** Sets of names *)

Lemma NodeSet_has_In (s : list string) (x : string) : NodeSet.has s x = true <-> In x s.
Proof.
  unfold NodeSet.has. rewrite existsb_exists. split.
  - intros (y & Hin & Heq). apply String.eqb_eq in Heq. subst. exact Hin.
  - intros Hin. exists x. split; [exact Hin | apply String.eqb_refl].
Qed.

Lemma NodeSet_fold_In (l s0 : list string) (x : string) :
  In x (fold_left NodeSet.add l s0) <-> In x s0 \/ In x l.
Proof.
  revert s0. induction l as [|y l IH]; intros s0; cbn [fold_left].
  - cbn. tauto.
  - rewrite IH. unfold NodeSet.add.
    destruct (NodeSet.has s0 y) eqn:Hhas.
    + apply NodeSet_has_In in Hhas. cbn. split; [tauto |].
      intros [H | [<- | H]]; tauto.
    + rewrite in_app_iff. cbn. tauto.
Qed.

Lemma NodeSet_ofList_In (l : list string) (x : string) : In x (NodeSet.ofList l) <-> In x l.
Proof. unfold NodeSet.ofList. rewrite NodeSet_fold_In. cbn. tauto. Qed.

(** ** One run of [getGroupActiveNode] *)

Section ActiveNode.

Context {W : Type} (catalog : Catalog).
Context (parse : string -> Result PCSConfigJson JsError) (server : Server W).

Lemma group_found (g : string) (resources : list PCSResource) :
  g <> EmptyString ->
  List.filter (inGroup g) resources <> [] ->
  NodeSet.has
    (NodeSet.ofList
       (omap (fun r => match resourceGroup r with
                       | Some rg => if Js.truthy (Some (groupName rg))
                                    then Some (groupName rg) else None
                       | None => None
                       end) resources)) g = true.
Proof.
  intros Hg Hmembers. apply NodeSet_has_In, NodeSet_ofList_In.
  destruct (List.filter (inGroup g) resources) as [|r rest] eqn:Hfilter; [contradiction |].
  assert (Hr : In r (List.filter (inGroup g) resources)) by (rewrite Hfilter; left; reflexivity).
  apply filter_In in Hr. destruct Hr as [Hin Hgrp].
  apply list_elem_of_In. apply list_elem_of_omap. exists r.
  split; [apply list_elem_of_In; exact Hin |].
  unfold inGroup in Hgrp. destruct (resourceGroup r) as [rg|]; [| discriminate].
  apply String.eqb_eq in Hgrp. subst g. rewrite (truthy_nonempty _ Hg). reflexivity.
Qed.

Lemma getGroupActiveNode_run (group : PCSResourceGroup) (st st1 st2 : State W)
    (refs : list loc) (pm : list PerMember.t) (nc : NodeCounts.t) :
  fetchResources catalog parse server st = (Ok refs, st1) ->
  let members := List.filter (inGroup (groupName group)) (objectsOf st1 refs) in
  groupName group <> EmptyString ->
  members <> [] ->
  locateMembers server members [] [] st1 = (Ok (pm, nc), st2) ->
  let chosen := chooseFromMembers pm nc in
  (Js.truthy chosen = true ->
   getGroupActiveNode catalog parse server group st = (Ok (default EmptyString chosen), st2))
  /\ (Js.truthy chosen = false ->
      forall p w,
        run server statusCommand true (world st2) = (ROk p, w) ->
        parseGroupFromStatusText (getStdout p) (groupName group) = None ->
        getGroupActiveNode catalog parse server group st
        = (Threw (Raised (ProcessError
                    (inactiveMessage (groupName group) (List.map name members)
                       (List.map (fun x => PerMember.id x +:+ "->"
                                           +:+ default "NOT RUNNING" (PerMember.node x))
                                 pm)))),
           afterCommand st2 statusCommand w)).
Proof.
  intros Hfetch members.
  assert (Hdef : List.filter (inGroup (groupName group)) (objectsOf st1 refs) = members)
    by reflexivity.
  clearbody members. intros Hg Hmembers Hloc chosen.
  assert (Hhas := group_found (groupName group) (objectsOf st1 refs) Hg).
  rewrite Hdef in Hhas. specialize (Hhas Hmembers).
  assert (Hlen : Nat.eqb (length members) 0 = false)
    by (destruct members; [contradiction | reflexivity]).
  split.
  - intros Htruthy.
    unfold getGroupActiveNode, bind at 1. rewrite Hfetch.
    unfold bind at 1, loadAll. fold (objectsOf st1 refs). rewrite Hhas. cbn [negb].
    rewrite Hdef, Hlen. unfold bind at 1. rewrite Hloc.
    fold chosen. rewrite Htruthy. cbn [negb]. unfold bind, ret.
    rewrite Htruthy. reflexivity.
  - intros Hfalsy p w Hstatus Hparse.
    unfold getGroupActiveNode, bind at 1. rewrite Hfetch.
    unfold bind at 1, loadAll. fold (objectsOf st1 refs). rewrite Hhas. cbn [negb].
    rewrite Hdef, Hlen. unfold bind at 1. rewrite Hloc.
    fold chosen. rewrite Hfalsy. cbn [negb].
    unfold bind at 1, bind at 1, mapErr, bind at 1. fold statusCommand.
    rewrite (execute_ok _ _ _ _ _ _ Hstatus). unfold ret.
    rewrite Hparse. unfold orElse. rewrite Hfalsy. cbn [Js.truthy].
    rewrite Hfalsy. cbn [negb]. unfold throw, inactiveDiagnostic, inactiveMessage.
    reflexivity.
Qed.

Lemma tally_silent (pm : list PerMember.t) (nc : NodeCounts.t) :
  Forall (fun x => PerMember.node x = None) pm -> tally pm nc = nc.
Proof.
  intros Hsilent. unfold tally. revert nc.
  induction Hsilent as [|x pm Hx _ IH]; intros nc; cbn [fold_left]; [reflexivity |].
  unfold countNode at 2. rewrite Hx. cbn [Js.truthy]. apply IH.
Qed.

Lemma preferred_none (marker : string) (pm : list PerMember.t) :
  Forall (fun x => reporterWith marker x = false) pm -> preferred marker pm = None.
Proof.
  intros Hnone. unfold preferred.
  replace (List.find _ pm) with (@None PerMember.t); [reflexivity |].
  symmetry. induction Hnone as [|x pm Hx _ IH]; cbn [List.find]; [reflexivity |].
  unfold reporterWith in Hx. rewrite Hx. exact IH.
Qed.

(** The first member carrying [marker] that reported decides [preferred]. *)
Lemma preferred_first (marker : string) (before after : list PerMember.t) (x : PerMember.t) :
  Forall (fun y => reporterWith marker y = false) before ->
  reporterWith marker x = true ->
  preferred marker (before ++ x :: after) = PerMember.node x
  /\ Js.truthy (PerMember.node x) = true.
Proof.
  intros Hbefore Hx. split.
  - unfold preferred.
    replace (List.find _ (before ++ x :: after)) with (Some x); [reflexivity |].
    symmetry. induction Hbefore as [|y before Hy _ IH]; cbn [app List.find].
    + unfold reporterWith in Hx. rewrite Hx. reflexivity.
    + unfold reporterWith in Hy. rewrite Hy. exact IH.
  - unfold reporterWith in Hx. apply andb_true_iff in Hx. apply Hx.
Qed.

(** With no report at all, no strategy on the member reports chooses. *)
Lemma chooseFromMembers_silent (pm : list PerMember.t) :
  Forall (fun x => PerMember.node x = None) pm ->
  chooseFromMembers pm [] = None.
Proof.
  intros Hsilent.
  assert (Hreporter : forall marker, Forall (fun x => reporterWith marker x = false) pm).
  { intros marker. eapply List.Forall_impl; [| exact Hsilent].
    intros x Hx. unfold reporterWith. rewrite Hx. apply andb_false_r. }
  unfold chooseFromMembers, unanimous, distinctNodes.
  replace (omap _ pm) with (@nil string).
  - cbn. rewrite !preferred_none by apply Hreporter. reflexivity.
  - symmetry. induction Hsilent as [|x pm Hx _ IH]; [reflexivity |].
    cbn [omap list_omap]. rewrite Hx. cbn [Js.truthy]. apply IH.
    intros marker. specialize (Hreporter marker). inversion Hreporter; assumption.
Qed.

Lemma reports_positive (pm : list PerMember.t) (n : string) :
  (1 <= reports pm n)%Z <-> exists x, In x pm /\ PerMember.node x = Some n.
Proof.
  unfold reports. split.
  - intros Hpos.
    destruct (List.filter (fun x => bool_decide (PerMember.node x = Some n)) pm)
      as [|x rest] eqn:Hfilter; [cbn in Hpos; lia |].
    assert (Hx : In x (List.filter (fun x => bool_decide (PerMember.node x = Some n)) pm))
      by (rewrite Hfilter; left; reflexivity).
    apply filter_In in Hx. destruct Hx as [Hin Hnode].
    exists x. split; [exact Hin | apply bool_decide_eq_true in Hnode; exact Hnode].
  - intros (x & Hin & Hnode).
    assert (Hx : In x (List.filter (fun x => bool_decide (PerMember.node x = Some n)) pm)).
    { apply filter_In. split; [exact Hin | apply bool_decide_eq_true; exact Hnode]. }
    destruct (List.filter _ pm); [destruct Hx | cbn [length]; lia].
Qed.

Lemma distinctNodes_In (pm : list PerMember.t) (n : string) :
  In n (distinctNodes pm)
  <-> exists x, In x pm /\ PerMember.node x = Some n /\ n <> EmptyString.
Proof.
  unfold distinctNodes. rewrite NodeSet_ofList_In, <- list_elem_of_In, list_elem_of_omap.
  split.
  - intros (x & Hin & Hx). exists x. apply list_elem_of_In in Hin.
    destruct (Js.truthy (PerMember.node x)) eqn:Ht; [| discriminate].
    split; [exact Hin | split; [exact Hx |]].
    intros ->. rewrite Hx in Ht. discriminate.
  - intros (x & Hin & Hx & Hn). exists x. apply list_elem_of_In in Hin.
    split; [exact Hin |]. rewrite Hx, (truthy_nonempty n Hn). reflexivity.
Qed.

Lemma two_nodes_not_unanimous (pm : list PerMember.t) (a b : string) :
  a <> b -> In a (distinctNodes pm) -> In b (distinctNodes pm) ->
  length (distinctNodes pm) <> 1.
Proof.
  intros Hab Ha Hb Hlen.
  destruct (distinctNodes pm) as [|x [|y rest]]; cbn in Hlen; try discriminate.
  destruct Ha as [<- | []], Hb as [<- | []]. contradiction.
Qed.

Lemma unanimous_none (pm : list PerMember.t) :
  length (distinctNodes pm) <> 1 -> unanimous pm = None.
Proof.
  intros Hlen. unfold unanimous.
  destruct (Nat.eqb_spec (length (distinctNodes pm)) 1); [contradiction | reflexivity].
Qed.

Lemma first_such {A} (p : A -> bool) (l : list A) :
  (exists x, In x l /\ p x = true) ->
  exists before x after,
    l = before ++ x :: after /\ Forall (fun y => p y = false) before /\ p x = true.
Proof.
  induction l as [|y l IH]; intros (x & Hin & Hx); [destruct Hin |].
  destruct (p y) eqn:Hy.
  - exists [], y, l. split; [reflexivity | split; [constructor | exact Hy]].
  - destruct Hin as [-> | Hin]; [congruence |].
    destruct (IH (ex_intro _ x (conj Hin Hx))) as (before & z & after & -> & Hb & Hz).
    exists (y :: before), z, after.
    split; [reflexivity | split; [constructor; assumption | exact Hz]].
Qed.

Lemma silent_items (pm : list PerMember.t) (members : list PCSResource) :
  List.map PerMember.id pm = List.map name members ->
  Forall (fun x => PerMember.node x = None) pm ->
  List.map (fun x => PerMember.id x +:+ "->" +:+ default "NOT RUNNING" (PerMember.node x)) pm
  = List.map (fun m => name m +:+ "->NOT RUNNING") members.
Proof.
  revert members. induction pm as [|x pm IH]; intros [|m members] Hids Hsilent;
    try discriminate; [reflexivity |].
  inversion Hids as [[Hid Hrest]]. inversion Hsilent as [|? ? Hx Hpm]; subst.
  cbn [List.map]. rewrite Hx, Hid, (IH members Hrest Hpm). reflexivity.
Qed.

(** C2: when every member of the group answers its location query with no
    node and the status text yields no node either, [getGroupActiveNode]
    throws a ProcessError "Group ... appears inactive (no started
    members)." whose diagnostic lists the name of every member of the
    group and, for each member in turn, [<name>->NOT RUNNING]. *)
Theorem getGroupActiveNode_inactive_diagnostic (group : PCSResourceGroup)
    (st st1 st2 : State W) (refs : list loc) (pm : list PerMember.t) (nc : NodeCounts.t)
    (p : Process) (w : W) :
  fetchResources catalog parse server st = (Ok refs, st1) ->
  let members := List.filter (inGroup (groupName group)) (objectsOf st1 refs) in
  groupName group <> EmptyString ->
  members <> [] ->
  locateMembers server members [] [] st1 = (Ok (pm, nc), st2) ->
  Forall (fun x => PerMember.node x = None) pm ->
  run server statusCommand true (world st2) = (ROk p, w) ->
  parseGroupFromStatusText (getStdout p) (groupName group) = None ->
  List.map PerMember.id pm = List.map name members
  /\ getGroupActiveNode catalog parse server group st
     = (Threw (Raised (ProcessError
                 (inactiveMessage (groupName group) (List.map name members)
                    (List.map (fun m => name m +:+ "->NOT RUNNING") members)))),
        afterCommand st2 statusCommand w).
Proof.
  intros Hfetch members Hg Hmembers Hloc Hsilent Hstatus Hparse.
  destruct (locateMembers_spec server _ _ _ _ _ _ _ Hloc)
    as (entries & Hpm & Hids & Hnc & _).
  cbn [app] in Hpm. subst entries.
  rewrite (tally_silent pm [] Hsilent) in Hnc. subst nc.
  split; [exact Hids |].
  destruct (getGroupActiveNode_run group st st1 st2 refs pm [] Hfetch Hg Hmembers Hloc)
    as [_ Hfail].
  rewrite (chooseFromMembers_silent pm Hsilent) in Hfail.
  rewrite (Hfail eq_refl p w Hstatus Hparse).
  rewrite (silent_items pm members Hids Hsilent). reflexivity.
Qed.

Lemma orElse_none (candidate : option string) :
  Js.truthy candidate = true -> orElse None candidate = candidate.
Proof. intros H. unfold orElse. cbn [Js.truthy]. rewrite H. reflexivity. Qed.

Lemma orElse_kept (chosen candidate : option string) :
  Js.truthy chosen = true -> orElse chosen candidate = chosen.
Proof. intros H. unfold orElse. rewrite H. reflexivity. Qed.

(** Not unanimous, and [x] is the first member carrying [_VIP_] that
    reported: its node is chosen. *)
Lemma chooseFromMembers_vip (before after : list PerMember.t) (x : PerMember.t)
    (nc : NodeCounts.t) :
  length (distinctNodes (before ++ x :: after)) <> 1 ->
  Forall (fun y => reporterWith "_VIP_" y = false) before ->
  reporterWith "_VIP_" x = true ->
  chooseFromMembers (before ++ x :: after) nc = PerMember.node x
  /\ Js.truthy (PerMember.node x) = true.
Proof.
  intros Hlen Hbefore Hx.
  destruct (preferred_first "_VIP_" before after x Hbefore Hx) as [Hpref Htruthy].
  split; [| exact Htruthy].
  unfold chooseFromMembers. rewrite (unanimous_none _ Hlen), Hpref.
  rewrite (orElse_none _ Htruthy), (orElse_kept _ _ Htruthy), Htruthy. reflexivity.
Qed.

(** Not unanimous, no member carrying [_VIP_] reported, and [x] is the
    first member carrying [_TARGET_] that reported: its node is chosen. *)
Lemma chooseFromMembers_target (before after : list PerMember.t) (x : PerMember.t)
    (nc : NodeCounts.t) :
  length (distinctNodes (before ++ x :: after)) <> 1 ->
  Forall (fun y => reporterWith "_VIP_" y = false) (before ++ x :: after) ->
  Forall (fun y => reporterWith "_TARGET_" y = false) before ->
  reporterWith "_TARGET_" x = true ->
  chooseFromMembers (before ++ x :: after) nc = PerMember.node x
  /\ Js.truthy (PerMember.node x) = true.
Proof.
  intros Hlen Hvip Hbefore Hx.
  destruct (preferred_first "_TARGET_" before after x Hbefore Hx) as [Hpref Htruthy].
  split; [| exact Htruthy].
  unfold chooseFromMembers.
  rewrite (unanimous_none _ Hlen), (preferred_none "_VIP_" _ Hvip), Hpref.
  change (orElse None None) with (@None string).
  rewrite (orElse_none _ Htruthy), Htruthy. reflexivity.
Qed.

(** Not unanimous, no member of either role reported, some member did:
    the majority vote chooses. *)
Lemma chooseFromMembers_majority (pm : list PerMember.t) :
  Forall wellFormedReport pm ->
  length (distinctNodes pm) <> 1 ->
  Forall (fun y => reporterWith "_VIP_" y = false) pm ->
  Forall (fun y => reporterWith "_TARGET_" y = false) pm ->
  (exists x n, In x pm /\ PerMember.node x = Some n) ->
  chooseFromMembers pm (tally pm []) = Some (majority (tally pm []))
  /\ Js.truthy (Some (majority (tally pm []))) = true
  /\ (1 <= reports pm (majority (tally pm [])))%Z
  /\ forall n, (reports pm n <= reports pm (majority (tally pm [])))%Z.
Proof.
  intros Hwf Hlen Hvip Htarget (x & n & Hin & Hnode).
  assert (Hne : tally pm [] <> []).
  { destruct (tally_counts pm Hwf) as [_ Hget]. specialize (Hget n).
    assert (Hpos : (1 <= reports pm n)%Z) by (apply reports_positive; eauto).
    destruct (Z.eqb_spec (reports pm n) 0); [lia |].
    intros Hnil. rewrite Hnil in Hget. discriminate. }
  destruct (majority_highest pm Hwf Hne) as [Hpos Hmax].
  assert (Htruthy : Js.truthy (Some (majority (tally pm []))) = true).
  { apply reports_positive in Hpos. destruct Hpos as (y & Hy & Hynode).
    destruct (proj1 (List.Forall_forall _ _) Hwf y Hy) as [Hnone | (g & Hsome & Hg)].
    - congruence.
    - rewrite Hynode in Hsome. inversion Hsome; subst. apply truthy_nonempty, Hg. }
  split; [| split; [exact Htruthy | split; [exact Hpos | exact Hmax]]].
  unfold chooseFromMembers.
  rewrite (unanimous_none _ Hlen), (preferred_none "_VIP_" _ Hvip),
    (preferred_none "_TARGET_" _ Htarget).
  unfold orElse. cbn [Js.truthy negb andb].
  destruct (tally pm []); [contradiction | reflexivity].
Qed.

(** C1: when the reports of the members are not unanimous, the node of
    the first member whose identifier contains [_VIP_] and that reported is
    the result; when no such member reported, the node of the first
    reporting member whose identifier contains [_TARGET_]; when neither
    reported and some member did, a node with the highest number of
    reports. In particular, when the first member marked [_VIP_] that
    reported a node reports [B] while more than half of the members report
    [A], the result is [B]. *)
Theorem getGroupActiveNode_role_preference (group : PCSResourceGroup)
    (st st1 st2 : State W) (refs : list loc) (pm : list PerMember.t) (nc : NodeCounts.t) :
  fetchResources catalog parse server st = (Ok refs, st1) ->
  let members := List.filter (inGroup (groupName group)) (objectsOf st1 refs) in
  groupName group <> EmptyString ->
  members <> [] ->
  locateMembers server members [] [] st1 = (Ok (pm, nc), st2) ->
  (length (distinctNodes pm) <> 1 ->
   forall before x after,
     pm = before ++ x :: after ->
     Forall (fun y => reporterWith "_VIP_" y = false) before ->
     reporterWith "_VIP_" x = true ->
     exists n, PerMember.node x = Some n
               /\ getGroupActiveNode catalog parse server group st = (Ok n, st2))
  /\ (length (distinctNodes pm) <> 1 ->
      Forall (fun y => reporterWith "_VIP_" y = false) pm ->
      forall before x after,
        pm = before ++ x :: after ->
        Forall (fun y => reporterWith "_TARGET_" y = false) before ->
        reporterWith "_TARGET_" x = true ->
        exists n, PerMember.node x = Some n
                  /\ getGroupActiveNode catalog parse server group st = (Ok n, st2))
  /\ (length (distinctNodes pm) <> 1 ->
      Forall (fun y => reporterWith "_VIP_" y = false) pm ->
      Forall (fun y => reporterWith "_TARGET_" y = false) pm ->
      (exists x n, In x pm /\ PerMember.node x = Some n) ->
      exists m, getGroupActiveNode catalog parse server group st = (Ok m, st2)
                /\ (1 <= reports pm m)%Z
                /\ forall n, (reports pm n <= reports pm m)%Z)
  /\ (forall A B before x after,
        pm = before ++ x :: after ->
        Forall (fun y => reporterWith "_VIP_" y = false) before ->
        Js.includes (PerMember.id x) "_VIP_" = true ->
        PerMember.node x = Some B ->
        A <> B ->
        (Z.of_nat (length pm) < 2 * reports pm A)%Z ->
        getGroupActiveNode catalog parse server group st = (Ok B, st2)).
Proof.
  intros Hfetch members Hg Hmembers Hloc.
  destruct (locateMembers_spec server _ _ _ _ _ _ _ Hloc)
    as (entries & Hpm & _ & Hnc & Hwf & _).
  cbn [app] in Hpm. subst entries. subst nc.
  destruct (getGroupActiveNode_run group st st1 st2 refs pm (tally pm [])
              Hfetch Hg Hmembers Hloc) as [Hok _].
  assert (Hvip : length (distinctNodes pm) <> 1 ->
            forall before x after,
              pm = before ++ x :: after ->
              Forall (fun y => reporterWith "_VIP_" y = false) before ->
              reporterWith "_VIP_" x = true ->
              exists n, PerMember.node x = Some n
                        /\ getGroupActiveNode catalog parse server group st = (Ok n, st2)).
  { intros Hlen before x after Heq Hbefore Hx. rewrite Heq in Hlen.
    destruct (chooseFromMembers_vip before after x (tally pm []) Hlen Hbefore Hx)
      as [Hchoose Htruthy].
    rewrite <- Heq in Hchoose. rewrite Hchoose in Hok. specialize (Hok Htruthy).
    destruct (PerMember.node x) as [n|]; [| discriminate Htruthy].
    exists n. split; [reflexivity | exact Hok]. }
  split; [exact Hvip | split; [| split]].
  - intros Hlen Hnovip before x after Heq Hbefore Hx. rewrite Heq in Hlen, Hnovip.
    destruct (chooseFromMembers_target before after x (tally pm []) Hlen Hnovip Hbefore Hx)
      as [Hchoose Htruthy].
    rewrite <- Heq in Hchoose. rewrite Hchoose in Hok. specialize (Hok Htruthy).
    destruct (PerMember.node x) as [n|]; [| discriminate Htruthy].
    exists n. split; [reflexivity | exact Hok].
  - intros Hlen Hnovip Hnotarget Hsome.
    destruct (chooseFromMembers_majority pm Hwf Hlen Hnovip Hnotarget Hsome)
      as (Hchoose & Htruthy & Hpos & Hmax).
    rewrite Hchoose in Hok. specialize (Hok Htruthy).
    exists (majority (tally pm [])). split; [exact Hok | split; assumption].
  - intros A B before x after Heq Hbefore Hmark Hnode HAB Hmajor.
    assert (Hin : In x pm) by (rewrite Heq; apply in_or_app; right; left; reflexivity).
    assert (Hnonempty : forall y g, In y pm -> PerMember.node y = Some g -> g <> EmptyString).
    { intros y g Hy Hyg.
      destruct (proj1 (List.Forall_forall _ _) Hwf y Hy) as [Hnone | (g' & Hsome & Hg')];
        congruence. }
    assert (HB : B <> EmptyString) by exact (Hnonempty x B Hin Hnode).
    assert (Hreporter : reporterWith "_VIP_" x = true).
    { unfold reporterWith. rewrite Hmark, Hnode, (truthy_nonempty B HB). reflexivity. }
    assert (HA : (1 <= reports pm A)%Z) by lia.
    apply reports_positive in HA. destruct HA as (y & Hy & HyA).
    assert (Hlen : length (distinctNodes pm) <> 1).
    { apply (two_nodes_not_unanimous pm A B HAB); apply distinctNodes_In.
      - exists y. split; [exact Hy | split; [exact HyA | exact (Hnonempty y A Hy HyA)]].
      - exists x. split; [exact Hin | split; [exact Hnode | exact HB]]. }
    destruct (Hvip Hlen before x after Heq Hbefore Hreporter) as (n & Hn & Hres).
    rewrite Hnode in Hn. inversion Hn; subst n. exact Hres.
Qed.

End ActiveNode.

Lemma getGroupActiveNode_inactive_diagnostic_witness :
  fetchResources Sample.catalog Sample.parse Sample.idle Sample.fresh
  = (Ok [0; 1; 2; 3],
     snd (fetchResources Sample.catalog Sample.parse Sample.idle Sample.fresh))
  /\ fst (getGroupActiveNode Sample.catalog Sample.parse Sample.idle Sample.g1 Sample.fresh)
     = Threw (Raised (ProcessError
         (inactiveMessage "g1"
            ["iscsi_VIP_g1"; "iscsi_TARGET_g1"; "iscsi_LUN_g1"; "iscsi_PBOFF_g1"]
            ["iscsi_VIP_g1->NOT RUNNING"; "iscsi_TARGET_g1->NOT RUNNING";
             "iscsi_LUN_g1->NOT RUNNING"; "iscsi_PBOFF_g1->NOT RUNNING"]))).
Proof.
  assert (Hfetch : fetchResources Sample.catalog Sample.parse Sample.idle Sample.fresh
                   = (Ok [0; 1; 2; 3],
                      snd (fetchResources Sample.catalog Sample.parse Sample.idle
                             Sample.fresh)))
    by (vm_compute; reflexivity).
  split; [exact Hfetch |].
  pose proof (getGroupActiveNode_inactive_diagnostic Sample.catalog Sample.parse Sample.idle
                Sample.g1 Sample.fresh _
                (snd (locateMembers Sample.idle
                        (List.filter (inGroup "g1")
                           (objectsOf (snd (fetchResources Sample.catalog Sample.parse
                                              Sample.idle Sample.fresh)) [0; 1; 2; 3]))
                        [] []
                        (snd (fetchResources Sample.catalog Sample.parse Sample.idle
                                Sample.fresh))))
                [0; 1; 2; 3]
                [{| PerMember.id := "iscsi_VIP_g1"; PerMember.node := None |};
                 {| PerMember.id := "iscsi_TARGET_g1"; PerMember.node := None |};
                 {| PerMember.id := "iscsi_LUN_g1"; PerMember.node := None |};
                 {| PerMember.id := "iscsi_PBOFF_g1"; PerMember.node := None |}]
                [] {| getStdout := Sample.otherStatus; exitStatus := 0 |} tt Hfetch) as H.
  cbv zeta in H. destruct H as [_ H].
  - discriminate.
  - vm_compute. discriminate.
  - vm_compute. reflexivity.
  - repeat constructor.
  - vm_compute. reflexivity.
  - vm_compute. reflexivity.
  - rewrite H. vm_compute. reflexivity.
Defined.

Lemma getGroupActiveNode_role_preference_witness :
  fetchResources Sample.catalog Sample.parse Sample.split Sample.fresh
  = (Ok [0; 1; 2; 3],
     snd (fetchResources Sample.catalog Sample.parse Sample.split Sample.fresh))
  /\ reports Sample.splitReports "nodeA" = 3%Z
  /\ fst (getGroupActiveNode Sample.catalog Sample.parse Sample.split Sample.g1 Sample.fresh)
     = Ok "nodeB".
Proof.
  assert (Hfetch : fetchResources Sample.catalog Sample.parse Sample.split Sample.fresh
                   = (Ok [0; 1; 2; 3],
                      snd (fetchResources Sample.catalog Sample.parse Sample.split
                             Sample.fresh)))
    by (vm_compute; reflexivity).
  split; [exact Hfetch |]. split; [reflexivity |].
  pose proof (getGroupActiveNode_role_preference Sample.catalog Sample.parse Sample.split
                Sample.g1 Sample.fresh _
                (snd (locateMembers Sample.split
                        (List.filter (inGroup "g1")
                           (objectsOf (snd (fetchResources Sample.catalog Sample.parse
                                              Sample.split Sample.fresh)) [0; 1; 2; 3]))
                        [] []
                        (snd (fetchResources Sample.catalog Sample.parse Sample.split
                                Sample.fresh))))
                [0; 1; 2; 3] Sample.splitReports
                [("nodeB", 1%Z); ("nodeA", 3%Z)] Hfetch) as H.
  cbv zeta in H. destruct H as (_ & _ & _ & H).
  - discriminate.
  - vm_compute. discriminate.
  - vm_compute. reflexivity.
  - rewrite (H "nodeA" "nodeB" []
               {| PerMember.id := "iscsi_VIP_g1"; PerMember.node := Some "nodeB" |}
               (List.tl Sample.splitReports)).
    + reflexivity.
    + reflexivity.
    + constructor.
    + reflexivity.
    + reflexivity.
    + discriminate.
    + vm_compute. reflexivity.
Defined.

(** C1 as stated fails when two members marked [_VIP_] report different
    nodes: a member so marked reports [nodeB], two of the three members
    report [nodeA], and the result is [nodeA], the report of the first
    member so marked. *)
Lemma role_preference_first_vip_decides :
  (exists nc,
     locateMembers Sample2.twins Sample2.twinMembers [] [] Sample2.twinSnapshot
     = (Ok (Sample2.twinReports, nc),
        snd (locateMembers Sample2.twins Sample2.twinMembers [] [] Sample2.twinSnapshot)))
  /\ In (Sample.report "iscsi_VIP_2" (Some "nodeB")) Sample2.twinReports
  /\ Js.includes "iscsi_VIP_2" "_VIP_" = true
  /\ (Z.of_nat (length Sample2.twinReports) < 2 * reports Sample2.twinReports "nodeA")%Z
  /\ fst (getGroupActiveNode Sample.catalog Sample2.parseTwins Sample2.twins Sample.g1
            Sample.fresh) = Ok "nodeA"
  /\ fst (getGroupActiveNode Sample.catalog Sample2.parseTwins Sample2.twins Sample.g1
            Sample.fresh) <> Ok "nodeB".
Proof.
  split; [eexists; vm_compute; reflexivity |].
  split; [right; left; reflexivity |].
  split; [reflexivity |].
  split; [vm_compute; reflexivity |].
  split; [vm_compute; reflexivity | vm_compute; discriminate].
Qed.

(** ** The resolver on the examples of the specification *)

(** All members report the same node. *)
Example resolve_unanimous :
  fst (getGroupActiveNode Sample.catalog Sample.parse
         (Sample.cluster Sample.config (fun _ => Some "nodeA") EmptyString)
         Sample.g1 Sample.fresh)
  = Ok "nodeA".
Proof. vm_compute. reflexivity. Qed.

(** Reports A, A, B of members without a role marker: the majority. *)
Example choose_majority :
  let pm := [Sample.report "rbd_a" (Some "nodeA"); Sample.report "rbd_b" (Some "nodeA");
             Sample.report "rbd_c" (Some "nodeB")] in
  chooseFromMembers pm (tally pm []) = Some "nodeA".
Proof. vm_compute. reflexivity. Qed.

(** A tie is broken by the node seen first. *)
Example choose_tie_first_seen :
  let pm := [Sample.report "rbd_a" (Some "nodeB"); Sample.report "rbd_b" (Some "nodeA")] in
  chooseFromMembers pm (tally pm []) = Some "nodeB".
Proof. vm_compute. reflexivity. Qed.

(** No member reports; the status text names the node. *)
Example resolve_from_status_text :
  fst (getGroupActiveNode Sample.catalog Sample.parse
         (Sample.cluster Sample.config (fun _ => None) Sample.statusOfG1)
         Sample.g1 Sample.fresh)
  = Ok "node3".
Proof. vm_compute. reflexivity. Qed.

(** With two members marked [_VIP_] the first that reported decides. *)
Example choose_first_vip :
  let pm := [Sample.report "iscsi_VIP_1" (Some "nodeA");
             Sample.report "iscsi_VIP_2" (Some "nodeB");
             Sample.report "iscsi_LUN_1" (Some "nodeA")] in
  chooseFromMembers pm (tally pm []) = Some "nodeA".
Proof. vm_compute. reflexivity. Qed.

(** * Further properties of the manager *)

(** ** Deleting from the cache *)

Lemma filter_refs {A B} (keep : B -> bool) (f : A -> B) (refs : list A) :
  fst <$> List.filter (fun x => keep (snd x)) (combine refs (List.map f refs))
  = List.filter (fun l => keep (f l)) refs.
Proof.
  induction refs as [|l refs IH]; [reflexivity |].
  cbn [List.map combine List.filter snd]. destruct (keep (f l)); cbn [fmap list_fmap fst].
  - f_equal. exact IH.
  - exact IH.
Qed.

Lemma filterCache_ok {W} (keep : PCSResource -> bool) (st : State W) (refs : list loc) :
  currentResources st = Some refs ->
  filterCache keep st
  = (Ok tt, {| world := world st; issued := issued st; store := store st;
               currentResources :=
                 Some (List.filter (fun l => keep (store st !!! l)) refs) |}).
Proof.
  intros Hcache. unfold filterCache, bind, getCache. rewrite Hcache.
  unfold loadAll, setCache. cbn [world issued store currentResources].
  rewrite filter_refs. reflexivity.
Qed.

Lemma deleteResource_ok {W} (server : Server W) (resourceName : string)
    (st : State W) (refs : list loc) (p : Process) (w : W) :
  currentResources st = Some refs ->
  run server (deleteCommand resourceName) true (world st) = (ROk p, w) ->
  deleteResource server resourceName st
  = (Ok tt, {| world := w; issued := issued st ++ [deleteCommand resourceName];
               store := store st;
               currentResources :=
                 Some (List.filter
                         (fun l => negb (String.eqb (name (store st !!! l)) resourceName))
                         refs) |}).
Proof.
  intros Hcache Hrun.
  unfold deleteResource, bind. fold (deleteCommand resourceName).
  rewrite (execute_ok _ _ _ _ _ _ Hrun).
  rewrite (filterCache_ok _ (afterCommand st (deleteCommand resourceName) w) refs Hcache).
  reflexivity.
Qed.

Lemma kept_other_names (objects : list PCSResource) (resourceName : string)
    (refs : list loc) :
  Forall (fun l => name (objects !!! l) <> resourceName)
         (List.filter (fun l => negb (String.eqb (name (objects !!! l)) resourceName)) refs).
Proof.
  apply List.Forall_forall. intros l Hl. apply filter_In in Hl. destruct Hl as [_ Hl].
  destruct (String.eqb_spec (name (objects !!! l)) resourceName); [discriminate | assumption].
Qed.

(** X1: once the delete command succeeded on a populated cache,
    [deleteResource] leaves in the cache exactly the references whose
    object has another name, in their order: no cached resource bears the
    deleted name any more and every other one is still there. The store is
    not touched. *)
Theorem deleteResource_removes_every_match {W} (server : Server W) (resourceName : string)
    (st : State W) (refs : list loc) (p : Process) (w : W) :
  currentResources st = Some refs ->
  run server (deleteCommand resourceName) true (world st) = (ROk p, w) ->
  let kept := List.filter (fun l => negb (String.eqb (name (store st !!! l)) resourceName))
                          refs in
  deleteResource server resourceName st
  = (Ok tt, {| world := w; issued := issued st ++ [deleteCommand resourceName];
               store := store st; currentResources := Some kept |})
  /\ Forall (fun l => name (store st !!! l) <> resourceName) kept
  /\ (forall l, In l refs -> name (store st !!! l) <> resourceName -> In l kept).
Proof.
  intros Hcache Hrun kept. split; [| split].
  - exact (deleteResource_ok server resourceName st refs p w Hcache Hrun).
  - apply kept_other_names.
  - intros l Hin Hne. apply filter_In. split; [exact Hin |].
    destruct (String.eqb_spec (name (store st !!! l)) resourceName); [contradiction | reflexivity].
Qed.

(** X2: once the delete command succeeded on a populated cache,
    [deleteResourceGroup] leaves in the cache exactly the references whose
    object does not refer to the deleted group: resources of other groups
    and resources without a group stay, in their order. *)
Theorem deleteResourceGroup_removes_members {W} (server : Server W)
    (resourceGroupName : string) (st : State W) (refs : list loc) (p : Process) (w : W) :
  currentResources st = Some refs ->
  run server (deleteCommand resourceGroupName) true (world st) = (ROk p, w) ->
  let kept := List.filter (fun l => negb (inGroup resourceGroupName (store st !!! l))) refs in
  deleteResourceGroup server resourceGroupName st
  = (Ok tt, {| world := w; issued := issued st ++ [deleteCommand resourceGroupName];
               store := store st; currentResources := Some kept |})
  /\ Forall (fun l => inGroup resourceGroupName (store st !!! l) = false) kept
  /\ (forall l, In l refs -> resourceGroup (store st !!! l) = None -> In l kept)
  /\ (forall l g, In l refs -> resourceGroup (store st !!! l) = Some g ->
                  groupName g <> resourceGroupName -> In l kept).
Proof.
  intros Hcache Hrun kept. split; [| split; [| split]].
  - unfold deleteResourceGroup, bind. fold (deleteCommand resourceGroupName).
    rewrite (execute_ok _ _ _ _ _ _ Hrun).
    rewrite (filterCache_ok _ (afterCommand st (deleteCommand resourceGroupName) w) refs
               Hcache).
    reflexivity.
  - apply List.Forall_forall. intros l Hl. apply filter_In in Hl. destruct Hl as [_ Hl].
    apply negb_true_iff in Hl. exact Hl.
  - intros l Hin Hnone. apply filter_In. split; [exact Hin |].
    unfold inGroup. rewrite Hnone. reflexivity.
  - intros l g Hin Hsome Hne. apply filter_In. split; [exact Hin |].
    unfold inGroup. rewrite Hsome.
    destruct (String.eqb_spec (groupName g) resourceGroupName); [contradiction | reflexivity].
Qed.

Lemma deleteResource_removes_every_match_witness :
  currentResources Sample.ranked = Some [0; 1; 2; 3]
  /\ deleteResource Sample.succeeding "iscsi_LVM_g1" Sample.ranked
     = (Ok tt, {| world := tt; issued := [deleteCommand "iscsi_LVM_g1"];
                  store := store Sample.ranked; currentResources := Some [0; 2; 3] |}).
Proof.
  split; [reflexivity |].
  exact (proj1 (deleteResource_removes_every_match Sample.succeeding "iscsi_LVM_g1"
                  Sample.ranked [0; 1; 2; 3]
                  {| getStdout := EmptyString; exitStatus := 0 |} tt eq_refl eq_refl)).
Defined.

Lemma deleteResourceGroup_removes_members_witness :
  currentResources Sample.ranked = Some [0; 1; 2; 3]
  /\ deleteResourceGroup Sample.succeeding "g1" Sample.ranked
     = (Ok tt, {| world := tt; issued := [deleteCommand "g1"];
                  store := store Sample.ranked; currentResources := Some [3] |}).
Proof.
  split; [reflexivity |].
  exact (proj1 (deleteResourceGroup_removes_members Sample.succeeding "g1"
                  Sample.ranked [0; 1; 2; 3]
                  {| getStdout := EmptyString; exitStatus := 0 |} tt eq_refl eq_refl)).
Defined.

(** ** Creating, then deleting *)

Lemma lookup_total_app_old (objects : list PCSResource) (r : PCSResource) (l : loc) :
  l < length objects -> (objects ++ [r]) !!! l = objects !!! l.
Proof.
  intros Hlt. rewrite !list_lookup_total_alt. rewrite lookup_app_l by exact Hlt. reflexivity.
Qed.

Lemma lookup_total_app_new (objects : list PCSResource) (r : PCSResource) :
  (objects ++ [r]) !!! length objects = r.
Proof.
  rewrite list_lookup_total_alt. rewrite lookup_app_r by lia.
  rewrite Nat.sub_diag. reflexivity.
Qed.

(** X3: on a populated cache whose references denote stored objects,
    [createResource] followed by [deleteResource] of the name the resource
    was given (both commands succeeding) leaves no cached resource of that
    name; when no cached resource bore the name before, the cache is the
    one before the two calls. *)
Theorem create_then_delete_round_trip {W} (server server0 : Server W)
    (name0 creationArguments : string) (type : PCSResourceType)
    (st : State W) (refs : list loc) (p p' : Process) (w w' : W) :
  currentResources st = Some refs ->
  Forall (fun l => l < length (store st)) refs ->
  Forall (fun c => RegExp.isLineTerminator c = false)
         (list_ascii_of_string creationArguments) ->
  run server0 (createCommand (Js.replace ":" "_" name0) creationArguments) true (world st)
  = (ROk p, w) ->
  run server (deleteCommand (Js.replace ":" "_" name0)) true w = (ROk p', w') ->
  exists created st1 st2,
    createResource name0 creationArguments type server0 st = (Ok created, st1)
    /\ name (store st1 !!! created) = Js.replace ":" "_" name0
    /\ deleteResource server (Js.replace ":" "_" name0) st1 = (Ok tt, st2)
    /\ currentResources st2
       = Some (List.filter
                 (fun l => negb (String.eqb (name (store st !!! l))
                                            (Js.replace ":" "_" name0))) refs)
    /\ (forall kept, currentResources st2 = Some kept ->
          Forall (fun l => name (store st2 !!! l) <> Js.replace ":" "_" name0) kept)
    /\ (Forall (fun l => name (store st !!! l) <> Js.replace ":" "_" name0) refs ->
        currentResources st2 = Some refs).
Proof.
  intros Hcache Hvalid Hline Hcreate Hdelete.
  set (n := Js.replace ":" "_" name0) in *.
  set (r := {| name := n; resourceType := type; resourceGroup := None |}).
  pose proof (createResource_ok name0 creationArguments type server0 st refs p w
                Hline Hcache Hcreate) as Hc.
  fold n in Hc. fold r in Hc.
  eexists _, _, _. split; [exact Hc |].
  cbn [store]. split; [rewrite lookup_total_app_new; reflexivity |].
  match type of Hc with _ = (_, ?s1) => set (st1 := s1) in * end.
  pose proof (deleteResource_ok server n st1 (refs ++ [length (store st)])
                p' w' eq_refl Hdelete) as Hd.
  pose proof (kept_other_names (store st1) n (refs ++ [length (store st)])) as Hnone.
  assert (Hfilter :
    List.filter (fun l => negb (String.eqb (name (store st1 !!! l)) n))
                (refs ++ [length (store st)])
    = List.filter (fun l => negb (String.eqb (name (store st !!! l)) n)) refs).
  { rewrite List.filter_app. cbn [List.filter]. unfold st1 at 2. cbn [store].
    rewrite lookup_total_app_new. cbn [name]. rewrite String.eqb_refl. cbn [negb].
    rewrite app_nil_r. apply List.filter_ext_in. intros l Hl.
    unfold st1. cbn [store]. rewrite lookup_total_app_old; [reflexivity |].
    exact (proj1 (List.Forall_forall _ _) Hvalid l Hl). }
  split; [exact Hd |]. cbn [currentResources].
  split; [f_equal; exact Hfilter |]. split.
  - intros kept Hkept. inversion Hkept; subst kept. exact Hnone.
  - intros Hfresh.
    transitivity (Some (List.filter
                          (fun l => negb (String.eqb (name (store st !!! l)) n)) refs));
      [f_equal; exact Hfilter |].
    f_equal.
    clear -Hfresh. induction Hfresh as [|l refs Hl _ IH]; [reflexivity |].
    cbn [List.filter]. destruct (String.eqb_spec (name (store st !!! l)) n);
      [contradiction |]. cbn [negb]. f_equal. exact IH.
Qed.

Lemma create_then_delete_round_trip_witness :
  currentResources Sample.ranked = Some [0; 1; 2; 3]
  /\ exists created st1 st2,
       createResource "rbd:img" "pool=rbd" 4 Sample.succeeding Sample.ranked
       = (Ok created, st1)
       /\ deleteResource Sample.succeeding "rbd_img" st1 = (Ok tt, st2)
       /\ currentResources st2 = Some [0; 1; 2; 3].
Proof.
  split; [reflexivity |].
  destruct (create_then_delete_round_trip Sample.succeeding Sample.succeeding
              "rbd:img" "pool=rbd" 4 Sample.ranked [0; 1; 2; 3]
              {| getStdout := EmptyString; exitStatus := 0 |}
              {| getStdout := EmptyString; exitStatus := 0 |} tt tt)
    as (created & st1 & st2 & Hcreate & _ & Hdelete & _ & _ & Hsame).
  - reflexivity.
  - cbn. repeat constructor.
  - vm_compute. repeat constructor.
  - reflexivity.
  - reflexivity.
  - exists created, st1, st2. split; [exact Hcreate | split; [exact Hdelete |]].
    apply Hsame. repeat constructor; vm_compute; discriminate.
Defined.

(** ** Reading the snapshot *)

Lemma fetchResources_cases {W} catalog parse (server : Server W) (st : State W) :
  currentResources st = None ->
  match run server bulkQuery true (world st) with
  | (RErr e, w) =>
      fetchResources catalog parse server st
      = (Err (fetchFailure e), afterCommand st bulkQuery w)
  | (ROk p, w) =>
      match parse (getStdout p) with
      | RErr e =>
          fetchResources catalog parse server st
          = (Err (fetchFailure e), afterCommand st bulkQuery w)
      | ROk cfg =>
          fetchResources catalog parse server st
          = (Ok (seq (length (store st)) (length (resourcesOfConfig catalog cfg))),
             {| world := w; issued := issued st ++ [bulkQuery];
                store := store st ++ resourcesOfConfig catalog cfg;
                currentResources :=
                  Some (seq (length (store st))
                            (length (resourcesOfConfig catalog cfg))) |})
      end
  end.
Proof.
  intros Hnone. unfold fetchResources, bind, getCache, mapErr, execute. cbn beta.
  rewrite Hnone.
  destruct (run server bulkQuery true (world st)) as [[p | e] w]; [| reflexivity].
  unfold liftResult. destruct (parse (getStdout p)) as [cfg | e]; [| reflexivity].
  unfold ret at 1. rewrite allocAll_spec. reflexivity.
Qed.

(** X4: with an absent cache, a [fetchResources] whose bulk query fails,
    or whose output does not parse, returns "Unable to get current PCS
    configuration: <cause>" and leaves the cache absent; the failure is not
    remembered: the next call issues the bulk query again. *)
Theorem fetchResources_failure_not_cached {W} catalog parse (server : Server W)
    (st : State W) :
  currentResources st = None ->
  (forall e w,
      run server bulkQuery true (world st) = (RErr e, w) ->
      fetchResources catalog parse server st
      = (Err (fetchFailure e), afterCommand st bulkQuery w))
  /\ (forall p w e,
      run server bulkQuery true (world st) = (ROk p, w) ->
      parse (getStdout p) = RErr e ->
      fetchResources catalog parse server st
      = (Err (fetchFailure e), afterCommand st bulkQuery w))
  /\ (forall e st1,
      fetchResources catalog parse server st = (Err e, st1) ->
      currentResources st1 = None
      /\ store st1 = store st
      /\ issued (snd (fetchResources catalog parse server st1))
         = issued st ++ [bulkQuery; bulkQuery]).
Proof.
  intros Hnone.
  assert (Hissued : forall s : State W, currentResources s = None ->
            issued (snd (fetchResources catalog parse server s)) = issued s ++ [bulkQuery]).
  { intros s Hs. pose proof (fetchResources_cases catalog parse server s Hs) as Hcases.
    destruct (run server bulkQuery true (world s)) as [[p | e] w];
      [destruct (parse (getStdout p)) |]; rewrite Hcases; reflexivity. }
  pose proof (fetchResources_cases catalog parse server st Hnone) as Hcases.
  split; [| split].
  - intros e w Hrun. rewrite Hrun in Hcases. exact Hcases.
  - intros p w e Hrun Hparse. rewrite Hrun, Hparse in Hcases. exact Hcases.
  - intros e st1 Hfetch.
    assert (Hst1 : currentResources st1 = None /\ store st1 = store st
                   /\ issued st1 = issued st ++ [bulkQuery]).
    { destruct (run server bulkQuery true (world st)) as [[p | e'] w];
        [destruct (parse (getStdout p)) |];
        rewrite Hcases in Hfetch; inversion Hfetch; subst;
        (split; [exact Hnone | split; reflexivity]). }
    destruct Hst1 as (Hc & Hs & Hi).
    split; [exact Hc | split; [exact Hs |]].
    rewrite (Hissued st1 Hc), Hi, <- app_assoc. reflexivity.
Qed.

Lemma fetchResources_failure_not_cached_witness :
  currentResources Sample.fresh = None
  /\ fetchResources Sample.catalog Sample.parse Sample.failing Sample.fresh
     = (Err (fetchFailure (ProcessError "pcs: command failed")),
        afterCommand Sample.fresh bulkQuery tt)
  /\ fetchResources Sample.catalog Sample.parse Sample.succeeding Sample.fresh
     = (Err (fetchFailure (mkError "SyntaxError" "Unexpected token in JSON")),
        afterCommand Sample.fresh bulkQuery tt)
  /\ issued (snd (fetchResources Sample.catalog Sample.parse Sample.failing
                    (afterCommand Sample.fresh bulkQuery tt)))
     = [bulkQuery; bulkQuery].
Proof.
  destruct (fetchResources_failure_not_cached Sample.catalog Sample.parse Sample.failing
              Sample.fresh eq_refl) as (Hrun & _ & Hretry).
  destruct (fetchResources_failure_not_cached Sample.catalog Sample.parse Sample.succeeding
              Sample.fresh eq_refl) as (_ & Hparse & _).
  pose proof (Hrun (ProcessError "pcs: command failed") tt eq_refl) as H1.
  split; [reflexivity | split; [exact H1 | split]].
  - exact (Hparse {| getStdout := EmptyString; exitStatus := 0 |} tt
             (mkError "SyntaxError" "Unexpected token in JSON") eq_refl eq_refl).
  - exact (proj2 (proj2 (Hretry _ _ H1))).
Defined.

Lemma objects_of_appended (objects new : list PCSResource) :
  List.map (fun l => (objects ++ new) !!! l) (seq (length objects) (length new)) = new.
Proof.
  revert objects. induction new as [|r new IH]; intros objects; [reflexivity |].
  cbn [length seq List.map]. f_equal.
  - rewrite list_lookup_total_alt, lookup_app_r by lia.
    rewrite Nat.sub_diag. reflexivity.
  - specialize (IH (objects ++ [r])).
    rewrite length_app, Nat.add_1_r, <- app_assoc in IH. exact IH.
Qed.

Lemma member_ids_includes (x : string) (ids : list string) :
  existsb (String.eqb x) ids = true <-> In x ids.
Proof.
  rewrite existsb_exists. split.
  - intros (y & Hin & Heq). apply String.eqb_eq in Heq. subst. exact Hin.
  - intros Hin. exists x. split; [exact Hin | apply String.eqb_refl].
Qed.

Lemma resourceOfPrimitive_some (catalog : Catalog) (groups : list GroupJson)
    (primitive : PCSResourceConfigJson) (r : PCSResource) :
  resourceOfPrimitive catalog groups primitive = Some r ->
  name r = id primitive
  /\ resourceType r <> 0
  /\ getResourceTypeOfPCSResource catalog primitive = Some (resourceType r)
  /\ (resourceType r = TARGET catalog -> exists g, resourceGroup r = Some g)
  /\ (forall g, resourceGroup r = Some g ->
        exists grp, In grp groups /\ groupId grp = groupName g
                    /\ In (name r) (member_ids grp)).
Proof.
  unfold resourceOfPrimitive.
  destruct (getResourceTypeOfPCSResource catalog primitive) as [[|t]|]; try discriminate.
  destruct (List.find _ groups) as [grp|] eqn:Hfind.
  - cbn [negb orb]. rewrite bool_decide_eq_true_2 by eauto. rewrite orb_true_r.
    intros H. inversion H; subst. cbn.
    apply find_some in Hfind. destruct Hfind as [Hin Hmem].
    apply member_ids_includes in Hmem.
    repeat split; try discriminate; eauto;
      try (intros g Hg; inversion Hg; subst; exists grp; cbn; auto).
  - rewrite bool_decide_eq_false_2 by (intros [? ?]; discriminate). rewrite orb_false_r.
    destruct (Nat.eqb_spec (S t) (TARGET catalog)) as [Heq | Hne]; [discriminate |].
    intros H. inversion H; subst. cbn.
    repeat split; try discriminate; try contradiction;
      try (intros g Hg; discriminate).
Qed.

Lemma resourceOfPrimitive_kept (catalog : Catalog) (groups : list GroupJson)
    (primitive : PCSResourceConfigJson) (t : PCSResourceType) :
  getResourceTypeOfPCSResource catalog primitive = Some t ->
  t <> 0 ->
  (t <> TARGET catalog
   \/ exists grp, In grp groups /\ In (id primitive) (member_ids grp)) ->
  exists r, resourceOfPrimitive catalog groups primitive = Some r
            /\ name r = id primitive /\ resourceType r = t.
Proof.
  intros Htype Hnz Hkeep. unfold resourceOfPrimitive. rewrite Htype.
  destruct t as [|t]; [contradiction |].
  destruct (List.find _ groups) as [grp|] eqn:Hfind.
  - rewrite bool_decide_eq_true_2 by eauto. rewrite orb_true_r.
    eexists. split; [reflexivity | split; reflexivity].
  - destruct Hkeep as [Hne | (grp & Hin & Hmem)].
    + destruct (Nat.eqb_spec (S t) (TARGET catalog)); [contradiction |].
      eexists. split; [reflexivity | split; reflexivity].
    + exfalso. apply (find_none _ _ Hfind) in Hin.
      apply member_ids_includes in Hmem. congruence.
Qed.

(** X5: a snapshot read from the cluster holds only primitives of the
    configuration that classify to a non-zero type; each resource is named
    after its primitive; a resource of type TARGET
    always has a group; a group reference names a configured group that
    lists the resource. Conversely every primitive of non-zero type that
    is not an ungrouped target is in the snapshot. *)
Theorem fetchResources_snapshot_entries {W} catalog parse (server : Server W)
    (st st1 : State W) (resources : list loc) :
  currentResources st = None ->
  fetchResources catalog parse server st = (Ok resources, st1) ->
  exists p w cfg,
    run server bulkQuery true (world st) = (ROk p, w)
    /\ parse (getStdout p) = ROk cfg
    /\ Forall (snapshotEntry catalog cfg) (objectsOf st1 resources)
    /\ (forall primitive t,
          In primitive (default [] (primitives cfg)) ->
          getResourceTypeOfPCSResource catalog primitive = Some t ->
          t <> 0 ->
          (t <> TARGET catalog
           \/ exists grp, In grp (default [] (groups cfg))
                          /\ In (id primitive) (member_ids grp)) ->
          exists r, In r (objectsOf st1 resources)
                    /\ name r = id primitive /\ resourceType r = t).
Proof.
  intros Hnone Hfetch.
  destruct (fetchResources_first _ _ _ _ _ _ Hnone Hfetch)
    as (p & w & cfg & Hrun & Hparse & -> & ->).
  exists p, w, cfg. split; [exact Hrun | split; [exact Hparse |]].
  unfold objectsOf. cbn [store]. rewrite objects_of_appended.
  unfold resourcesOfConfig. split.
  - apply List.Forall_forall. intros r Hr.
    apply list_elem_of_In, list_elem_of_omap in Hr. destruct Hr as (primitive & Hin & Hsome).
    apply list_elem_of_In in Hin.
    destruct (resourceOfPrimitive_some _ _ _ _ Hsome) as (Hname & Hnz & Htype & Htarget & Hgroup).
    split; [exact Hnz |]. split; [exists primitive; auto |]. split; assumption.
  - intros primitive t Hin Htype Hnz Hkeep.
    destruct (resourceOfPrimitive_kept _ _ _ _ Htype Hnz Hkeep) as (r & Hsome & Hname & Hty).
    exists r. split; [| split; assumption].
    apply list_elem_of_In, list_elem_of_omap. exists primitive.
    split; [apply list_elem_of_In; exact Hin | exact Hsome].
Qed.

Lemma fetchResources_snapshot_entries_witness :
  currentResources Sample.fresh = None
  /\ Forall (snapshotEntry Sample.catalog Sample.config)
       (objectsOf (snd (fetchResources Sample.catalog Sample.parse Sample.idle Sample.fresh))
                  [0; 1; 2; 3]).
Proof.
  split; [reflexivity |].
  assert (Hfetch : fetchResources Sample.catalog Sample.parse Sample.idle Sample.fresh
                   = (Ok [0; 1; 2; 3],
                      snd (fetchResources Sample.catalog Sample.parse Sample.idle
                             Sample.fresh)))
    by (vm_compute; reflexivity).
  destruct (fetchResources_snapshot_entries Sample.catalog Sample.parse Sample.idle
              Sample.fresh _ [0; 1; 2; 3] eq_refl Hfetch)
    as (p & w & cfg & Hrun & Hparse & Hall & _).
  assert (Hcfg : cfg = Sample.config).
  { vm_compute in Hrun. inversion Hrun; subst p. vm_compute in Hparse.
    inversion Hparse. reflexivity. }
  rewrite Hcfg in Hall. exact Hall.
Defined.

(** ** Classification *)

Lemma classifyFrom_sound (catalog : Catalog) (types : list PCSResourceType)
    (resource : PCSResourceConfigJson) (t : PCSResourceType) :
  classifyFrom catalog types resource = Some t ->
  (agent_name_type resource <> "portblock"
   /\ In t types
   /\ internalTypeName (infoOf catalog t) = agent_name_type resource)
  \/ (agent_name_type resource = "portblock"
      /\ (exists t0, In t0 types /\ internalTypeName (infoOf catalog t0) = "portblock")
      /\ exists value,
           firstAction (instance_attributes resource) = Some value
           /\ t = if String.eqb value "block"
                  then PORTBLOCK_ON catalog else PORTBLOCK_OFF catalog).
Proof.
  induction types as [|t0 types IH]; cbn [classifyFrom]; [discriminate |].
  destruct (String.eqb_spec (internalTypeName (infoOf catalog t0)) (agent_name_type resource))
    as [Hmatch | Hdiff].
  - destruct (String.eqb_spec (internalTypeName (infoOf catalog t0)) "portblock")
      as [Hpb | Hplain].
    + destruct (firstAction (instance_attributes resource)) as [value|] eqn:Haction.
      * intros H. inversion H; subst t. right.
        split; [congruence |]. split; [exists t0; split; [left; reflexivity | exact Hpb] |].
        exists value. split; reflexivity.
      * intros H. destruct (IH H) as [(Hne & _) | (Hagent & (t1 & Hin & Ht1) & Hrest)];
          [congruence |].
        right. split; [exact Hagent |]. split; [exists t1; split; [right |]; assumption |].
        exact Hrest.
    + intros H. inversion H; subst t. left.
      split; [congruence |]. split; [left; reflexivity | exact Hmatch].
  - intros H. destruct (IH H) as [(Hne & Hin & Hname) | (Hagent & (t1 & Hin & Ht1) & Hrest)].
    + left. split; [exact Hne |]. split; [right; exact Hin | exact Hname].
    + right. split; [exact Hagent |]. split; [exists t1; split; [right |]; assumption |].
      exact Hrest.
Qed.

Lemma classifyFrom_unknown (catalog : Catalog) (types : list PCSResourceType)
    (resource : PCSResourceConfigJson) :
  (forall t, In t types -> internalTypeName (infoOf catalog t) <> agent_name_type resource) ->
  classifyFrom catalog types resource = None.
Proof.
  induction types as [|t0 types IH]; intros Hall; cbn [classifyFrom]; [reflexivity |].
  destruct (String.eqb_spec (internalTypeName (infoOf catalog t0)) (agent_name_type resource))
    as [Hmatch | _].
  - exfalso. apply (Hall t0); [left; reflexivity | exact Hmatch].
  - apply IH. intros t Ht. apply Hall. right. exact Ht.
Qed.

(** X6: the type [getResourceTypeOfPCSResource] gives a primitive is
    always backed by the catalog: either a member of the enumeration whose
    agent name is the primitive's (not the port-block agent), or, for a
    port-block primitive with an [action] attribute and a catalog that has
    the port-block agent, one of the two port-block types; a primitive whose
    agent no member of the enumeration carries gets no type. *)
Theorem classification_sound (catalog : Catalog) (resource : PCSResourceConfigJson) :
  (forall t,
      getResourceTypeOfPCSResource catalog resource = Some t ->
      (agent_name_type resource <> "portblock"
       /\ In t (enumValues catalog)
       /\ internalTypeName (infoOf catalog t) = agent_name_type resource)
      \/ (agent_name_type resource = "portblock"
          /\ (exists t0, In t0 (enumValues catalog)
                         /\ internalTypeName (infoOf catalog t0) = "portblock")
          /\ exists value,
               firstAction (instance_attributes resource) = Some value
               /\ t = if String.eqb value "block"
                      then PORTBLOCK_ON catalog else PORTBLOCK_OFF catalog))
  /\ ((forall t, In t (enumValues catalog) ->
                 internalTypeName (infoOf catalog t) <> agent_name_type resource) ->
      getResourceTypeOfPCSResource catalog resource = None).
Proof.
  split.
  - intros t. apply classifyFrom_sound.
  - apply classifyFrom_unknown.
Qed.

Lemma classification_sound_witness :
  getResourceTypeOfPCSResource Sample.catalog
    (Sample.primitive "iscsi_LUN_g1" "iSCSILogicalUnit" []) = Some 4
  /\ In 4 (enumValues Sample.catalog)
  /\ getResourceTypeOfPCSResource Sample.catalog
       (Sample.primitive "dummy" "Dummy" []) = None.
Proof.
  destruct (classification_sound Sample.catalog
              (Sample.primitive "iscsi_LUN_g1" "iSCSILogicalUnit" [])) as [Hsound _].
  destruct (classification_sound Sample.catalog (Sample.primitive "dummy" "Dummy" []))
    as [_ Hunknown].
  split; [reflexivity |]. split.
  - destruct (Hsound 4 eq_refl) as [(_ & Hin & _) | (Hagent & _)];
      [exact Hin | discriminate Hagent].
  - apply Hunknown.
    intros t [<- | [<- | [<- | [<- | [<- | [<- | []]]]]]]; discriminate.
Defined.

(** ** Node tokens *)

Lemma string_of_rev_chars (p : ascii -> bool) (rv : list ascii) :
  Forall (fun c => p c = true) rv ->
  Forall (fun c => p c = true) (list_ascii_of_string (string_of_list_ascii (List.rev rv))).
Proof.
  intros H. rewrite list_ascii_of_string_of_list_ascii.
  apply List.Forall_forall. intros c Hc. apply in_rev in Hc.
  exact (proj1 (List.Forall_forall _ _) H c Hc).
Qed.

(** A one-or-more capture at the end of a pattern holds characters of its
    class only. *)
Lemma capture_plus_class (p : ascii -> bool) prev cap s c rest :
  RegExp.matchHere
    [RegExp.CaptureOpen; RegExp.Class p; RegExp.Star true p; RegExp.CaptureClose]
    prev cap s = Some (c, rest) ->
  exists g, c = RegExp.Captured g
            /\ Forall (fun ch => p ch = true) (list_ascii_of_string g).
Proof.
  cbn [RegExp.matchHere]. destruct s as [|d s]; [discriminate |].
  destruct (p d) eqn:Hd; [| discriminate]. cbn [RegExp.push].
  assert (Hall : Forall (fun ch => p ch = true) [d]) by (constructor; [exact Hd | constructor]).
  revert Hall. generalize (Some d) as prev'. generalize [d] as rv.
  intros rv prev' Hall. revert rv Hall prev'.
  induction s as [|e s IH]; intros rv Hall prev' H.
  - cbn in H. inversion H; subst. eexists. split; [reflexivity |].
    apply string_of_rev_chars, Hall.
  - destruct (p e) eqn:Hp.
    + match type of H with
      | match ?more with _ => _ end = _ => destruct more as [r'|] eqn:Hmore
      end.
      * inversion H; subst r'.
        eapply (IH (e :: rv)); [constructor; assumption | exact Hmore].
      * cbn in H. inversion H; subst. eexists. split; [reflexivity |].
        apply string_of_rev_chars, Hall.
    + cbn in H. inversion H; subst. eexists. split; [reflexivity |].
      apply string_of_rev_chars, Hall.
Qed.

Lemma exec_token (pre : list RegExp.item) (text : string) m1 rest :
  RegExp.exec
    (pre ++ [RegExp.CaptureOpen; RegExp.Class RegExp.notSpace;
             RegExp.Star true RegExp.notSpace; RegExp.CaptureClose]) text
  = Some (m1, rest) ->
  exists g, m1 = Some g /\ isToken g.
Proof.
  unfold RegExp.exec. intros H.
  destruct (RegExp.search _ None text) as [[c rest']|] eqn:Hs; [| discriminate].
  destruct (search_matchHere _ _ _ _ Hs) as (prev' & s' & Hm).
  destruct (matchHere_suffix _ _ _ _ _ _ Hm) as (prev2 & cap2 & s2 & Hsuf).
  destruct (capture_plus_nonempty _ _ _ _ _ _ Hsuf) as (g & Hc & Hg).
  destruct (capture_plus_class _ _ _ _ _ _ Hsuf) as (g' & Hc' & Hall).
  subst c. inversion Hc'; subst g'. inversion H; subst.
  exists g. split; [reflexivity | split; assumption].
Qed.

Lemma runningOn_token (text : string) m1 rest :
  RegExp.exec RegExp.runningOn text = Some (m1, rest) ->
  exists g, m1 = Some g /\ isToken g.
Proof.
  intros H.
  change RegExp.runningOn
    with ((RegExp.literal true "is running on:" ++ RegExp.plus RegExp.isSpace)
          ++ [RegExp.CaptureOpen; RegExp.Class RegExp.notSpace;
              RegExp.Star true RegExp.notSpace; RegExp.CaptureClose]) in H.
  exact (exec_token _ _ _ _ H).
Qed.

Lemma statusText_token (text groupId n : string) :
  parseGroupFromStatusText text groupId = Some n -> isToken n.
Proof.
  unfold parseGroupFromStatusText. intros H.
  destruct (RegExp.exec (RegExp.groupHeader groupId) text) as [[m tail]|]; [| discriminate].
  destruct (RegExp.exec RegExp.startedLine tail) as [[m2 rest]|] eqn:Hexec; [| discriminate].
  subst m2.
  change RegExp.startedLine
    with (([RegExp.Bol; RegExp.Star true RegExp.isSpace; RegExp.Lit "*" true;
            RegExp.Star true RegExp.isSpace; RegExp.Star false RegExp.notNewline;
            RegExp.WordBoundary]
           ++ RegExp.literal true "Started" ++ RegExp.plus RegExp.isSpace)
          ++ [RegExp.CaptureOpen; RegExp.Class RegExp.notSpace;
              RegExp.Star true RegExp.notSpace; RegExp.CaptureClose]) in Hexec.
  destruct (exec_token _ _ _ _ Hexec) as (g & Hg & Htok). inversion Hg; subst. exact Htok.
Qed.

(** ** The per-member loop, once more *)

Section LocateMore.

Context {W : Type} (server : Server W).

Lemma locate_cases (rid : string) (st : State W) :
  match run server (locateCommand rid) false (world st) with
  | (ROk p, w) =>
      locate server rid st
      = (Ok match RegExp.exec RegExp.runningOn (getStdout p) with
            | Some (m1, _) => m1
            | None => None
            end, afterCommand st (locateCommand rid) w)
  | (RErr e, w) =>
      locate server rid st = (Err (locateFailure rid e), afterCommand st (locateCommand rid) w)
  end.
Proof.
  unfold locate, mapErr, bind, execute, ret. fold (locateCommand rid).
  destruct (run server (locateCommand rid) false (world st)) as [[p | e] w]; reflexivity.
Qed.

(** What the loop does on a list of members that all answer. *)
Lemma locateMembers_ok (members : list PCSResource) (pm0 : list PerMember.t)
    (nc0 : NodeCounts.t) (st st' : State W) pm nc :
  locateMembers server members pm0 nc0 st = (Ok (pm, nc), st') ->
  issued st' = issued st ++ List.map (fun r => locateCommand (name r)) members
  /\ exists entries,
       pm = pm0 ++ entries
       /\ Forall (fun x => forall g, PerMember.node x = Some g -> isToken g) entries.
Proof.
  revert pm0 nc0 st. induction members as [|r members IH]; intros pm0 nc0 st H.
  - cbn in H. inversion H; subst.
    split; [cbn; rewrite app_nil_r; reflexivity |].
    exists []. rewrite app_nil_r. split; [reflexivity | constructor].
  - cbn [locateMembers] in H. unfold bind at 1 in H.
    pose proof (locate_cases (name r) st) as Hloc.
    destruct (run server (locateCommand (name r)) false (world st)) as [[p | e] w] eqn:Hrun;
      rewrite Hloc in H; [| discriminate].
    destruct (IH _ _ _ H) as (Hissued & entries & -> & Htok).
    split.
    + rewrite Hissued. cbn [afterCommand issued List.map]. rewrite <- app_assoc. reflexivity.
    + eexists (_ :: entries). rewrite <- app_assoc. split; [reflexivity |].
      constructor; [| exact Htok].
      cbn [PerMember.node]. intros g Hg.
      destruct (RegExp.exec RegExp.runningOn (getStdout p)) as [[m1 rest]|] eqn:Hexec;
        [| discriminate].
      destruct (runningOn_token _ _ _ Hexec) as (g' & -> & Htoken).
      inversion Hg; subst. exact Htoken.
Qed.

(** The loop over a list of members is the loop over its head part
    followed by the loop over the rest. *)
Lemma locateMembers_app (before after : list PCSResource) (pm0 : list PerMember.t)
    (nc0 : NodeCounts.t) (st st' : State W) pm nc :
  locateMembers server before pm0 nc0 st = (Ok (pm, nc), st') ->
  locateMembers server (before ++ after) pm0 nc0 st = locateMembers server after pm nc st'.
Proof.
  revert pm0 nc0 st. induction before as [|r before IH]; intros pm0 nc0 st H.
  - cbn in H. inversion H; subst. reflexivity.
  - cbn [locateMembers app] in *. unfold bind at 1 in H. unfold bind at 1.
    destruct (locate server (name r) st) as [[node | e | x] st1]; try discriminate.
    apply IH. exact H.
Qed.

End LocateMore.

(** ** Resolving the active node *)

Section ActiveNodeMore.

Context {W : Type} (catalog : Catalog).
Context (parse : string -> Result PCSConfigJson JsError) (server : Server W).

Lemma preferred_cases (marker : string) (pm : list PerMember.t) :
  preferred marker pm = None
  \/ exists x, In x pm /\ preferred marker pm = PerMember.node x
               /\ Js.truthy (PerMember.node x) = true.
Proof.
  unfold preferred.
  destruct (List.find _ pm) as [x|] eqn:Hfind; [| left; reflexivity].
  right. apply find_some in Hfind. destruct Hfind as [Hin Hx].
  apply andb_true_iff in Hx. exists x. split; [exact Hin | split; [reflexivity | apply Hx]].
Qed.

Lemma truthy_some (o : option string) :
  Js.truthy o = true -> exists n, o = Some n /\ n <> EmptyString.
Proof.
  destruct o as [n|]; [| discriminate]. intros H. exists n. split; [reflexivity |].
  intros ->. discriminate H.
Qed.

(** When some member reported, the strategies on the reports choose a node
    that a member reported. *)
Lemma chooseFromMembers_reported (pm : list PerMember.t) :
  Forall wellFormedReport pm ->
  (exists x n, In x pm /\ PerMember.node x = Some n) ->
  exists n, chooseFromMembers pm (tally pm []) = Some n
            /\ n <> EmptyString
            /\ exists y, In y pm /\ PerMember.node y = Some n.
Proof.
  intros Hwf Hsome.
  assert (Hne : tally pm [] <> []).
  { destruct Hsome as (x & n & Hin & Hnode).
    destruct (tally_counts pm Hwf) as [_ Hget]. specialize (Hget n).
    assert (Hpos : (1 <= reports pm n)%Z) by (apply reports_positive; eauto).
    destruct (Z.eqb_spec (reports pm n) 0); [lia |].
    intros Hnil. rewrite Hnil in Hget. discriminate. }
  assert (Hnonempty : forall y g, In y pm -> PerMember.node y = Some g -> g <> EmptyString).
  { intros y g Hy Hyg.
    destruct (proj1 (List.Forall_forall _ _) Hwf y Hy) as [Hnone | (g' & Hs & Hg')];
      congruence. }
  unfold chooseFromMembers.
  assert (Hstep : forall chosen candidate,
            (chosen = None \/ exists n, chosen = Some n /\ n <> EmptyString
                                        /\ exists y, In y pm /\ PerMember.node y = Some n) ->
            (candidate = None \/ exists x, In x pm /\ candidate = PerMember.node x
                                           /\ Js.truthy (PerMember.node x) = true) ->
            orElse chosen candidate = None
            \/ exists n, orElse chosen candidate = Some n /\ n <> EmptyString
                         /\ exists y, In y pm /\ PerMember.node y = Some n).
  { intros chosen candidate [-> | (n & -> & Hn & Hy)] Hcand.
    - destruct Hcand as [-> | (x & Hin & -> & Ht)]; [left; reflexivity |].
      right. rewrite (orElse_none _ Ht).
      destruct (truthy_some _ Ht) as (n & Hx & Hn). exists n.
      split; [exact Hx | split; [exact Hn | exists x; split; assumption]].
    - right. rewrite (orElse_kept _ _ (truthy_nonempty n Hn)). exists n.
      split; [reflexivity | split; assumption]. }
  assert (H0 : unanimous pm = None
               \/ exists n, unanimous pm = Some n /\ n <> EmptyString
                            /\ exists y, In y pm /\ PerMember.node y = Some n).
  { unfold unanimous. destruct (Nat.eqb (length (distinctNodes pm)) 1); [| left; reflexivity].
    destruct (distinctNodes pm) as [|a rest] eqn:Hd; [left; reflexivity |].
    right. exists a. split; [reflexivity |].
    assert (Ha : In a (distinctNodes pm)) by (rewrite Hd; left; reflexivity).
    apply distinctNodes_In in Ha. destruct Ha as (y & Hy & Hnode & Hn).
    split; [exact Hn | exists y; split; assumption]. }
  pose proof (Hstep _ _ H0 (preferred_cases "_VIP_" pm)) as H1.
  pose proof (Hstep _ _ H1 (preferred_cases "_TARGET_" pm)) as H2.
  destruct H2 as [-> | (n & -> & Hn & Hy)].
  - cbn [Js.truthy negb andb].
    assert (Hlen : Nat.ltb 0 (length (tally pm [])) = true)
      by (destruct (tally pm []); [contradiction | reflexivity]).
    rewrite Hlen.
    destruct (majority_highest pm Hwf Hne) as [Hpos _].
    apply reports_positive in Hpos. destruct Hpos as (y & Hy & Hnode).
    exists (majority (tally pm [])).
    split; [reflexivity | split; [exact (Hnonempty y _ Hy Hnode) | exists y; split; assumption]].
  - rewrite (truthy_nonempty n Hn). cbn [negb andb]. exists n.
    split; [reflexivity | split; assumption].
Qed.

(** X7: when at least one member of the group reports a node,
    [getGroupActiveNode] succeeds after exactly one location query per
    member, in member order, and without a status query; the node it
    returns was reported by a member and is a token. In particular, when
    all reports agree on one node, that node is returned whatever the
    names of the members are. *)
Theorem getGroupActiveNode_reported_node (group : PCSResourceGroup)
    (st st1 st2 : State W) (refs : list loc) (pm : list PerMember.t) (nc : NodeCounts.t) :
  fetchResources catalog parse server st = (Ok refs, st1) ->
  let members := List.filter (inGroup (groupName group)) (objectsOf st1 refs) in
  groupName group <> EmptyString ->
  members <> [] ->
  locateMembers server members [] [] st1 = (Ok (pm, nc), st2) ->
  (exists x n0, In x pm /\ PerMember.node x = Some n0) ->
  exists n,
    getGroupActiveNode catalog parse server group st = (Ok n, st2)
    /\ (exists y, In y pm /\ PerMember.node y = Some n)
    /\ isToken n
    /\ issued st2 = issued st1 ++ List.map (fun r => locateCommand (name r)) members
    /\ (forall a, (forall y, In y pm -> PerMember.node y = None \/ PerMember.node y = Some a) ->
                  n = a).
Proof.
  intros Hfetch members Hg Hmembers Hloc Hsome.
  destruct (locateMembers_spec server _ _ _ _ _ _ _ Hloc)
    as (entries & Hpm & _ & Hnc & Hwf & _).
  cbn [app] in Hpm. subst entries. subst nc.
  destruct (locateMembers_ok server _ _ _ _ _ _ _ Hloc) as (Hissued & entries & Hpm & Htok).
  cbn [app] in Hpm. subst entries.
  destruct (chooseFromMembers_reported pm Hwf Hsome) as (n & Hchoose & Hn & y & Hy & Hnode).
  destruct (getGroupActiveNode_run catalog parse server group st st1 st2 refs pm (tally pm [])
              Hfetch Hg Hmembers Hloc) as [Hok _].
  rewrite Hchoose in Hok. specialize (Hok (truthy_nonempty n Hn)).
  exists n. split; [exact Hok |]. split; [exists y; split; assumption |].
  split; [exact (proj1 (List.Forall_forall _ _) Htok y Hy n Hnode) |].
  split; [exact Hissued |].
  intros a Hall. destruct (Hall y Hy) as [Hnone | Hsame]; congruence.
Qed.

(** X8: when no member reports a node, one status query is issued and its
    text decides. The text is cut after the first match of the group's
    header, and in what follows the first match of the started-line
    pattern gives the node: that node (a token) is the result, whether or
    not the line belongs to this group. If the status query fails, the
    result is the failure "Failed to query pcs status: <cause>". *)
Theorem getGroupActiveNode_status_fallback (group : PCSResourceGroup)
    (st st1 st2 : State W) (refs : list loc) (pm : list PerMember.t) (nc : NodeCounts.t) :
  fetchResources catalog parse server st = (Ok refs, st1) ->
  let members := List.filter (inGroup (groupName group)) (objectsOf st1 refs) in
  groupName group <> EmptyString ->
  members <> [] ->
  locateMembers server members [] [] st1 = (Ok (pm, nc), st2) ->
  Forall (fun x => PerMember.node x = None) pm ->
  (forall p w header tail n rest,
      run server statusCommand true (world st2) = (ROk p, w) ->
      RegExp.exec (RegExp.groupHeader (groupName group)) (getStdout p)
      = Some (header, tail) ->
      RegExp.exec RegExp.startedLine tail = Some (Some n, rest) ->
      getGroupActiveNode catalog parse server group st
      = (Ok n, afterCommand st2 statusCommand w)
      /\ isToken n)
  /\ (forall e w,
      run server statusCommand true (world st2) = (RErr e, w) ->
      getGroupActiveNode catalog parse server group st
      = (Err (ProcessError ("Failed to query pcs status: " +:+ errToString e)),
         afterCommand st2 statusCommand w)).
Proof.
  intros Hfetch members.
  assert (Hdef : List.filter (inGroup (groupName group)) (objectsOf st1 refs) = members)
    by reflexivity.
  clearbody members. intros Hg Hmembers Hloc Hsilent.
  destruct (locateMembers_spec server _ _ _ _ _ _ _ Hloc)
    as (entries & Hpm & _ & Hnc & _).
  cbn [app] in Hpm. subst entries.
  rewrite (tally_silent pm [] Hsilent) in Hnc. subst nc.
  assert (Hhas := group_found (groupName group) (objectsOf st1 refs) Hg).
  rewrite Hdef in Hhas. specialize (Hhas Hmembers).
  assert (Hlen : Nat.eqb (length members) 0 = false)
    by (destruct members; [contradiction | reflexivity]).
  pose proof (chooseFromMembers_silent pm Hsilent) as Hchosen.
  split.
  - intros p w header tail n rest Hstatus Hheader Hstarted.
    assert (Hparse : parseGroupFromStatusText (getStdout p) (groupName group) = Some n).
    { unfold parseGroupFromStatusText. rewrite Hheader, Hstarted. reflexivity. }
    pose proof (statusText_token _ _ _ Hparse) as Htoken.
    split; [| exact Htoken].
    unfold getGroupActiveNode, bind at 1. rewrite Hfetch.
    unfold bind at 1, loadAll. fold (objectsOf st1 refs). rewrite Hhas. cbn [negb].
    rewrite Hdef, Hlen. unfold bind at 1. rewrite Hloc. rewrite Hchosen.
    cbn [Js.truthy negb].
    unfold bind at 1, bind at 1, mapErr, bind at 1. fold statusCommand.
    rewrite (execute_ok _ _ _ _ _ _ Hstatus). unfold ret.
    rewrite Hparse. rewrite (orElse_none _ (truthy_nonempty n (proj1 Htoken))).
    rewrite (truthy_nonempty n (proj1 Htoken)). reflexivity.
  - intros e w Hstatus.
    unfold getGroupActiveNode, bind at 1. rewrite Hfetch.
    unfold bind at 1, loadAll. fold (objectsOf st1 refs). rewrite Hhas. cbn [negb].
    rewrite Hdef, Hlen. unfold bind at 1. rewrite Hloc. rewrite Hchosen.
    cbn [Js.truthy negb].
    unfold bind at 1, bind at 1, mapErr, bind at 1. fold statusCommand.
    rewrite (execute_err _ _ _ _ _ _ Hstatus). reflexivity.
Qed.

(** X9: for a group the snapshot holds no member of, or a group with an
    empty name, [getGroupActiveNode] throws "Group ... not found in PCS
    configuration." right after reading the snapshot: no location or
    status query is issued. *)
Theorem getGroupActiveNode_unknown_group (group : PCSResourceGroup)
    (st st1 : State W) (refs : list loc) :
  fetchResources catalog parse server st = (Ok refs, st1) ->
  groupName group = EmptyString
  \/ List.filter (inGroup (groupName group)) (objectsOf st1 refs) = [] ->
  getGroupActiveNode catalog parse server group st
  = (Threw (groupNotFound (groupName group)), st1).
Proof.
  intros Hfetch Hunknown.
  unfold getGroupActiveNode, bind at 1. rewrite Hfetch.
  unfold bind at 1, loadAll. fold (objectsOf st1 refs).
  match goal with
  | |- context [NodeSet.has ?s ?g] => assert (Hhas : NodeSet.has s g = false)
  end.
  { apply not_true_is_false. intros Hin.
    apply NodeSet_has_In, NodeSet_ofList_In, list_elem_of_In, list_elem_of_omap in Hin.
    destruct Hin as (r & Hr & Hsome). apply list_elem_of_In in Hr.
    destruct (resourceGroup r) as [rg|] eqn:Hrg; [| discriminate].
    destruct (Js.truthy (Some (groupName rg))) eqn:Ht; [| discriminate].
    inversion Hsome as [Hname].
    destruct Hunknown as [Hempty | Hnil].
    - rewrite <- Hname in Hempty. rewrite Hempty in Ht. discriminate.
    - assert (Hmem : In r (List.filter (inGroup (groupName group)) (objectsOf st1 refs))).
      { apply filter_In. split; [exact Hr |]. unfold inGroup. rewrite Hrg, Hname.
        apply String.eqb_refl. }
      rewrite Hnil in Hmem. destruct Hmem. }
  rewrite Hhas. reflexivity.
Qed.

(** X10: a location query that fails stops the resolution: the members
    before the failing one have been queried, the result is the failure
    "Failed to locate <member>: <cause>", and neither a later member nor
    the status is queried. *)
Theorem getGroupActiveNode_locate_failure (group : PCSResourceGroup)
    (st st1 st2 : State W) (refs : list loc) (before after : list PCSResource)
    (r : PCSResource) (pm : list PerMember.t) (nc : NodeCounts.t) (e : JsError) (w : W) :
  fetchResources catalog parse server st = (Ok refs, st1) ->
  groupName group <> EmptyString ->
  List.filter (inGroup (groupName group)) (objectsOf st1 refs) = before ++ r :: after ->
  locateMembers server before [] [] st1 = (Ok (pm, nc), st2) ->
  run server (locateCommand (name r)) false (world st2) = (RErr e, w) ->
  getGroupActiveNode catalog parse server group st
  = (Err (locateFailure (name r) e), afterCommand st2 (locateCommand (name r)) w)
  /\ issued (afterCommand st2 (locateCommand (name r)) w)
     = issued st1 ++ List.map (fun m => locateCommand (name m)) (before ++ [r]).
Proof.
  intros Hfetch Hg Hmembers Hbefore Hfail.
  assert (Hne : List.filter (inGroup (groupName group)) (objectsOf st1 refs) <> [])
    by (rewrite Hmembers; destruct before; discriminate).
  assert (Hhas := group_found (groupName group) (objectsOf st1 refs) Hg Hne).
  split.
  - unfold getGroupActiveNode, bind at 1. rewrite Hfetch.
    unfold bind at 1, loadAll. fold (objectsOf st1 refs). rewrite Hhas. cbn [negb].
    rewrite Hmembers.
    assert (Hlen : Nat.eqb (length (before ++ r :: after)) 0 = false)
      by (destruct before; reflexivity).
    rewrite Hlen. unfold bind at 1.
    rewrite (locateMembers_app server before (r :: after) _ _ _ _ _ _ Hbefore).
    cbn [locateMembers]. unfold bind at 1.
    pose proof (locate_cases server (name r) st2) as Hloc. rewrite Hfail in Hloc.
    rewrite Hloc. reflexivity.
  - destruct (locateMembers_ok server _ _ _ _ _ _ _ Hbefore) as (Hissued & _).
    cbn [afterCommand issued]. rewrite Hissued, List.map_app, app_assoc. reflexivity.
Qed.

End ActiveNodeMore.

Lemma getGroupActiveNode_reported_node_witness :
  fetchResources Sample.catalog Sample.parse Sample.split Sample2.populated
  = (Ok [0; 1; 2; 3], Sample2.populated)
  /\ fst (getGroupActiveNode Sample.catalog Sample.parse Sample.split Sample.g1
            Sample2.populated) = Ok "nodeB"
  /\ isToken "nodeB".
Proof.
  assert (Hfetch : fetchResources Sample.catalog Sample.parse Sample.split Sample2.populated
                   = (Ok [0; 1; 2; 3], Sample2.populated)) by (vm_compute; reflexivity).
  split; [exact Hfetch |].
  destruct (getGroupActiveNode_reported_node Sample.catalog Sample.parse Sample.split
              Sample.g1 Sample2.populated Sample2.populated
              (snd (locateMembers Sample.split Sample2.members [] [] Sample2.populated))
              [0; 1; 2; 3] Sample.splitReports [("nodeB", 1%Z); ("nodeA", 3%Z)] Hfetch)
    as (n & Hres & _ & Htoken & _ & _).
  - discriminate.
  - vm_compute. discriminate.
  - vm_compute. reflexivity.
  - eexists _, _. split; [left; reflexivity | reflexivity].
  - pose proof (f_equal fst Hres) as Hn. cbn [fst] in Hn.
    assert (Heq : n = "nodeB") by (vm_compute in Hn; inversion Hn; reflexivity).
    subst n. split; [exact Hn | exact Htoken].
Defined.

Lemma getGroupActiveNode_status_fallback_witness :
  Forall (fun x => PerMember.node x = None) Sample2.silentReports
  /\ fst (getGroupActiveNode Sample.catalog Sample.parse Sample2.stopped Sample.g1
            Sample2.populated) = Ok "node3"
  /\ fst (getGroupActiveNode Sample.catalog Sample.parse Sample2.crossed Sample.g1
            Sample2.populated) = Ok "node9"
  /\ fst (getGroupActiveNode Sample.catalog Sample.parse Sample2.statusDown Sample.g1
            Sample2.populated)
     = Err (ProcessError "Failed to query pcs status: ProcessError: pcs: command failed").
Proof.
  assert (Hsilent : Forall (fun x => PerMember.node x = None) Sample2.silentReports)
    by (repeat constructor).
  split; [exact Hsilent |]. split; [| split].
  - destruct (getGroupActiveNode_status_fallback Sample.catalog Sample.parse Sample2.stopped
                Sample.g1 Sample2.populated Sample2.populated
                (snd (locateMembers Sample2.stopped Sample2.members [] [] Sample2.populated))
                [0; 1; 2; 3] Sample2.silentReports [])
      as [Hok _].
    + vm_compute. reflexivity.
    + discriminate.
    + vm_compute. discriminate.
    + vm_compute. reflexivity.
    + exact Hsilent.
    + destruct (Hok {| getStdout := Sample.statusOfG1; exitStatus := 0 |} tt
                  (fst (default (None, EmptyString)
                          (RegExp.exec (RegExp.groupHeader "g1") Sample.statusOfG1)))
                  (snd (default (None, EmptyString)
                          (RegExp.exec (RegExp.groupHeader "g1") Sample.statusOfG1)))
                  "node3" Sample.newline)
        as [Hres _];
        [reflexivity | vm_compute; reflexivity | vm_compute; reflexivity |].
      rewrite Hres. reflexivity.
  - destruct (getGroupActiveNode_status_fallback Sample.catalog Sample.parse Sample2.crossed
                Sample.g1 Sample2.populated Sample2.populated
                (snd (locateMembers Sample2.crossed Sample2.members [] [] Sample2.populated))
                [0; 1; 2; 3] Sample2.silentReports [])
      as [Hok _].
    + vm_compute. reflexivity.
    + discriminate.
    + vm_compute. discriminate.
    + vm_compute. reflexivity.
    + exact Hsilent.
    + destruct (Hok {| getStdout := Sample2.mixedStatus; exitStatus := 0 |} tt
                  (fst (default (None, EmptyString)
                          (RegExp.exec (RegExp.groupHeader "g1") Sample2.mixedStatus)))
                  (snd (default (None, EmptyString)
                          (RegExp.exec (RegExp.groupHeader "g1") Sample2.mixedStatus)))
                  "node9" Sample.newline)
        as [Hres _];
        [reflexivity | vm_compute; reflexivity | vm_compute; reflexivity |].
      rewrite Hres. reflexivity.
  - destruct (getGroupActiveNode_status_fallback Sample.catalog Sample.parse
                Sample2.statusDown Sample.g1 Sample2.populated Sample2.populated
                (snd (locateMembers Sample2.statusDown Sample2.members [] []
                        Sample2.populated))
                [0; 1; 2; 3] Sample2.silentReports [])
      as [_ Herr].
    + vm_compute. reflexivity.
    + discriminate.
    + vm_compute. discriminate.
    + vm_compute. reflexivity.
    + exact Hsilent.
    + rewrite (Herr (ProcessError "pcs: command failed") tt eq_refl). reflexivity.
Defined.

Lemma getGroupActiveNode_unknown_group_witness :
  fetchResources Sample.catalog Sample.parse Sample.idle Sample2.populated
  = (Ok [0; 1; 2; 3], Sample2.populated)
  /\ getGroupActiveNode Sample.catalog Sample.parse Sample.idle {| groupName := "g9" |}
       Sample2.populated
     = (Threw (groupNotFound "g9"), Sample2.populated).
Proof.
  assert (Hfetch : fetchResources Sample.catalog Sample.parse Sample.idle Sample2.populated
                   = (Ok [0; 1; 2; 3], Sample2.populated)) by (vm_compute; reflexivity).
  split; [exact Hfetch |].
  apply (getGroupActiveNode_unknown_group Sample.catalog Sample.parse Sample.idle
           {| groupName := "g9" |} Sample2.populated Sample2.populated [0; 1; 2; 3] Hfetch).
  right. vm_compute. reflexivity.
Defined.

Lemma getGroupActiveNode_locate_failure_witness :
  fetchResources Sample.catalog Sample.parse Sample2.targetDown Sample2.populated
  = (Ok [0; 1; 2; 3], Sample2.populated)
  /\ fst (getGroupActiveNode Sample.catalog Sample.parse Sample2.targetDown Sample.g1
            Sample2.populated)
     = Err (locateFailure "iscsi_TARGET_g1" (ProcessError "pcs: command failed"))
  /\ issued (snd (getGroupActiveNode Sample.catalog Sample.parse Sample2.targetDown Sample.g1
                    Sample2.populated))
     = issued Sample2.populated
       ++ [locateCommand "iscsi_VIP_g1"; locateCommand "iscsi_TARGET_g1"].
Proof.
  assert (Hfetch : fetchResources Sample.catalog Sample.parse Sample2.targetDown
                     Sample2.populated
                   = (Ok [0; 1; 2; 3], Sample2.populated)) by (vm_compute; reflexivity).
  split; [exact Hfetch |].
  destruct (getGroupActiveNode_locate_failure Sample.catalog Sample.parse Sample2.targetDown
              Sample.g1 Sample2.populated Sample2.populated
              (snd (locateMembers Sample2.targetDown [Sample.member "iscsi_VIP_g1" 1] [] []
                      Sample2.populated))
              [0; 1; 2; 3]
              [Sample.member "iscsi_VIP_g1" 1]
              [Sample.member "iscsi_LUN_g1" 4; Sample.member "iscsi_PBOFF_g1" 5]
              (Sample.member "iscsi_TARGET_g1" 3)
              [Sample.report "iscsi_VIP_g1" (Some "nodeA")] [("nodeA", 1%Z)]
              (ProcessError "pcs: command failed") tt Hfetch)
    as [Hres Hissued].
  - discriminate.
  - vm_compute. reflexivity.
  - vm_compute. reflexivity.
  - reflexivity.
  - rewrite Hres. split; [reflexivity |]. cbn [snd]. rewrite Hissued. reflexivity.
Defined.

(** ** Anchors: the failures before the search *)

(** X11: [getAnchorsForGroup] on a group without a member in the snapshot
    throws "Group '<name>' not found or has no members." without asking
    for the configuration; with members, a configuration query that fails
    or does not parse gives "Unable to get PCS configuration: <cause>",
    and a configuration that does not list the group makes it throw "Group
    '<name>' not found in PCS configuration.". *)
Theorem getAnchorsForGroup_early_failures {W} (catalog : Catalog)
    (parse : string -> Result PCSConfigJson JsError) (server : Server W)
    (group : PCSResourceGroup) (st st1 : State W) (refs : list loc) :
  fetchResources catalog parse server st = (Ok refs, st1) ->
  let members := List.filter (inGroup (groupName group)) (objectsOf st1 refs) in
  (members = [] ->
   getAnchorsForGroup catalog parse server group st
   = (Threw (Raised (ProcessError
               ("Group '" +:+ groupName group +:+ "' not found or has no members."))),
      st1))
  /\ (members <> [] ->
      (forall e w,
          run server bulkQuery true (world st1) = (RErr e, w) ->
          getAnchorsForGroup catalog parse server group st
          = (Err (anchorsFailure e), afterCommand st1 bulkQuery w))
      /\ (forall p w e,
          run server bulkQuery true (world st1) = (ROk p, w) ->
          parse (getStdout p) = RErr e ->
          getAnchorsForGroup catalog parse server group st
          = (Err (anchorsFailure e), afterCommand st1 bulkQuery w))
      /\ (forall p w cfg,
          run server bulkQuery true (world st1) = (ROk p, w) ->
          parse (getStdout p) = ROk cfg ->
          Forall (fun g => groupId g <> groupName group) (default [] (groups cfg)) ->
          getAnchorsForGroup catalog parse server group st
          = (Threw (Raised (ProcessError
                      ("Group '" +:+ groupName group
                       +:+ "' not found in PCS configuration."))),
             afterCommand st1 bulkQuery w))).
Proof.
  intros Hfetch members.
  assert (Hdef : List.filter (inGroup (groupName group)) (objectsOf st1 refs) = members)
    by reflexivity.
  clearbody members. split.
  - intros ->. unfold getAnchorsForGroup, bind at 1. rewrite Hfetch.
    unfold bind at 1, loadAll. fold (objectsOf st1 refs). rewrite Hdef. reflexivity.
  - intros Hmembers.
    assert (Hlen : Nat.eqb (length members) 0 = false)
      by (destruct members; [contradiction | reflexivity]).
    split; [| split].
    + intros e w Hrun.
      unfold getAnchorsForGroup, bind at 1. rewrite Hfetch.
      unfold bind at 1, loadAll. fold (objectsOf st1 refs). rewrite Hdef, Hlen.
      unfold bind at 1, mapErr, bind at 1. rewrite (execute_err _ _ _ _ _ _ Hrun).
      reflexivity.
    + intros p w e Hrun Hparse.
      unfold getAnchorsForGroup, bind at 1. rewrite Hfetch.
      unfold bind at 1, loadAll. fold (objectsOf st1 refs). rewrite Hdef, Hlen.
      unfold bind at 1, mapErr, bind at 1. rewrite (execute_ok _ _ _ _ _ _ Hrun).
      rewrite Hparse. reflexivity.
    + intros p w cfg Hrun Hparse Habsent.
      unfold getAnchorsForGroup, bind at 1. rewrite Hfetch.
      unfold bind at 1, loadAll. fold (objectsOf st1 refs). rewrite Hdef, Hlen.
      unfold bind at 1, mapErr, bind at 1. rewrite (execute_ok _ _ _ _ _ _ Hrun).
      rewrite Hparse. cbn [liftResult]. unfold ret at 1.
      replace (List.find _ (default [] (groups cfg))) with (@None GroupJson); [reflexivity |].
      symmetry. induction Habsent as [|g gs Hg _ IH]; [reflexivity |].
      cbn [List.find]. destruct (String.eqb_spec (groupId g) (groupName group));
        [contradiction | exact IH].
Qed.

Lemma getAnchorsForGroup_early_failures_witness :
  fetchResources Sample.catalog Sample2.parse Sample.failing Sample2.populated
  = (Ok [0; 1; 2; 3], Sample2.populated)
  /\ getAnchorsForGroup Sample.catalog Sample2.parse Sample.failing {| groupName := "g9" |}
       Sample2.populated
     = (Threw (Raised (ProcessError "Group 'g9' not found or has no members.")),
        Sample2.populated)
  /\ getAnchorsForGroup Sample.catalog Sample2.parse Sample.failing Sample.g1
       Sample2.populated
     = (Err (anchorsFailure (ProcessError "pcs: command failed")),
        afterCommand Sample2.populated bulkQuery tt)
  /\ getAnchorsForGroup Sample.catalog Sample2.parse Sample.succeeding Sample.g1
       Sample2.populated
     = (Err (anchorsFailure (mkError "SyntaxError" "Unexpected token in JSON")),
        afterCommand Sample2.populated bulkQuery tt)
  /\ getAnchorsForGroup Sample.catalog Sample2.parse Sample2.regrouped Sample.g1
       Sample2.populated
     = (Threw (Raised (ProcessError "Group 'g1' not found in PCS configuration.")),
        afterCommand Sample2.populated bulkQuery tt).
Proof.
  assert (Hfetch : forall server : Server unit,
            fetchResources Sample.catalog Sample2.parse server Sample2.populated
            = (Ok [0; 1; 2; 3], Sample2.populated))
    by (intros server; apply fetchResources_cached; vm_compute; reflexivity).
  split; [apply Hfetch |]. split; [| split; [| split]].
  - apply (proj1 (getAnchorsForGroup_early_failures Sample.catalog Sample2.parse
                    Sample.failing {| groupName := "g9" |} Sample2.populated
                    Sample2.populated [0; 1; 2; 3] (Hfetch _))).
    vm_compute. reflexivity.
  - destruct (proj2 (getAnchorsForGroup_early_failures Sample.catalog Sample2.parse
                       Sample.failing Sample.g1 Sample2.populated
                       Sample2.populated [0; 1; 2; 3] (Hfetch _)))
      as (Hrun & _ & _); [vm_compute; discriminate |].
    exact (Hrun (ProcessError "pcs: command failed") tt eq_refl).
  - destruct (proj2 (getAnchorsForGroup_early_failures Sample.catalog Sample2.parse
                       Sample.succeeding Sample.g1 Sample2.populated
                       Sample2.populated [0; 1; 2; 3] (Hfetch _)))
      as (_ & Hparse & _); [vm_compute; discriminate |].
    exact (Hparse {| getStdout := EmptyString; exitStatus := 0 |} tt
             (mkError "SyntaxError" "Unexpected token in JSON") eq_refl eq_refl).
  - destruct (proj2 (getAnchorsForGroup_early_failures Sample.catalog Sample2.parse
                       Sample2.regrouped Sample.g1 Sample2.populated
                       Sample2.populated [0; 1; 2; 3] (Hfetch _)))
      as (_ & _ & Habsent); [vm_compute; discriminate |].
    apply (Habsent {| getStdout := Sample.render Sample2.otherConfig; exitStatus := 0 |} tt
             Sample2.otherConfig).
    + reflexivity.
    + vm_compute. reflexivity.
    + repeat constructor. discriminate.
Defined.

(** ** What never touches the cache *)

Section KeepsCache.

Context {W : Type}.

Lemma keeps_ret {A} (a : A) : keepsCache (@ret W A a).
Proof. intros st. split; reflexivity. Qed.

Lemma keeps_throw {A} (x : Exception) : keepsCache (@throw W A x).
Proof. intros st. split; reflexivity. Qed.

Lemma keeps_errAsync {A} (e : JsError) : keepsCache (@errAsync W A e).
Proof. intros st. split; reflexivity. Qed.

Lemma keeps_bind {A B} (m : M W A) (k : A -> M W B) :
  keepsCache m -> (forall a, keepsCache (k a)) -> keepsCache (bind m k).
Proof.
  intros Hm Hk st. unfold bind. specialize (Hm st).
  destruct (m st) as [[a | e | x] st1]; cbn [snd] in *; [| exact Hm | exact Hm].
  destruct (Hk a st1) as [Hs Hc]. destruct Hm as [Hs1 Hc1]. split; congruence.
Qed.

Lemma keeps_mapErr {A} (f : JsError -> JsError) (m : M W A) :
  keepsCache m -> keepsCache (mapErr f m).
Proof.
  intros Hm st. unfold mapErr. specialize (Hm st).
  destruct (m st) as [[a | e | x] st1]; exact Hm.
Qed.

Lemma keeps_execute (server : Server W) (command : Command) (flag : bool) :
  keepsCache (execute server command flag).
Proof.
  intros st. unfold execute.
  destruct (run server command flag (world st)) as [[p | e] w]; split; reflexivity.
Qed.

Lemma keeps_load (l : loc) : keepsCache (@load W l).
Proof. intros st. split; reflexivity. Qed.

Lemma keeps_loadAll (ls : list loc) : keepsCache (@loadAll W ls).
Proof. intros st. split; reflexivity. Qed.

Lemma keeps_liftResult {A} (r : Result A JsError) : keepsCache (@liftResult W A r).
Proof. destruct r; [apply keeps_ret | apply keeps_errAsync]. Qed.

Lemma keeps_ensureSingleLine (value label : string) :
  keepsCache (@ensureSingleLine W value label).
Proof.
  unfold ensureSingleLine.
  destruct (RegExp.test RegExp.lineBreak value); [apply keeps_errAsync | apply keeps_ret].
Qed.

Lemma keeps_locate (server : Server W) (rid : string) : keepsCache (locate server rid).
Proof.
  unfold locate. apply keeps_mapErr, keeps_bind; [apply keeps_execute |].
  intros p. apply keeps_ret.
Qed.

Lemma keeps_locateMembers (server : Server W) (members : list PCSResource) pm nc :
  keepsCache (locateMembers server members pm nc).
Proof.
  revert pm nc. induction members as [|r members IH]; intros pm nc; cbn [locateMembers].
  - apply keeps_ret.
  - apply keeps_bind; [apply keeps_locate |]. intros node. apply IH.
Qed.

End KeepsCache.

Ltac keeps :=
  repeat first
    [ apply keeps_ret | apply keeps_throw | apply keeps_errAsync | apply keeps_execute
    | apply keeps_load | apply keeps_loadAll | apply keeps_liftResult
    | apply keeps_ensureSingleLine | apply keeps_locate | apply keeps_locateMembers
    | apply keeps_mapErr
    | apply keeps_bind; [| intros ?]
    | match goal with
      | |- keepsCache (if ?b then _ else _) => destruct b
      | |- keepsCache (match ?x with _ => _ end) => destruct x
      | |- keepsCache (let '(_, _) := ?x in _) => destruct x
      end ].

Lemma keeps_after_fetch {W A} catalog parse (server : Server W)
    (k : list loc -> M W A) (st : State W) (refs : list loc) :
  currentResources st = Some refs ->
  (forall r, keepsCache (k r)) ->
  store (snd (bind (fetchResources catalog parse server) k st)) = store st
  /\ currentResources (snd (bind (fetchResources catalog parse server) k st)) = Some refs.
Proof.
  intros Hcache Hk. unfold bind.
  rewrite (fetchResources_cached catalog parse server st refs Hcache).
  rewrite <- Hcache. apply Hk.
Qed.

(** X12: the queries are read-only on a populated cache: whatever the
    servers answer and however they end, [getGroupActiveNode],
    [getAnchorsForGroup] and [fetchResourceByName] leave the cache and the
    stored resources exactly as they were. *)
Theorem queries_keep_populated_cache {W} (catalog : Catalog)
    (parse : string -> Result PCSConfigJson JsError) (server : Server W)
    (st : State W) (refs : list loc) :
  currentResources st = Some refs ->
  (forall group,
      store (snd (getGroupActiveNode catalog parse server group st)) = store st
      /\ currentResources (snd (getGroupActiveNode catalog parse server group st))
         = Some refs)
  /\ (forall group,
      store (snd (getAnchorsForGroup catalog parse server group st)) = store st
      /\ currentResources (snd (getAnchorsForGroup catalog parse server group st))
         = Some refs)
  /\ (forall resourceName,
      store (snd (fetchResourceByName catalog parse server resourceName st)) = store st
      /\ currentResources (snd (fetchResourceByName catalog parse server resourceName st))
         = Some refs).
Proof.
  intros Hcache. split; [| split].
  - intros group. unfold getGroupActiveNode.
    apply keeps_after_fetch; [exact Hcache | intros r; keeps].
  - intros group. unfold getAnchorsForGroup.
    apply keeps_after_fetch; [exact Hcache | intros r; keeps].
  - intros resourceName. unfold fetchResourceByName.
    apply keeps_after_fetch; [exact Hcache | intros r; keeps].
Qed.

Lemma queries_keep_populated_cache_witness :
  currentResources Sample2.populated = Some [0; 1; 2; 3]
  /\ store (snd (getGroupActiveNode Sample.catalog Sample.parse Sample.split Sample.g1
                   Sample2.populated)) = store Sample2.populated
  /\ currentResources (snd (getAnchorsForGroup Sample.catalog Sample.parse Sample.failing
                              Sample.g1 Sample2.populated)) = Some [0; 1; 2; 3].
Proof.
  assert (Hcache : currentResources Sample2.populated = Some [0; 1; 2; 3])
    by (vm_compute; reflexivity).
  destruct (queries_keep_populated_cache Sample.catalog Sample.parse Sample.split
              Sample2.populated [0; 1; 2; 3] Hcache) as (Hnode & _ & _).
  destruct (queries_keep_populated_cache Sample.catalog Sample.parse Sample.failing
              Sample2.populated [0; 1; 2; 3] Hcache) as (_ & Hanchors & _).
  split; [exact Hcache |].
  split; [exact (proj1 (Hnode Sample.g1)) | exact (proj2 (Hanchors Sample.g1))].
Defined.

(** X13: the operations that only forward a command to the cluster never
    touch the cache or the stored resources, whether the command succeeds
    or fails: [disableResource], [enableResources], [updateResource],
    [removeResourceFromGroup], [constrainResourceToGroup],
    [unconstainResourceFromGroup], [orderResourceBeforeGroup] and
    [removeResourcefromOrderGroup]. In particular a resource taken out of
    its group by [removeResourceFromGroup] still refers to the group in the
    cache. *)
Theorem forwarding_operations_keep_cache {W} (server server0 : Server W) :
  (forall n, keepsCache (disableResource server n))
  /\ (forall n, keepsCache (enableResources server n))
  /\ (forall l parameters, keepsCache (updateResource server l parameters))
  /\ (forall g n, keepsCache (removeResourceFromGroup server g n))
  /\ (forall l g, keepsCache (constrainResourceToGroup l g server0))
  /\ (forall n g, keepsCache (unconstainResourceFromGroup server n g))
  /\ (forall l g, keepsCache (orderResourceBeforeGroup server l g))
  /\ (forall n g, keepsCache (removeResourcefromOrderGroup server n g))
  /\ (forall g n (st : State W) l,
        inGroup g (store (snd (removeResourceFromGroup server g n st)) !!! l)
        = inGroup g (store st !!! l)).
Proof.
  assert (Hungroup : forall g n, keepsCache (removeResourceFromGroup server g n))
    by (intros; unfold removeResourceFromGroup; keeps).
  split; [intros; unfold disableResource; keeps |].
  split; [intros; unfold enableResources; keeps |].
  split; [intros; unfold updateResource; keeps |].
  split; [exact Hungroup |].
  split; [intros; unfold constrainResourceToGroup; keeps |].
  split; [intros; unfold unconstainResourceFromGroup; keeps |].
  split; [intros; unfold orderResourceBeforeGroup; keeps |].
  split; [intros; unfold removeResourcefromOrderGroup; keeps |].
  intros g n st l. destruct (Hungroup g n st) as [Hs _]. rewrite Hs. reflexivity.
Qed.

(** ** [updateResource] *)

(** X14: [updateResource] refuses parameters that hold a line feed or a
    carriage return with "PCS update parameters must be a single line."
    and issues nothing; any other parameters go into exactly one command,
    the shell script [pcs resource update '<name>' <parameters>], whose
    outcome is returned. *)
Theorem updateResource_single_line {W} (server : Server W) (resource : loc)
    (parameters : string) (st : State W) :
  let script := "pcs resource update '" +:+ name (store st !!! resource) +:+ "' "
                +:+ parameters in
  ((In "010"%char (list_ascii_of_string parameters)
    \/ In "013"%char (list_ascii_of_string parameters)) ->
   updateResource server resource parameters st
   = (Err (ProcessError "PCS update parameters must be a single line."), st))
  /\ (~ In "010"%char (list_ascii_of_string parameters) ->
      ~ In "013"%char (list_ascii_of_string parameters) ->
      issued (snd (updateResource server resource parameters st))
      = issued st ++ [BashCommand script [] commandOptionsWrite]
      /\ fst (updateResource server resource parameters st)
         = match fst (run server (BashCommand script [] commandOptionsWrite) true
                          (world st)) with
           | ROk _ => Ok tt
           | RErr e => Err e
           end).
Proof.
  intros script. split.
  - intros Hbreak. unfold updateResource, bind, load.
    assert (H : exists c, In c (list_ascii_of_string parameters)
                          /\ RegExp.isLineTerminator c = true).
    { destruct Hbreak as [H | H]; eexists; (split; [exact H | reflexivity]). }
    destruct H as (c & Hin & Hc).
    rewrite (ensureSingleLine_rejects _ _ c st Hin Hc). reflexivity.
  - intros Hlf Hcr.
    assert (Hall : Forall (fun c => RegExp.isLineTerminator c = false)
                          (list_ascii_of_string parameters)).
    { apply List.Forall_forall. intros c Hc.
      destruct (RegExp.isLineTerminator c) eqn:Ht; [| reflexivity].
      exfalso. unfold RegExp.isLineTerminator, RegExp.code in Ht.
      apply orb_true_iff in Ht. destruct Ht as [Ht | Ht]; apply N.eqb_eq in Ht.
      - apply Hlf. replace "010"%char with c; [exact Hc |].
        rewrite <- (ascii_N_embedding c), Ht. reflexivity.
      - apply Hcr. replace "013"%char with c; [exact Hc |].
        rewrite <- (ascii_N_embedding c), Ht. reflexivity. }
    unfold updateResource, bind, load.
    rewrite (ensureSingleLine_accepts _ _ st Hall). fold script.
    unfold execute.
    destruct (run server (BashCommand script [] commandOptionsWrite) true (world st))
      as [[p | e] w]; split; reflexivity.
Qed.

Lemma updateResource_single_line_witness :
  updateResource Sample.succeeding 0 "ip=10.0.0.9
cidr_netmask=24" Sample.ranked
  = (Err (ProcessError "PCS update parameters must be a single line."), Sample.ranked)
  /\ issued (snd (updateResource Sample.succeeding 0 "ip=10.0.0.9" Sample.ranked))
     = [BashCommand "pcs resource update 'iscsi_VIP_g1' ip=10.0.0.9" [] commandOptionsWrite].
Proof.
  split.
  - apply (proj1 (updateResource_single_line Sample.succeeding 0 _ Sample.ranked)).
    left. vm_compute. tauto.
  - apply (proj2 (updateResource_single_line Sample.succeeding 0 "ip=10.0.0.9"
                    Sample.ranked)).
    + vm_compute. intuition discriminate.
    + vm_compute. intuition discriminate.
Defined.

(** ** Instance attributes *)

Section Attributes.

Context {W : Type} (parse : string -> Result PCSConfigJson JsError) (server : Server W).

Lemma fetchResourceConfig_ok (resourceName : string) (st : State W) p w cfg :
  run server (resourceConfigCommand resourceName) true (world st) = (ROk p, w) ->
  parse (getStdout p) = ROk cfg ->
  fetchResourceConfig parse server resourceName st
  = (Ok cfg, afterCommand st (resourceConfigCommand resourceName) w).
Proof.
  intros Hrun Hparse. unfold fetchResourceConfig, bind.
  fold (resourceConfigCommand resourceName).
  rewrite (execute_ok _ _ _ _ _ _ Hrun), Hparse. reflexivity.
Qed.

Lemma collectValues_some (cfg : PCSConfigJson) (pairs : list NvPair)
    (names : list string) (acc : ValueMap.t) (st : State W) :
  firstPairs cfg = Some pairs ->
  exists m,
    collectValues cfg names acc st = (Ok m, st)
    /\ forall n, ValueMap.get m n
                 = if existsb (String.eqb n) names then Some (valueOfPair pairs n)
                   else ValueMap.get acc n.
Proof.
  intros Hpairs. revert acc. induction names as [|n0 names IH]; intros acc.
  - exists acc. split; [reflexivity |]. intros n. reflexivity.
  - cbn [collectValues]. rewrite Hpairs.
    destruct (IH (ValueMap.set acc n0 (valueOfPair pairs n0))) as (m & Hm & Hget).
    exists m. split; [exact Hm |]. intros n. rewrite Hget. cbn [existsb].
    destruct (existsb (String.eqb n) names); [rewrite orb_true_r; reflexivity |].
    rewrite orb_false_r.
    clear. induction acc as [|[k v] acc IHacc]; cbn [ValueMap.set ValueMap.get].
    + rewrite (String.eqb_sym n0 n). destruct (String.eqb_spec n n0) as [Heq | ?]; [rewrite Heq |]; reflexivity.
    + destruct (String.eqb_spec k n0) as [-> | Hne]; cbn [ValueMap.get].
      * rewrite (String.eqb_sym n0 n).
        destruct (String.eqb_spec n n0) as [Heq | ?]; [rewrite Heq |]; reflexivity.
      * rewrite IHacc. destruct (String.eqb_spec k n) as [-> | Hkn]; [| reflexivity].
        destruct (String.eqb_spec n n0); [congruence | reflexivity].
Qed.

(** X15: on a configuration answer that parses,
    [fetchResourceInstanceAttributeValue] reads the first attribute set of
    the first primitive only: it returns the value of the first pair of
    that set bearing the name, or nothing when no pair of that set bears
    it; when the answer has no primitive, or its first primitive has no
    attribute set, it ends in a thrown type error instead of a failure
    result. *)
Theorem fetchResourceInstanceAttributeValue_first_set (resourceName nvPairName : string)
    (st : State W) (p : Process) (w : W) (cfg : PCSConfigJson) :
  run server (resourceConfigCommand resourceName) true (world st) = (ROk p, w) ->
  parse (getStdout p) = ROk cfg ->
  (forall primitive rest attribute others,
      primitives cfg = Some (primitive :: rest) ->
      instance_attributes primitive = attribute :: others ->
      fetchResourceInstanceAttributeValue parse server resourceName nvPairName st
      = (Ok (nvValue <$> List.find (fun pair => String.eqb (nvName pair) nvPairName)
                                   (nvpairs attribute)),
         afterCommand st (resourceConfigCommand resourceName) w))
  /\ ((primitives cfg = None \/ primitives cfg = Some []
       \/ exists primitive rest, primitives cfg = Some (primitive :: rest)
                                 /\ instance_attributes primitive = []) ->
      fetchResourceInstanceAttributeValue parse server resourceName nvPairName st
      = (Threw TypeErrorOnUndefined, afterCommand st (resourceConfigCommand resourceName) w)).
Proof.
  intros Hrun Hparse.
  pose proof (fetchResourceConfig_ok resourceName st p w cfg Hrun Hparse) as Hcfg.
  split.
  - intros primitive rest attribute others Hprims Hattrs.
    unfold fetchResourceInstanceAttributeValue, bind. rewrite Hcfg.
    unfold firstPairs. rewrite Hprims, Hattrs. reflexivity.
  - intros Hmissing.
    unfold fetchResourceInstanceAttributeValue, bind. rewrite Hcfg.
    unfold firstPairs.
    destruct Hmissing as [-> | [-> | (primitive & rest & -> & ->)]]; reflexivity.
Qed.

(** X16: [fetchResourceInstanceAttributeValues] answers every requested
    name with what the first attribute set of the first primitive holds
    for it (nothing when the set has no such pair) and holds no other
    name; with an empty list of names it returns the empty map even when
    the answer has no primitive, while a non-empty list then ends in a
    thrown type error. *)
Theorem fetchResourceInstanceAttributeValues_requested (resourceName : string)
    (names : list string) (st : State W) (p : Process) (w : W) (cfg : PCSConfigJson) :
  run server (resourceConfigCommand resourceName) true (world st) = (ROk p, w) ->
  parse (getStdout p) = ROk cfg ->
  (forall pairs,
      firstPairs cfg = Some pairs ->
      exists m,
        fetchResourceInstanceAttributeValues parse server resourceName names st
        = (Ok m, afterCommand st (resourceConfigCommand resourceName) w)
        /\ (forall n, In n names -> ValueMap.get m n = Some (valueOfPair pairs n))
        /\ (forall n, ~ In n names -> ValueMap.get m n = None))
  /\ (firstPairs cfg = None ->
      fetchResourceInstanceAttributeValues parse server resourceName names st
      = (match names with
         | [] => Ok []
         | _ :: _ => Threw TypeErrorOnUndefined
         end, afterCommand st (resourceConfigCommand resourceName) w)).
Proof.
  intros Hrun Hparse.
  pose proof (fetchResourceConfig_ok resourceName st p w cfg Hrun Hparse) as Hcfg.
  split.
  - intros pairs Hpairs.
    destruct (collectValues_some cfg pairs names []
                (afterCommand st (resourceConfigCommand resourceName) w) Hpairs)
      as (m & Hm & Hget).
    exists m. split; [| split].
    + unfold fetchResourceInstanceAttributeValues, bind. rewrite Hcfg. exact Hm.
    + intros n Hin. rewrite Hget.
      rewrite (proj2 (member_ids_includes n names) Hin). reflexivity.
    + intros n Hnot. rewrite Hget.
      destruct (existsb (String.eqb n) names) eqn:Hex; [| reflexivity].
      apply member_ids_includes in Hex. contradiction.
  - intros Hnone.
    unfold fetchResourceInstanceAttributeValues, bind. rewrite Hcfg.
    destruct names as [|n names]; cbn [collectValues]; [reflexivity |].
    rewrite Hnone. reflexivity.
Qed.

End Attributes.

Lemma fetchResourceInstanceAttributeValue_first_set_witness :
  fetchResourceInstanceAttributeValue Sample2.parse (Sample2.describing Sample2.vipConfig)
    "iscsi_VIP_g1" "cidr_netmask" Sample.fresh
  = (Ok (Some "24"), afterCommand Sample.fresh (resourceConfigCommand "iscsi_VIP_g1") tt)
  /\ fetchResourceInstanceAttributeValue Sample2.parse
       (Sample2.describing Sample2.vipConfig) "iscsi_VIP_g1" "nic" Sample.fresh
     = (Ok None, afterCommand Sample.fresh (resourceConfigCommand "iscsi_VIP_g1") tt)
  /\ fetchResourceInstanceAttributeValue Sample2.parse
       (Sample2.describing Sample2.otherConfig) "iscsi_VIP_g1" "ip" Sample.fresh
     = (Threw TypeErrorOnUndefined,
        afterCommand Sample.fresh (resourceConfigCommand "iscsi_VIP_g1") tt).
Proof.
  split; [| split].
  - refine (proj1 (fetchResourceInstanceAttributeValue_first_set Sample2.parse
                     (Sample2.describing Sample2.vipConfig) "iscsi_VIP_g1" "cidr_netmask"
                     Sample.fresh
                     {| getStdout := Sample.render Sample2.vipConfig; exitStatus := 0 |} tt
                     Sample2.vipConfig _ _) _ _ _ _ eq_refl eq_refl);
      vm_compute; reflexivity.
  - refine (proj1 (fetchResourceInstanceAttributeValue_first_set Sample2.parse
                     (Sample2.describing Sample2.vipConfig) "iscsi_VIP_g1" "nic"
                     Sample.fresh
                     {| getStdout := Sample.render Sample2.vipConfig; exitStatus := 0 |} tt
                     Sample2.vipConfig _ _) _ _ _ _ eq_refl eq_refl);
      vm_compute; reflexivity.
  - refine (proj2 (fetchResourceInstanceAttributeValue_first_set Sample2.parse
                     (Sample2.describing Sample2.otherConfig) "iscsi_VIP_g1" "ip"
                     Sample.fresh
                     {| getStdout := Sample.render Sample2.otherConfig; exitStatus := 0 |} tt
                     Sample2.otherConfig _ _) _);
      [vm_compute; reflexivity | vm_compute; reflexivity | right; left; reflexivity].
Defined.

Lemma fetchResourceInstanceAttributeValues_requested_witness :
  fst (fetchResourceInstanceAttributeValues Sample2.parse
         (Sample2.describing Sample2.vipConfig) "iscsi_VIP_g1" ["ip"; "nic"; "ip"]
         Sample.fresh)
  = Ok [("ip", Some "10.0.0.9"); ("nic", None)]
  /\ fst (fetchResourceInstanceAttributeValues Sample2.parse
            (Sample2.describing Sample2.otherConfig) "iscsi_VIP_g1" [] Sample.fresh)
     = Ok [].
Proof.
  split.
  - destruct (proj1 (fetchResourceInstanceAttributeValues_requested Sample2.parse
                       (Sample2.describing Sample2.vipConfig) "iscsi_VIP_g1"
                       ["ip"; "nic"; "ip"] Sample.fresh
                       {| getStdout := Sample.render Sample2.vipConfig; exitStatus := 0 |}
                       tt Sample2.vipConfig
                       ltac:(vm_compute; reflexivity) ltac:(vm_compute; reflexivity))
                _ eq_refl) as (m & Hm & _).
    rewrite Hm. cbn [fst]. f_equal.
    apply (f_equal fst) in Hm. vm_compute in Hm. inversion Hm. reflexivity.
  - rewrite (proj2 (fetchResourceInstanceAttributeValues_requested Sample2.parse
                      (Sample2.describing Sample2.otherConfig) "iscsi_VIP_g1" []
                      Sample.fresh
                      {| getStdout := Sample.render Sample2.otherConfig; exitStatus := 0 |}
                      tt Sample2.otherConfig
                      ltac:(vm_compute; reflexivity) ltac:(vm_compute; reflexivity))
               eq_refl).
    reflexivity.
Defined.

(** ** Looking a resource up by name *)

Lemma find_refs {A B} (p : B -> bool) (f : A -> B) (refs : list A) :
  fst <$> List.find (fun x => p (snd x)) (combine refs (List.map f refs))
  = List.find (fun l => p (f l)) refs.
Proof.
  induction refs as [|l refs IH]; [reflexivity |].
  cbn [List.map combine List.find snd]. destruct (p (f l)); [reflexivity | exact IH].
Qed.

Lemma fetchResourceByName_cached {W} catalog parse (server : Server W)
    (resourceName : string) (st : State W) (refs : list loc) :
  currentResources st = Some refs ->
  fetchResourceByName catalog parse server resourceName st
  = (Ok (List.find (fun l => String.eqb (name (store st !!! l)) resourceName) refs), st).
Proof.
  intros Hcache. unfold fetchResourceByName, bind.
  rewrite (fetchResources_cached catalog parse server st refs Hcache).
  unfold loadAll, ret.
  rewrite (find_refs (fun r => String.eqb (name r) resourceName)
             (fun l => store st !!! l) refs).
  reflexivity.
Qed.

(** X17: on a populated cache [fetchResourceByName] issues no command and
    returns the first cached resource of the name, or nothing when no
    cached resource has it. After a successful [createResource] the lookup
    of the normalised name therefore finds a resource of that name, and it
    is the created one when the name was not in the cache before. *)
Theorem create_then_lookup {W} catalog parse (server server0 : Server W)
    (name0 creationArguments : string) (type : PCSResourceType)
    (st : State W) (refs : list loc) (p : Process) (w : W) :
  currentResources st = Some refs ->
  Forall (fun l => l < length (store st)) refs ->
  Forall (fun c => RegExp.isLineTerminator c = false)
         (list_ascii_of_string creationArguments) ->
  run server0 (createCommand (Js.replace ":" "_" name0) creationArguments) true (world st)
  = (ROk p, w) ->
  (forall n, fetchResourceByName catalog parse server n st
             = (Ok (List.find (fun l => String.eqb (name (store st !!! l)) n) refs), st))
  /\ exists created st1 found,
       createResource name0 creationArguments type server0 st = (Ok created, st1)
       /\ fetchResourceByName catalog parse server (Js.replace ":" "_" name0) st1
          = (Ok (Some found), st1)
       /\ name (store st1 !!! found) = Js.replace ":" "_" name0
       /\ (Forall (fun l => name (store st !!! l) <> Js.replace ":" "_" name0) refs ->
           found = created).
Proof.
  intros Hcache Hvalid Hline Hrun.
  split; [intros n; apply fetchResourceByName_cached; exact Hcache |].
  set (n := Js.replace ":" "_" name0) in *.
  pose proof (createResource_ok name0 creationArguments type server0 st refs p w
                Hline Hcache Hrun) as Hc.
  fold n in Hc.
  match type of Hc with _ = (_, ?s1) => set (st1 := s1) in * end.
  pose proof (fetchResourceByName_cached catalog parse server n st1
                (refs ++ [length (store st)]) eq_refl) as Hlookup.
  assert (Hnew : name (store st1 !!! length (store st)) = n).
  { unfold st1. cbn [store]. rewrite lookup_total_app_new. reflexivity. }
  assert (Hold : forall l, In l refs -> store st1 !!! l = store st !!! l).
  { intros l Hl. unfold st1. cbn [store]. apply lookup_total_app_old.
    exact (proj1 (List.Forall_forall _ _) Hvalid l Hl). }
  destruct (List.find (fun l => String.eqb (name (store st1 !!! l)) n)
                      (refs ++ [length (store st)])) as [found|] eqn:Hfind.
  - exists (length (store st)), st1, found.
    split; [exact Hc | split; [exact Hlookup |]].
    pose proof (find_some _ _ Hfind) as [Hin Hname]. apply String.eqb_eq in Hname.
    split; [exact Hname |].
    intros Hfresh. apply in_app_or in Hin. destruct Hin as [Hin | [<- | []]]; [| reflexivity].
    exfalso. apply (proj1 (List.Forall_forall _ _) Hfresh found Hin).
    rewrite <- (Hold found Hin). exact Hname.
  - exfalso.
    assert (Hin : In (length (store st)) (refs ++ [length (store st)])).
    { apply in_or_app. right. left. reflexivity. }
    pose proof (find_none _ _ Hfind (length (store st)) Hin) as Hno.
    change (String.eqb (name (store st1 !!! length (store st))) n = false) in Hno.
    rewrite Hnew, String.eqb_refl in Hno. discriminate.
Qed.

Lemma create_then_lookup_witness :
  currentResources Sample.ranked = Some [0; 1; 2; 3]
  /\ fetchResourceByName Sample.catalog Sample.parse Sample.failing "iscsi_LUN_g1"
       Sample.ranked = (Ok (Some 2), Sample.ranked)
  /\ exists created st1,
       createResource "rbd:img" "pool=rbd" 4 Sample.succeeding Sample.ranked
       = (Ok created, st1)
       /\ fetchResourceByName Sample.catalog Sample.parse Sample.failing "rbd_img" st1
          = (Ok (Some created), st1).
Proof.
  destruct (create_then_lookup Sample.catalog Sample.parse Sample.failing Sample.succeeding
              "rbd:img" "pool=rbd" 4 Sample.ranked [0; 1; 2; 3]
              {| getStdout := EmptyString; exitStatus := 0 |} tt)
    as (Hfind & created & st1 & found & Hcreate & Hlookup & _ & Hsame).
  - reflexivity.
  - cbn. repeat constructor.
  - vm_compute. repeat constructor.
  - reflexivity.
  - split; [reflexivity |]. split; [exact (Hfind "iscsi_LUN_g1") |].
    exists created, st1. split; [exact Hcreate |].
    rewrite <- (Hsame ltac:(repeat constructor; vm_compute; discriminate)).
    exact Hlookup.
Defined.

(** ** [addResourceToGroup], when the command succeeds *)

(** X18: when the add-to-group command succeeds, [addResourceToGroup]
    returns success and the resource object now refers to the group, with
    its name and type unchanged; no other stored object changes and the
    cache is as [fetchResources] left it. A cached resource
    is from then on a member of the group in the snapshot. *)
Theorem addResourceToGroup_success {W} catalog parse (server : Server W)
    (resource : loc) (group : PCSResourceGroup) (st st1 : State W) (refs : list loc) :
  fetchResources catalog parse server st = (Ok refs, st1) ->
  resource < length (store st1) ->
  fst (addResourceToGroup catalog parse server resource group st) = Ok tt ->
  let st2 := snd (addResourceToGroup catalog parse server resource group st) in
  resourceGroup (store st2 !!! resource) = Some group
  /\ name (store st2 !!! resource) = name (store st1 !!! resource)
  /\ resourceType (store st2 !!! resource) = resourceType (store st1 !!! resource)
  /\ (forall l, l <> resource -> store st2 !!! l = store st1 !!! l)
  /\ currentResources st2 = currentResources st1
  /\ (In resource refs ->
      In (store st2 !!! resource)
         (List.filter (inGroup (groupName group)) (objectsOf st2 refs))).
Proof.
  intros Hfetch Hlt Hok st2. subst st2.
  rewrite (addResourceToGroup_run catalog parse server resource group st st1 refs Hfetch)
    in *.
  destruct (run server _ true (world st1)) as [[p | e] w]; [| discriminate Hok].
  cbn [snd afterCommand withGroup store currentResources].
  rewrite list_lookup_total_insert_eq by exact Hlt. cbn [resourceGroup name resourceType].
  repeat split.
  - intros l Hne. apply list_lookup_total_insert_ne. congruence.
  - intros Hin. apply filter_In. split.
    + unfold objectsOf. cbn [store].
      apply in_map_iff. exists resource. split; [| exact Hin].
      cbn [afterCommand withGroup store].
      rewrite list_lookup_total_insert_eq by exact Hlt. reflexivity.
    + unfold inGroup. cbn [resourceGroup]. apply String.eqb_refl.
Qed.

Lemma addResourceToGroup_success_witness :
  fetchResources Sample.catalog Sample.parse Sample.succeeding Sample.ranked
  = (Ok [0; 1; 2; 3], Sample.ranked)
  /\ fst (addResourceToGroup Sample.catalog Sample.parse Sample.succeeding 3 Sample.g1
            Sample.ranked) = Ok tt
  /\ resourceGroup
       (store (snd (addResourceToGroup Sample.catalog Sample.parse Sample.succeeding 3
                      Sample.g1 Sample.ranked)) !!! 3) = Some Sample.g1.
Proof.
  assert (Hfetch : fetchResources Sample.catalog Sample.parse Sample.succeeding Sample.ranked
                   = (Ok [0; 1; 2; 3], Sample.ranked)) by reflexivity.
  assert (Hok : fst (addResourceToGroup Sample.catalog Sample.parse Sample.succeeding 3
                       Sample.g1 Sample.ranked) = Ok tt) by (vm_compute; reflexivity).
  split; [exact Hfetch | split; [exact Hok |]].
  refine (proj1 (addResourceToGroup_success Sample.catalog Sample.parse Sample.succeeding
                   3 Sample.g1 Sample.ranked Sample.ranked [0; 1; 2; 3] Hfetch _ Hok)).
  cbn. lia.
Defined.

(** * Properties of the configuration manager and the driver *)

Lemma test_class (p : ascii -> bool) (s : string) :
  RegExp.test [RegExp.Class p] s = existsb p (list_ascii_of_string s).
Proof.
  unfold RegExp.test. generalize (@None ascii) as prev.
  induction s as [|d s IH]; intros prev; [reflexivity |].
  cbn [RegExp.search RegExp.matchHere list_ascii_of_string existsb].
  destruct (p d); [reflexivity | apply IH].
Qed.

(** ** [importConfiguration] *)

(** X19: when the file is created and written and the syntax check
    succeeds, [importConfiguration] succeeds whatever the command that
    applies the configuration answers: its result, a failure included, is
    the value of the success. The commands issued are the check and the
    application, in this order. *)
Theorem importConfiguration_apply_unreported {W} (confPath : string) (files : File.Ops W)
    (server : Server W) (newConfig : string) (st : State W)
    (created written : File.t) (checked : Process) (applied : Result Process JsError)
    (w1 w2 w3 w4 : W) :
  let check :=
    BashCommand ("scstadmin -check_config " +:+ confPath) [] commandOptionsWrite in
  let apply_ :=
    BashCommand ("scstadmin -config " +:+ confPath +:+ " -force -noprompt") []
                commandOptionsWrite in
  File.create files {| File.path := confPath |} true commandOptionsWrite (world st)
  = (ROk created, w1) ->
  File.write files created newConfig commandOptionsWrite w1 = (ROk written, w2) ->
  run server check true w2 = (ROk checked, w3) ->
  run server apply_ true w3 = (applied, w4) ->
  ConfigurationManager.importConfiguration confPath files server newConfig st
  = (Ok applied, afterCommands st [check; apply_] w4).
Proof.
  intros check apply_ Hcreate Hwrite Hcheck Happly.
  unfold ConfigurationManager.importConfiguration, mapErr, mapAsync, bind, fileOp, execute.
  rewrite Hcreate. cbn [world issued store currentResources].
  rewrite Hwrite. cbn [world issued store currentResources].
  fold check. rewrite Hcheck. cbn [world issued store currentResources].
  fold apply_. rewrite Happly.
  unfold afterCommands. rewrite <- app_assoc.
  destruct applied; reflexivity.
Qed.

Lemma importConfiguration_apply_unreported_witness :
  ConfigurationManager.importConfiguration Sample3.confPath (Sample3.files true)
    Sample3.rejecting "TARGET_DRIVER iscsi {}" Sample.fresh
  = (Ok Sample.failure,
     afterCommands Sample.fresh
       [BashCommand "scstadmin -check_config /etc/scst.conf" [] commandOptionsWrite;
        BashCommand "scstadmin -config /etc/scst.conf -force -noprompt" []
                    commandOptionsWrite] tt).
Proof.
  apply (importConfiguration_apply_unreported Sample3.confPath (Sample3.files true)
           Sample3.rejecting "TARGET_DRIVER iscsi {}" Sample.fresh
           {| File.path := Sample3.confPath |} {| File.path := Sample3.confPath |}
           {| getStdout := EmptyString; exitStatus := 0 |} Sample.failure tt tt tt tt);
    reflexivity.
Defined.

(** X20: [importConfiguration] has one failure message. Whatever fails,
    the creation of the file, the write or the syntax check, the error is
    "Config file syntax validation failed."; in particular, when the file
    cannot be created this is the error, and no command has been issued. *)
Theorem importConfiguration_single_message {W} (confPath : string) (files : File.Ops W)
    (server : Server W) (newConfig : string) (st : State W) :
  (forall e, fst (ConfigurationManager.importConfiguration confPath files server newConfig st)
             = Err e ->
             e = ProcessError "Config file syntax validation failed.")
  /\ (forall x, fst (ConfigurationManager.importConfiguration confPath files server
                       newConfig st) <> Threw x)
  /\ (forall e0 w1,
        File.create files {| File.path := confPath |} true commandOptionsWrite (world st)
        = (RErr e0, w1) ->
        ConfigurationManager.importConfiguration confPath files server newConfig st
        = (Err (ProcessError "Config file syntax validation failed."), afterFile st w1)).
Proof.
  unfold ConfigurationManager.importConfiguration, mapErr, mapAsync, bind, fileOp, execute.
  destruct (File.create files _ true commandOptionsWrite (world st)) as [[created | e0] w1];
    cbn [world issued store currentResources].
  2: { repeat split; cbn [fst]; [congruence | congruence |].
       intros e1 w Heq. inversion Heq; subst. reflexivity. }
  destruct (File.write files created newConfig commandOptionsWrite w1) as [[written | e1] w2];
    cbn [world issued store currentResources].
  2: { repeat split; cbn [fst]; congruence. }
  destruct (run server _ true w2) as [[checked | e2] w3];
    cbn [world issued store currentResources].
  2: { repeat split; cbn [fst]; congruence. }
  destruct (run server _ true w3) as [[applied | e3] w4];
    repeat split; cbn [fst]; congruence.
Qed.

Lemma importConfiguration_single_message_witness :
  ConfigurationManager.importConfiguration Sample3.confPath Sample3.missing
    Sample.succeeding "TARGET_DRIVER iscsi {}" Sample.fresh
  = (Err (ProcessError "Config file syntax validation failed."), Sample.fresh).
Proof.
  exact (proj2 (proj2 (importConfiguration_single_message Sample3.confPath Sample3.missing
                         Sample.succeeding "TARGET_DRIVER iscsi {}" Sample.fresh))
           (ProcessError "cannot create") tt eq_refl).
Defined.

(** ** [saveCurrentConfiguration] *)

(** X21: [saveCurrentConfiguration] does not look at the outcome of
    writing the exported configuration. Once the file is created and the
    export succeeds, the text written is the output of [cat], and whether
    the write succeeds or fails the service is enabled and the
    configuration applied; when these two commands succeed the operation
    succeeds with the created file. *)
Theorem saveCurrentConfiguration_write_unchecked {W} (confPath : string)
    (files : File.Ops W) (server : Server W) (st : State W) (file : File.t)
    (written : Result File.t JsError) (p1 p2 p3 p4 : Process) (w1 w2 w3 w4 w5 w6 : W) :
  let writeConfig :=
    BashCommand ("scstadmin -write_config " +:+ confPath) [] commandOptionsWrite in
  let cat := BashCommand ("cat " +:+ confPath) [] commandOptionsWrite in
  let enable := BashCommand "systemctl enable scst" [] commandOptionsWrite in
  let apply_ := BashCommand ("scstadmin -config " +:+ confPath) [] commandOptionsWrite in
  File.create files {| File.path := confPath |} true commandOptionsWrite (world st)
  = (ROk file, w1) ->
  run server writeConfig true w1 = (ROk p1, w2) ->
  run server cat true w2 = (ROk p2, w3) ->
  File.write files file (getStdout p2) commandOptionsWrite w3 = (written, w4) ->
  run server enable true w4 = (ROk p3, w5) ->
  run server apply_ true w5 = (ROk p4, w6) ->
  ConfigurationManager.saveCurrentConfiguration confPath files server st
  = (Ok file, afterCommands st [writeConfig; cat; enable; apply_] w6).
Proof.
  intros writeConfig cat enable apply_ Hcreate Hexport Hcat Hwrite Henable Happly.
  unfold ConfigurationManager.saveCurrentConfiguration,
    ConfigurationManager.exportConfiguration, mapAsync, bind, fileOp, execute, ret.
  rewrite Hcreate. cbn [world issued store currentResources].
  fold writeConfig. rewrite Hexport. cbn [world issued store currentResources].
  fold cat. rewrite Hcat. cbn [world issued store currentResources].
  rewrite Hwrite.
  destruct written; cbn [world issued store currentResources];
    fold enable; rewrite Henable; cbn [world issued store currentResources];
    fold apply_; rewrite Happly; unfold afterCommands; rewrite <- !app_assoc; reflexivity.
Qed.

Lemma saveCurrentConfiguration_write_unchecked_witness :
  File.write (Sample3.files false) {| File.path := Sample3.confPath |} EmptyString
    commandOptionsWrite tt = (RErr (ProcessError "write failed"), tt)
  /\ ConfigurationManager.saveCurrentConfiguration Sample3.confPath (Sample3.files false)
       Sample.succeeding Sample.fresh
     = (Ok {| File.path := Sample3.confPath |},
        afterCommands Sample.fresh
          [BashCommand "scstadmin -write_config /etc/scst.conf" [] commandOptionsWrite;
           BashCommand "cat /etc/scst.conf" [] commandOptionsWrite;
           BashCommand "systemctl enable scst" [] commandOptionsWrite;
           BashCommand "scstadmin -config /etc/scst.conf" [] commandOptionsWrite] tt).
Proof.
  split; [reflexivity |].
  apply (saveCurrentConfiguration_write_unchecked Sample3.confPath (Sample3.files false)
           Sample.succeeding Sample.fresh {| File.path := Sample3.confPath |}
           (RErr (ProcessError "write failed"))
           {| getStdout := EmptyString; exitStatus := 0 |}
           {| getStdout := EmptyString; exitStatus := 0 |}
           {| getStdout := EmptyString; exitStatus := 0 |}
           {| getStdout := EmptyString; exitStatus := 0 |} tt tt tt tt tt tt);
    reflexivity.
Defined.

(** ** The validated configuration path *)

(** X22: in the revision that validates the configured path, a path that
    is not absolute or that contains a line break makes the three
    operations fail before anything happens: no file is created and no
    command is issued. The error says that the path must be absolute when
    it is not, and that it must be a single line otherwise; the import
    reports it as it is, not as a syntax validation failure. *)
Theorem invalid_path_refused {W} (confPath : string) (isAbsolute : string -> bool)
    (files : File.Ops W) (server : Server W) (newConfig : string) (st : State W) :
  isAbsolute confPath = false \/ hasLineBreak confPath = true ->
  let e := ProcessError (if isAbsolute confPath
                         then "iSCSI config path must be a single line."
                         else "iSCSI config path must be an absolute path.") in
  ValidatedConfigurationManager.exportConfiguration confPath isAbsolute server st
  = (Err e, st)
  /\ ValidatedConfigurationManager.importConfiguration confPath isAbsolute files server
       newConfig st = (Err e, st)
  /\ ValidatedConfigurationManager.saveCurrentConfiguration confPath isAbsolute files
       server st = (Err e, st).
Proof.
  intros Hbad e.
  assert (Hcheck : ValidatedConfigurationManager.ensureAbsolutePath isAbsolute confPath
                     "iSCSI config path" st = (Err e, st)).
  { unfold ValidatedConfigurationManager.ensureAbsolutePath, e, RegExp.lineBreak.
    rewrite test_class. fold (hasLineBreak confPath).
    destruct (isAbsolute confPath); cbn [negb]; [| reflexivity].
    destruct Hbad as [Habs | ->]; [discriminate Habs | reflexivity]. }
  unfold ValidatedConfigurationManager.exportConfiguration,
    ValidatedConfigurationManager.importConfiguration,
    ValidatedConfigurationManager.saveCurrentConfiguration, bind.
  rewrite Hcheck. repeat split.
Qed.

Lemma invalid_path_refused_witness :
  ValidatedConfigurationManager.saveCurrentConfiguration "scst.conf" (Js.startsWith "/")
    (Sample3.files true) Sample.succeeding Sample.fresh
  = (Err (ProcessError "iSCSI config path must be an absolute path."), Sample.fresh)
  /\ ValidatedConfigurationManager.importConfiguration ("/etc/scst.conf" +:+ LF +:+ "x")
       (Js.startsWith "/") (Sample3.files true) Sample.succeeding "TARGET_DRIVER iscsi {}"
       Sample.fresh
     = (Err (ProcessError "iSCSI config path must be a single line."), Sample.fresh).
Proof.
  split.
  - exact (proj2 (proj2 (invalid_path_refused "scst.conf" (Js.startsWith "/")
                           (Sample3.files true) Sample.succeeding EmptyString Sample.fresh
                           (or_introl eq_refl)))).
  - exact (proj1 (proj2 (invalid_path_refused ("/etc/scst.conf" +:+ LF +:+ "x")
                           (Js.startsWith "/") (Sample3.files true) Sample.succeeding
                           "TARGET_DRIVER iscsi {}" Sample.fresh (or_intror eq_refl)))).
Defined.

(** ** The driver's validation *)

Lemma ensureNoWhitespace_spec (value label : string) :
  ISCSIDriverSingleServer.ensureNoWhitespace value label
  = if hasWhitespace value
    then RErr (ProcessError (label +:+ " must not contain whitespace."))
    else ROk value.
Proof.
  unfold ISCSIDriverSingleServer.ensureNoWhitespace, ISCSIDriverSingleServer.whitespace.
  rewrite test_class. reflexivity.
Qed.

Ltac refuse :=
  unfold refused, ISCSIDriverSingleServer.createTarget, ISCSIDriverSingleServer.removeTarget,
    ISCSIDriverSingleServer.addPortalToTarget, ISCSIDriverSingleServer.deletePortalFromTarget,
    ISCSIDriverSingleServer.addInitiatorGroupToTarget,
    ISCSIDriverSingleServer.deleteInitiatorGroupFromTarget,
    ISCSIDriverSingleServer.addInitiatorToGroup,
    ISCSIDriverSingleServer.removeInitiatorFromGroup, bind;
  rewrite ?ensureNoWhitespace_spec;
  repeat match goal with H : hasWhitespace _ = _ |- _ => rewrite H end;
  repeat split.

(** X23: the driver operations that take names refuse whitespace before
    anything is written. A target name, portal address, initiator group
    name or initiator name with a whitespace character makes the operation
    fail with "<field> must not contain whitespace." for the first such
    field in the order the operation checks them, and the state is as it
    was: no file is written and no command is issued. *)
Theorem whitespace_refused_before_any_write {W} (confPath : string) (files : File.Ops W)
    (server : Server W) (target : ISCSIDriverSingleServer.Target.t)
    (portal : ISCSIDriverSingleServer.Portal.t)
    (initiatorGroup : ISCSIDriverSingleServer.InitiatorGroup.t)
    (initiator : ISCSIDriverSingleServer.Initiator.t) (st : State W) :
  let targetName := ISCSIDriverSingleServer.Target.name target in
  let address := ISCSIDriverSingleServer.Portal.address portal in
  let groupName := ISCSIDriverSingleServer.InitiatorGroup.name initiatorGroup in
  let initiatorName := ISCSIDriverSingleServer.Initiator.name initiator in
  (hasWhitespace targetName = true ->
   refused (ISCSIDriverSingleServer.createTarget confPath files server target)
           "Target name" st
   /\ refused (ISCSIDriverSingleServer.removeTarget confPath files server target)
              "Target name" st
   /\ refused (ISCSIDriverSingleServer.addPortalToTarget confPath files server target portal)
              "Target name" st
   /\ refused (ISCSIDriverSingleServer.deletePortalFromTarget confPath files server target
                 portal) "Target name" st
   /\ refused (ISCSIDriverSingleServer.addInitiatorGroupToTarget confPath files server
                 target initiatorGroup) "Target name" st
   /\ refused (ISCSIDriverSingleServer.deleteInitiatorGroupFromTarget confPath files server
                 target initiatorGroup) "Target name" st)
  /\ (hasWhitespace targetName = false -> hasWhitespace address = true ->
      refused (ISCSIDriverSingleServer.addPortalToTarget confPath files server target portal)
              "Portal address" st
      /\ refused (ISCSIDriverSingleServer.deletePortalFromTarget confPath files server
                    target portal) "Portal address" st)
  /\ (hasWhitespace targetName = false -> hasWhitespace groupName = true ->
      refused (ISCSIDriverSingleServer.addInitiatorGroupToTarget confPath files server
                 target initiatorGroup) "Initiator group name" st
      /\ refused (ISCSIDriverSingleServer.deleteInitiatorGroupFromTarget confPath files
                    server target initiatorGroup) "Initiator group name" st)
  /\ (hasWhitespace groupName = true ->
      refused (ISCSIDriverSingleServer.addInitiatorToGroup confPath files server
                 initiatorGroup initiator) "Initiator group name" st
      /\ refused (ISCSIDriverSingleServer.removeInitiatorFromGroup confPath files server
                    initiatorGroup initiator) "Initiator group name" st)
  /\ (hasWhitespace groupName = false -> hasWhitespace initiatorName = true ->
      refused (ISCSIDriverSingleServer.addInitiatorToGroup confPath files server
                 initiatorGroup initiator) "Initiator name" st
      /\ refused (ISCSIDriverSingleServer.removeInitiatorFromGroup confPath files server
                    initiatorGroup initiator) "Initiator name" st).
Proof.
  intros targetName address groupName initiatorName.
  subst targetName address groupName initiatorName.
  split; [| split; [| split; [| split]]].
  - intros Ht. refuse.
  - intros Ht Ha. refuse.
  - intros Ht Hg. refuse.
  - intros Hg. refuse.
  - intros Hg Hi. refuse.
Qed.

Lemma whitespace_refused_before_any_write_witness :
  refused (ISCSIDriverSingleServer.createTarget Sample3.confPath (Sample3.files true)
             Sample.succeeding Sample3.target) "Target name" Sample.fresh
  /\ refused (ISCSIDriverSingleServer.addInitiatorToGroup Sample3.confPath
                (Sample3.files true) Sample.succeeding Sample3.group
                {| ISCSIDriverSingleServer.Initiator.name := "iqn.1993-08.org.debian: 01" |})
             "Initiator name" Sample.fresh.
Proof.
  pose proof (whitespace_refused_before_any_write Sample3.confPath (Sample3.files true)
                Sample.succeeding Sample3.target
                {| ISCSIDriverSingleServer.Portal.address := "10.0.0.1" |} Sample3.group
                {| ISCSIDriverSingleServer.Initiator.name := "iqn.1993-08.org.debian: 01" |}
                Sample.fresh) as (Htarget & _ & _ & _ & Hinitiator).
  split.
  - exact (proj1 (Htarget eq_refl)).
  - exact (proj1 (Hinitiator eq_refl eq_refl)).
Defined.

(** ** Listing the initiators of a group *)

Lemma append_assoc (a b c : string) : (a +:+ b) +:+ c = a +:+ (b +:+ c).
Proof.
  induction a as [|x a IH]; [reflexivity |].
  change (String x ((a +:+ b) +:+ c) = String x (a +:+ (b +:+ c))).
  rewrite IH. reflexivity.
Qed.

Lemma append_empty (a : string) : a +:+ EmptyString = a.
Proof.
  induction a as [|x a IH]; [reflexivity |].
  change (String x (a +:+ EmptyString) = String x a). rewrite IH. reflexivity.
Qed.

Lemma string_of_app (l : list ascii) (s : string) :
  string_of_list_ascii (l ++ list_ascii_of_string s) = string_of_list_ascii l +:+ s.
Proof.
  induction l as [|x l IH].
  - apply string_of_list_ascii_of_string.
  - change (String x (string_of_list_ascii (l ++ list_ascii_of_string s))
            = String x (string_of_list_ascii l +:+ s)).
    rewrite IH. reflexivity.
Qed.

Lemma string_of_snoc (current : list ascii) (c : ascii) (s : string) :
  string_of_list_ascii (List.rev (c :: current)) +:+ s
  = string_of_list_ascii (List.rev current) +:+ String c s.
Proof.
  cbn [List.rev]. rewrite <- !string_of_app. rewrite <- app_assoc. reflexivity.
Qed.

Lemma splitFrom_piece (sep : ascii) (n rest : string) (current : list ascii) :
  free sep n ->
  JsString.splitFrom sep current (n +:+ String sep rest)
  = (string_of_list_ascii (List.rev current) +:+ n) :: JsString.splitFrom sep [] rest.
Proof.
  revert current. induction n as [|c n IH]; intros current Hfree.
  - change (EmptyString +:+ String sep rest) with (String sep rest).
    cbn [JsString.splitFrom]. rewrite Ascii.eqb_refl, append_empty. reflexivity.
  - change (String c n +:+ String sep rest) with (String c (n +:+ String sep rest)).
    cbn [JsString.splitFrom].
    destruct (Ascii.eqb c sep) eqn:Heq.
    + apply Ascii.eqb_eq in Heq. exfalso. apply Hfree. left. exact Heq.
    + rewrite IH by (intros Hin; apply Hfree; right; exact Hin).
      rewrite string_of_snoc. reflexivity.
Qed.

Lemma splitFrom_tail (sep : ascii) (tail : string) (current : list ascii) :
  free sep tail ->
  JsString.splitFrom sep current tail
  = [string_of_list_ascii (List.rev current) +:+ tail].
Proof.
  revert current. induction tail as [|c tail IH]; intros current Hfree.
  - cbn [JsString.splitFrom]. rewrite append_empty. reflexivity.
  - cbn [JsString.splitFrom].
    destruct (Ascii.eqb c sep) eqn:Heq.
    + apply Ascii.eqb_eq in Heq. exfalso. apply Hfree. left. exact Heq.
    + rewrite IH by (intros Hin; apply Hfree; right; exact Hin).
      rewrite string_of_snoc. reflexivity.
Qed.

Lemma split_printed (names : list string) (tail : string) :
  Forall (free NUL) names -> free NUL tail ->
  JsString.split NUL (printed names +:+ tail) = names ++ [tail].
Proof.
  intros Hnames Htail. unfold JsString.split.
  induction Hnames as [|n names Hn _ IH].
  - cbn [printed]. change (EmptyString +:+ tail) with tail.
    rewrite splitFrom_tail by exact Htail. reflexivity.
  - cbn [printed]. rewrite append_assoc.
    change (String NUL (printed names) +:+ tail) with (String NUL (printed names +:+ tail)).
    rewrite splitFrom_piece by exact Hn. rewrite IH. reflexivity.
Qed.

Lemma free_decide (c : ascii) (s : string) :
  existsb (Ascii.eqb c) (list_ascii_of_string s) = false -> free c s.
Proof.
  intros Hnone Hin.
  assert (Hsome : existsb (Ascii.eqb c) (list_ascii_of_string s) = true).
  { apply existsb_exists. exists c. split; [exact Hin | apply Ascii.eqb_refl]. }
  congruence.
Qed.

Lemma combine_all_ok {A B} (f : A -> B) (items : list A) :
  ResultAsync.combine (List.map (fun x => ROk (f x)) items) = ROk (List.map f items).
Proof.
  induction items as [|x items IH]; [reflexivity |].
  cbn [List.map ResultAsync.combine]. rewrite IH. reflexivity.
Qed.

(** X24: [getInitiatorsOfInitiatorGroup] issues one listing command and
    reads its output back exactly. When [find] prints the entries [names],
    each followed by NUL, the result is one initiator per entry, in the
    order printed, without the entries named [mgmt]; text after the last
    NUL is ignored, and an empty output gives no initiator. *)
Theorem getInitiatorsOfInitiatorGroup_listing {W} (server : Server W)
    (initiatorGroup : ISCSIDriverSingleServer.InitiatorGroup.t) (st : State W)
    (names : list string) (tail : string) (p : Process) (w : W) :
  let command :=
    listCommand (ISCSIDriverSingleServer.InitiatorGroup.devicePath initiatorGroup
                 +:+ "/initiators") in
  Forall (free NUL) names -> free NUL tail ->
  run server command true (world st) = (ROk p, w) ->
  getStdout p = printed names +:+ tail ->
  ISCSIDriverSingleServer.getInitiatorsOfInitiatorGroup server initiatorGroup st
  = (Ok (List.map ISCSIDriverSingleServer.Initiator.Build_t
           (List.filter (fun n => negb (String.eqb n "mgmt")) names)),
     afterCommand st command w).
Proof.
  intros command Hnames Htail Hrun Hout.
  unfold ISCSIDriverSingleServer.getInitiatorsOfInitiatorGroup, bind, execute.
  change (Cmd _ defaultOptions) with command.
  rewrite Hrun. rewrite Hout, (split_printed names tail Hnames Htail).
  unfold JsString.dropLast. rewrite removelast_last.
  rewrite (combine_all_ok ISCSIDriverSingleServer.Initiator.Build_t).
  cbn [liftResult]. unfold ret, afterCommand. do 3 f_equal.
  apply filter_ext. intros n. unfold ISCSIDriverSingleServer.includes.
  cbn [existsb]. rewrite orb_false_r. reflexivity.
Qed.

Lemma getInitiatorsOfInitiatorGroup_listing_witness :
  ISCSIDriverSingleServer.getInitiatorsOfInitiatorGroup
    (Sample3.printing (printed ["iqn.a"; "mgmt"; "iqn.b"; "mgmt2"] +:+ "partial"))
    Sample3.group Sample.fresh
  = (Ok [ISCSIDriverSingleServer.Initiator.Build_t "iqn.a";
         ISCSIDriverSingleServer.Initiator.Build_t "iqn.b";
         ISCSIDriverSingleServer.Initiator.Build_t "mgmt2"],
     afterCommand Sample.fresh
       (listCommand "/sys/kernel/scst_tgt/targets/iscsi/t1/ini_groups/hosts/initiators") tt).
Proof.
  apply (getInitiatorsOfInitiatorGroup_listing
           (Sample3.printing (printed ["iqn.a"; "mgmt"; "iqn.b"; "mgmt2"] +:+ "partial"))
           Sample3.group Sample.fresh ["iqn.a"; "mgmt"; "iqn.b"; "mgmt2"] "partial"
           {| getStdout := printed ["iqn.a"; "mgmt"; "iqn.b"; "mgmt2"] +:+ "partial";
              exitStatus := 0 |} tt).
  - repeat (apply List.Forall_cons; [apply free_decide; reflexivity |]).
    apply List.Forall_nil.
  - apply free_decide; reflexivity.
  - reflexivity.
  - reflexivity.
Defined.
